(** * The block monitor of toshieth (src/toshieth/monitor.py)

    A shallow embedding of [BlockMonitor]: the block store and the
    transactions table, the reorg handler, one iteration of the block-check
    loop, the transaction classifier [process_transaction], the pending
    transaction processor and the token step of the filter poll.

    Conventions.
    - The database is a record of tables.  [blocks] is keyed by its
      [blocknumber] (the conflict target of the upsert), so it is a finite map;
      tables that are scanned in table order are lists of rows.
    - Dispatcher calls ([manager_dispatcher.update_transaction], ...) are
      recorded as a list of messages, oldest first.
    - The Ethereum node, the clocks and the functions imported from other
      packages are inputs of the model. *)

From Stdlib Require Import ZArith QArith HexString.
From stdpp Require Import gmap strings list fin_maps.

Local Open Scope Z_scope.

(** ** Functions and constants imported by monitor.py *)

(** [parse_int] (toshi.utils), [decode_single]/[decode_abi] after
    [data_decoder] (ethereum.abi), the builtins [hex] and [int(_, 16)], the
    constants of [.constants] and [get_transaction_log_index] of [.utils] are
    not part of the file; the model takes them as an interface. *)
Record log := {
  l_address : string;
  l_topics : list string;
  l_data : string;
  l_transactionHash : string;
  l_logIndex : string
}.

Class Externals := {
  parse_int : string -> Z;
  hex : Z -> string;
  int16 : string -> option Z;
  decode_address : string -> string;
  decode_uint256 : string -> Z;
  decode_transfer_data : string -> string * string * Z;
  get_transaction_log_index : log -> Z;
  TRANSFER_TOPIC : string;
  DEPOSIT_TOPIC : string;
  WITHDRAWAL_TOPIC : string;
  WETH_CONTRACT_ADDRESS : string
}.

(** ** JSON objects returned by the node *)

Record transaction := {
  tx_hash : string;
  tx_from : string;
  tx_to : option string;
  tx_nonce : string;
  tx_blockNumber : option string;
  tx_input : string;
  tx_value : string;
  tx_gas : string;
  tx_gasPrice : string;
  tx_logs : option (list log)      (* the key 'logs' is set by block_check *)
}.

Record block := {
  b_number : string;
  b_hash : string;
  b_parentHash : string;
  b_logsBloom : string;
  b_timestamp : string;
  b_transactions : list transaction
}.

(** Result of a JSON-RPC call: a value, or one of the exceptions the call
    sites catch. *)
Inductive rpc (A : Type) :=
| RpcOk (a : A)
| RpcError.
Arguments RpcOk {A} a.
Arguments RpcError {A}.

Record node := {
  eth_getBlockByNumber : Z -> rpc (option block);
  bulk_execute : list Z -> rpc (list (option block));
  eth_getLogs : string -> rpc (list log);
  eth_getTransactionByHash : string -> rpc (option transaction);
  wall_clock : Z                   (* int(time.time()) *)
}.

(** ** Database rows *)

Inductive status := new | unconfirmed | confirmed | error.

#[export] Instance status_eq_dec : EqDecision status.
Proof. solve_decision. Defined.

(** Row of [blocks]; the key [blocknumber] is the key of the map. *)
Record block_row := {
  timestamp : Z;
  hash : string;
  parent_hash : string;
  stale : bool
}.

Record transaction_row := {
  transaction_id : Z;
  t_hash : string;
  from_address : string;
  to_address : string;
  nonce : Z;
  value : string;
  gas : string;
  gas_price : string;
  data : string;
  blocknumber : option Z;
  t_status : status;
  v : option string
}.

(** Row of [token_transactions]; the key is
    [(transaction_id, transaction_log_index)]. *)
Record token_transaction_row := {
  tt_contract_address : string;
  tt_from_address : string;
  tt_to_address : string;
  tt_value : string;
  tt_status : status
}.

Record token_row := {
  contract_address : string;
  ready : bool;
  custom : bool
}.

Record filter_registration := {
  filter_id : string;
  fr_contract_address : string;
  topic_id : string;
  topic : string
}.

Record collectible_row := {
  c_contract_address : string;
  last_block : Z
}.

Record db := {
  blocks : gmap Z block_row;
  last_blocknumber : list Z;
  transactions : list transaction_row;
  transactions_seq : Z;            (* next value of the BIGSERIAL key *)
  token_transactions : gmap (Z * Z) token_transaction_row;
  notification_registrations : list string;   (* column eth_address *)
  token_registrations : list string;          (* column eth_address *)
  tokens : list token_row;
  filter_registrations : list filter_registration;
  collectibles : list collectible_row
}.

(** Messages handed to the dispatchers. *)
Inductive message :=
| update_default_gas_price (n : Z)
| update_transaction (id : Z) (st : status)
| update_token_cache (contract : string) (addresses : list string)
| send_filter_notification (fid : string) (tpc : string) (dat : string)
| notify_new_block (n : Z).

(** The monitor object: the in-memory high-water mark, the shutdown flag,
    the redis hash of unconfirmed transactions and the database. *)
Record monitor := {
  last_block_number : Z;
  _shutdown : bool;
  unconfirmed_txs : gmap string Z;
  database : db
}.

Definition set_blocks (f : gmap Z block_row -> gmap Z block_row) (d : db) : db :=
  {| blocks := f (blocks d);
     last_blocknumber := last_blocknumber d;
     transactions := transactions d;
     transactions_seq := transactions_seq d;
     token_transactions := token_transactions d;
     notification_registrations := notification_registrations d;
     token_registrations := token_registrations d;
     tokens := tokens d;
     filter_registrations := filter_registrations d;
     collectibles := collectibles d |}.

Definition set_last_blocknumber (f : list Z -> list Z) (d : db) : db :=
  {| blocks := blocks d;
     last_blocknumber := f (last_blocknumber d);
     transactions := transactions d;
     transactions_seq := transactions_seq d;
     token_transactions := token_transactions d;
     notification_registrations := notification_registrations d;
     token_registrations := token_registrations d;
     tokens := tokens d;
     filter_registrations := filter_registrations d;
     collectibles := collectibles d |}.

Definition set_transactions (f : list transaction_row -> list transaction_row)
    (d : db) : db :=
  {| blocks := blocks d;
     last_blocknumber := last_blocknumber d;
     transactions := f (transactions d);
     transactions_seq := transactions_seq d;
     token_transactions := token_transactions d;
     notification_registrations := notification_registrations d;
     token_registrations := token_registrations d;
     tokens := tokens d;
     filter_registrations := filter_registrations d;
     collectibles := collectibles d |}.

Definition set_transactions_seq (n : Z) (d : db) : db :=
  {| blocks := blocks d;
     last_blocknumber := last_blocknumber d;
     transactions := transactions d;
     transactions_seq := n;
     token_transactions := token_transactions d;
     notification_registrations := notification_registrations d;
     token_registrations := token_registrations d;
     tokens := tokens d;
     filter_registrations := filter_registrations d;
     collectibles := collectibles d |}.

Definition set_token_transactions
    (f : gmap (Z * Z) token_transaction_row -> gmap (Z * Z) token_transaction_row)
    (d : db) : db :=
  {| blocks := blocks d;
     last_blocknumber := last_blocknumber d;
     transactions := transactions d;
     transactions_seq := transactions_seq d;
     token_transactions := f (token_transactions d);
     notification_registrations := notification_registrations d;
     token_registrations := token_registrations d;
     tokens := tokens d;
     filter_registrations := filter_registrations d;
     collectibles := collectibles d |}.

Definition set_tokens (f : list token_row -> list token_row) (d : db) : db :=
  {| blocks := blocks d;
     last_blocknumber := last_blocknumber d;
     transactions := transactions d;
     transactions_seq := transactions_seq d;
     token_transactions := token_transactions d;
     notification_registrations := notification_registrations d;
     token_registrations := token_registrations d;
     tokens := f (tokens d);
     filter_registrations := filter_registrations d;
     collectibles := collectibles d |}.

Definition set_collectibles (f : list collectible_row -> list collectible_row)
    (d : db) : db :=
  {| blocks := blocks d;
     last_blocknumber := last_blocknumber d;
     transactions := transactions d;
     transactions_seq := transactions_seq d;
     token_transactions := token_transactions d;
     notification_registrations := notification_registrations d;
     token_registrations := token_registrations d;
     tokens := tokens d;
     filter_registrations := filter_registrations d;
     collectibles := f (collectibles d) |}.

Definition set_database (f : db -> db) (m : monitor) : monitor :=
  {| last_block_number := last_block_number m;
     _shutdown := _shutdown m;
     unconfirmed_txs := unconfirmed_txs m;
     database := f (database m) |}.

Definition set_last_block_number (n : Z) (m : monitor) : monitor :=
  {| last_block_number := n;
     _shutdown := _shutdown m;
     unconfirmed_txs := unconfirmed_txs m;
     database := database m |}.

Definition set_unconfirmed_txs (f : gmap string Z -> gmap string Z)
    (m : monitor) : monitor :=
  {| last_block_number := last_block_number m;
     _shutdown := _shutdown m;
     unconfirmed_txs := f (unconfirmed_txs m);
     database := database m |}.

(** ** Queries on [blocks] *)

(** [SELECT blocknumber FROM blocks WHERE blocknumber < n
     ORDER BY blocknumber DESC LIMIT 1] *)
Definition pick_higher (n : Z) (k : Z) (acc : option Z) : option Z :=
  if bool_decide (k < n)
  then Some (match acc with Some a => Z.max a k | None => k end)
  else acc.

Definition highest_block_below (b : gmap Z block_row) (n : Z) : option Z :=
  foldr (pick_higher n) None (map_to_list b).*1.

(** [SELECT * FROM blocks WHERE blocknumber <= n
     ORDER BY blocknumber DESC LIMIT limit] *)
Fixpoint select_blocks_desc (b : gmap Z block_row) (n : Z) (limit : nat)
  : list (Z * block_row) :=
  match limit with
  | O => []
  | S limit' =>
      match highest_block_below b (n + 1) with
      | None => []
      | Some k =>
          match b !! k with
          | None => []
          | Some row => (k, row) :: select_blocks_desc b (k - 1) limit'
          end
      end
  end.

(** [UPDATE blocks SET stale = TRUE WHERE blocknumber > f] *)
Definition mark_stale (r : block_row) : block_row :=
  {| timestamp := timestamp r; hash := hash r;
     parent_hash := parent_hash r; stale := true |}.

Definition mark_stale_above (f : Z) (b : gmap Z block_row) : gmap Z block_row :=
  map_imap (λ k r, Some (if bool_decide (f < k) then mark_stale r else r)) b.

(** [INSERT INTO blocks ... ON CONFLICT (blocknumber) DO UPDATE SET
     timestamp, hash, parent_hash, stale = FALSE] *)
Definition upsert_block (n ts : Z) (h p : string) (b : gmap Z block_row)
  : gmap Z block_row :=
  <[n := {| timestamp := ts; hash := h; parent_hash := p; stale := false |}]> b.

(** [UPDATE collectibles SET last_block = n WHERE last_block > n] *)
Definition clamp_collectible (n : Z) (c : collectible_row) : collectible_row :=
  if bool_decide (n < last_block c)
  then {| c_contract_address := c_contract_address c; last_block := n |}
  else c.

(** [UPDATE last_blocknumber SET blocknumber = n WHERE blocknumber < n] *)
Definition bump_high_water (n : Z) (l : list Z) : list Z :=
  (λ x, if bool_decide (x < n) then n else x) <$> l.

Section Monitor.
Context `{Externals}.

(** ** The reorg handler, [handle_reorg] *)

Definition BLOCKS_PER_ITERATION : nat := 10.

(** The numbers queued on the bulk client:
    [for i in range(BLOCKS_PER_ITERATION): if blocknumber - i >= 0]. *)
Definition bulk_requests (blocknumber : Z) : list Z :=
  filter (λ n, 0 ≤ n)
         ((λ i : nat, blocknumber - Z.of_nat i) <$> seq 0 BLOCKS_PER_ITERATION).

(** The inner [while db_results] loop: [db_block] is the row looked at
    last, also when its number does not match. *)
Fixpoint skip_out_of_order (number : Z) (db_results : list (Z * block_row))
    (db_block : option (Z * block_row))
  : list (Z * block_row) * option (Z * block_row) :=
  match db_results with
  | [] => ([], db_block)
  | r :: rest =>
      if bool_decide (number ≠ r.1)
      then skip_out_of_order number rest (Some r)
      else (db_results, Some r)
  end.

Inductive scan_result :=
| ScanRaised                (* a node result was null: subscripting it raises *)
| ScanFork (f : Z)
| ScanExhausted.

(** The [while node_results] loop of one batch. *)
Fixpoint compare_batch (node_results : list (option block))
    (db_results : list (Z * block_row)) : scan_result :=
  match node_results with
  | [] => ScanExhausted
  | node_block :: node_rest =>
      match db_results with
      | [] => ScanExhausted
      | _ :: _ =>
          match node_block with
          | None => ScanRaised
          | Some nb =>
              match skip_out_of_order (parse_int (b_number nb)) db_results None with
              | (_, None) => ScanExhausted
              | (db_results', Some db_block) =>
                  if bool_decide (b_hash nb = hash db_block.2)
                  then ScanFork db_block.1
                  else compare_batch node_rest (tail db_results')
              end
          end
      end
  end.

Inductive fork_search :=
| ForkFound (f : Z)
| ForkNotFound
| ForkRaised
| ForkOutOfFuel.

(** The [while True] loop; [fuel] bounds the number of batches. *)
Fixpoint find_fork (fuel : nat) (nd : node) (b : gmap Z block_row)
    (last : Z) (blocknumber : Z) : fork_search :=
  match fuel with
  | O => ForkOutOfFuel
  | S fuel' =>
      match bulk_execute nd (bulk_requests blocknumber) with
      | RpcError => ForkRaised
      | RpcOk node_results =>
          match compare_batch node_results
                  (select_blocks_desc b blocknumber BLOCKS_PER_ITERATION) with
          | ScanRaised => ForkRaised
          | ScanFork f => ForkFound f
          | ScanExhausted =>
              let blocknumber' := blocknumber - Z.of_nat BLOCKS_PER_ITERATION in
              if bool_decide (blocknumber' ≤ 0 ∨ blocknumber' < last - 1000)
              then ForkNotFound
              else find_fork fuel' nd b last blocknumber'
          end
      end
  end.

(** The search leaves the loop after at most 101 batches. *)
Definition REORG_FUEL : nat := 102.

Inductive reorg_result :=
| ReorgDone (success : bool) (m : monitor)
| ReorgRaised.

Definition handle_reorg (nd : node) (m : monitor) : reorg_result :=
  match find_fork REORG_FUEL nd (blocks (database m))
          (last_block_number m) (last_block_number m) with
  | ForkFound forked_at_blocknumber =>
      ReorgDone true
        (set_last_block_number forked_at_blocknumber
           (set_database
              (λ d, set_collectibles
                      (fmap (clamp_collectible (forked_at_blocknumber - 1)))
                      (set_blocks (mark_stale_above forked_at_blocknumber) d))
              m))
  | ForkNotFound => ReorgDone false m
  | ForkRaised | ForkOutOfFuel => ReorgRaised
  end.

(** ** The transaction classifier, [process_transaction] *)

(** A tuple of the list [erc20_transfers]. *)
Record erc20_transfer := {
  e_contract_address : string;
  e_log_index : Z;
  e_from_address : string;
  e_to_address : string;
  e_value : string;
  e_status : status
}.

Definition ZERO_ADDRESS : string := "0x0000000000000000000000000000000000000000".

(** Python's [s.startswith(p)], [len(s)], [s[a:b]] and [s[-n:]]. *)
Definition startswith (s p : string) : bool := String.prefix p s.

Definition slice (s : string) (a b : nat) : string :=
  String.substring a (b - a) s.

Definition last_chars (s : string) (n : nat) : string :=
  String.substring (String.length s - n) n s.

(** The rows selected by [from_address = $1 AND nonce = $2]. *)
Definition same_from_nonce (tx : transaction) (r : transaction_row) : Prop :=
  from_address r = tx_from tx ∧ nonce r = parse_int (tx_nonce tx).

#[global] Instance same_from_nonce_dec tx r : Decision (same_from_nonce tx r).
Proof. unfold same_from_nonce. apply _. Defined.

(** The record [db_tx] found for the transaction (lines 412-433). *)
Definition find_db_tx (d : db) (tx : transaction) : option transaction_row :=
  let db_txs := filter (same_from_nonce tx) (transactions d) in
  match db_txs with
  | [] => None
  | [r] => Some r
  | _ =>
      match head (filter (λ r, t_hash r = tx_hash tx
                               ∧ (t_status r ≠ error ∨ t_status r = new)) db_txs) with
      | Some r => Some r
      | None =>
          match filter (λ r, t_hash r ≠ tx_hash tx
                             ∧ (t_status r ≠ error ∨ t_status r = new)) db_txs with
          | [r] => Some r
          | _ => None
          end
      end
  end.

(** The overwrite check (lines 440-450): the record kept and the message
    sent. *)
Definition is_overwritten (tx : transaction) (r : transaction_row) : bool :=
  bool_decide (t_hash r ≠ tx_hash tx ∧ t_status r ≠ error).

Definition overwrite_check (tx : transaction) (db_tx : option transaction_row)
  : option transaction_row * list message :=
  match db_tx with
  | Some r =>
      if is_overwritten tx r
      then (None, [update_transaction (transaction_id r) error])
      else (Some r, [])
  | None => (None, [])
  end.

Definition notification_interest (d : db) (a b : string) : bool :=
  bool_decide (a ∈ notification_registrations d ∨ b ∈ notification_registrations d).

Definition token_interest (d : db) (a b : string) : bool :=
  bool_decide (a ∈ token_registrations d ∨ b ∈ token_registrations d).

Definition is_known_token (d : db) (a : string) : bool :=
  bool_decide (a ∈ contract_address <$> tokens d).

(** What one log contributes (lines 475-517); [None] when subscripting
    [topics] raises. *)
Definition log_transfers (d : db) (_log : log) : option (list erc20_transfer) :=
  match l_topics _log with
  | [] => Some []
  | topic0 :: _ =>
      if bool_decide (topic0 = TRANSFER_TOPIC) then
        if negb (is_known_token d (l_address _log)) then Some []
        else
          let decoded :=
            match l_topics _log with
            | [_; t1; t2] =>
                if bool_decide (String.length (l_data _log) = 66%nat)
                then Some (decode_address t1, decode_address t2,
                           decode_uint256 (l_data _log))
                else None
            | [_] =>
                if bool_decide (String.length (l_data _log) = 194%nat)
                then Some (decode_transfer_data (l_data _log))
                else None
            | _ => None
            end in
          match decoded with
          | None => Some []
          | Some (erc20_from_address, erc20_to_address, erc20_value) =>
              if token_interest d erc20_from_address erc20_to_address
              then Some [ {| e_contract_address := l_address _log;
                             e_log_index := get_transaction_log_index _log;
                             e_from_address := erc20_from_address;
                             e_to_address := erc20_to_address;
                             e_value := hex erc20_value;
                             e_status := confirmed |} ]
              else Some []
          end
      else if bool_decide ((topic0 = DEPOSIT_TOPIC ∨ topic0 = WITHDRAWAL_TOPIC)
                           ∧ l_address _log = WETH_CONTRACT_ADDRESS) then
        match l_topics _log !! 1%nat with
        | None => None
        | Some t1 =>
            let eth_address := decode_address t1 in
            if bool_decide (eth_address ∈ token_registrations d) then
              let erc20_value := decode_uint256 (l_data _log) in
              let '(erc20_from_address, erc20_to_address) :=
                if bool_decide (topic0 = DEPOSIT_TOPIC)
                then (ZERO_ADDRESS, eth_address)
                else (eth_address, ZERO_ADDRESS) in
              Some [ {| e_contract_address := WETH_CONTRACT_ADDRESS;
                        e_log_index := get_transaction_log_index _log;
                        e_from_address := erc20_from_address;
                        e_to_address := erc20_to_address;
                        e_value := hex erc20_value;
                        e_status := confirmed |} ]
            else Some []
        end
      else Some []
  end.

Fixpoint confirmed_transfers (d : db) (logs : list log)
  : option (list erc20_transfer) :=
  match logs with
  | [] => Some []
  | _log :: rest =>
      match log_transfers d _log with
      | None => None
      | Some ts =>
          match confirmed_transfers d rest with
          | None => None
          | Some ts' => Some (ts ++ ts')
          end
      end
  end.

(** The guess from the input of a pending transaction (lines 522-538);
    [None] when [int(data[-64:], 16)] raises. *)
Definition pending_transfers (tx : transaction) (to_addr from_addr : string)
  : option (list erc20_transfer) :=
  let data := tx_input tx in
  if bool_decide (data = "") then Some []
  else if (startswith data "0xa9059cbb" && bool_decide (String.length data = 138%nat))
          || (startswith data "0x23b872dd" && bool_decide (String.length data = 202%nat))
  then
    match int16 (last_chars data 64) with
    | None => None
    | Some n =>
        let token_value := hex n in
        let '(erc20_from_address, erc20_to_address) :=
          if startswith data "0x23b872dd"
          then ("0x" +:+ slice data 34 74, "0x" +:+ slice data 98 138)
          else (from_addr, "0x" +:+ slice data 34 74) in
        Some [ {| e_contract_address := to_addr;
                  e_log_index := 0;
                  e_from_address := erc20_from_address;
                  e_to_address := erc20_to_address;
                  e_value := token_value;
                  e_status := unconfirmed |} ]
    end
  else if bool_decide (data = "0xd0e30db0")
          && bool_decide (tx_to tx = Some WETH_CONTRACT_ADDRESS)
  then Some [ {| e_contract_address := WETH_CONTRACT_ADDRESS;
                 e_log_index := 0;
                 e_from_address := ZERO_ADDRESS;
                 e_to_address := tx_from tx;
                 e_value := tx_value tx;
                 e_status := unconfirmed |} ]
  else if startswith data "0x2e1a7d4d" && bool_decide (String.length data = 74%nat)
  then
    match int16 (last_chars data 64) with
    | None => None
    | Some n =>
        Some [ {| e_contract_address := WETH_CONTRACT_ADDRESS;
                  e_log_index := 0;
                  e_from_address := tx_from tx;
                  e_to_address := ZERO_ADDRESS;
                  e_value := hex n;
                  e_status := unconfirmed |} ]
    end
  else Some [].

(** The list [erc20_transfers] (lines 468-538). *)
Definition extract_transfers (d : db) (tx : transaction)
    (db_tx : option transaction_row) (to_addr from_addr : string)
  : option (list erc20_transfer) :=
  match tx_blockNumber tx, tx_logs tx with
  | Some _, Some (l :: logs) => confirmed_transfers d (l :: logs)
  | Some _, _ => Some []
  | None, _ =>
      match db_tx with
      | None => pending_transfers tx to_addr from_addr
      | Some _ => Some []
      end
  end.

Definition transfer_interest (d : db) (e : erc20_transfer) : bool :=
  notification_interest d (e_to_address e) (e_from_address e)
  || token_interest d (e_to_address e) (e_from_address e).

(** [is_interesting] when the function reaches line 560. *)
Definition is_interesting (d : db) (db_tx : option transaction_row)
    (to_addr from_addr : string) (erc20_transfers : list erc20_transfer) : bool :=
  match db_tx with
  | Some _ => true
  | None =>
      notification_interest d to_addr from_addr
      || existsb (transfer_interest d) erc20_transfers
  end.

(** Modelled from the spec: the schema of [transactions] is not under src/
    and the INSERT names no status; the row starts in the first status of
    the data model, [new]. *)
Definition DEFAULT_STATUS : status := new.

(** [INSERT INTO transactions (...) VALUES (...) RETURNING transaction_id] *)
Definition new_transaction_row (id : Z) (tx : transaction) (to_addr : string)
  : transaction_row :=
  {| transaction_id := id;
     t_hash := tx_hash tx;
     from_address := tx_from tx;
     to_address := to_addr;
     nonce := parse_int (tx_nonce tx);
     value := hex (parse_int (tx_value tx));
     gas := hex (parse_int (tx_gas tx));
     gas_price := hex (parse_int (tx_gasPrice tx));
     data := tx_input tx;
     blocknumber := None;
     t_status := DEFAULT_STATUS;
     v := None |}.

Definition insert_transaction (d : db) (tx : transaction) (to_addr : string)
  : db * Z :=
  let id := transactions_seq d in
  (set_transactions_seq (id + 1)
     (set_transactions (λ l, l ++ [new_transaction_row id tx to_addr]) d),
   id).

(** [INSERT INTO token_transactions ... ON CONFLICT (transaction_id,
    transaction_log_index) DO UPDATE SET from_address, to_address, value] *)
Definition upsert_token_transaction (id : Z) (e : erc20_transfer)
    (tt : gmap (Z * Z) token_transaction_row)
  : gmap (Z * Z) token_transaction_row :=
  match tt !! (id, e_log_index e) with
  | Some old =>
      <[(id, e_log_index e) :=
          {| tt_contract_address := tt_contract_address old;
             tt_from_address := e_from_address e;
             tt_to_address := e_to_address e;
             tt_value := e_value e;
             tt_status := tt_status old |}]> tt
  | None =>
      <[(id, e_log_index e) :=
          {| tt_contract_address := e_contract_address e;
             tt_from_address := e_from_address e;
             tt_to_address := e_to_address e;
             tt_value := e_value e;
             tt_status := e_status e |}]> tt
  end.

Definition store_transfers (d : db) (id : Z) (erc20_transfers : list erc20_transfer)
  : db :=
  foldl (λ d' e, if transfer_interest d' e
                 then set_token_transactions (upsert_token_transaction id e) d'
                 else d')
        d erc20_transfers.

(** [UPDATE transactions SET blocknumber = $1 WHERE transaction_id = $2] *)
Definition set_row_blocknumber (n id : Z) (r : transaction_row) : transaction_row :=
  if bool_decide (transaction_id r = id)
  then {| transaction_id := transaction_id r; t_hash := t_hash r;
          from_address := from_address r; to_address := to_address r;
          nonce := nonce r; value := value r; gas := gas r;
          gas_price := gas_price r; data := data r;
          blocknumber := Some n; t_status := t_status r; v := v r |}
  else r.

Inductive tx_result :=
| TxRaised
| TxReturned (id : option Z).

Definition new_status (tx : transaction) : status :=
  match tx_blockNumber tx with Some _ => confirmed | None => unconfirmed end.

Definition process_transaction (d : db) (tx : transaction) (is_reorg : bool)
  : tx_result * db * list message :=
  let to_addr := default "0x" (tx_to tx) in
  let from_addr := tx_from tx in
  let '(db_tx, sent) := overwrite_check tx (find_db_tx d tx) in
  let reorg_row :=
    match db_tx with
    | Some r =>
        if is_reorg && bool_decide (t_hash r = tx_hash tx)
                    && bool_decide (t_status r = confirmed)
        then Some r else None
    | None => None
    end in
  match reorg_row with
  | Some r =>
      match tx_blockNumber tx with
      | None => (TxReturned (Some (transaction_id r)), d, sent)
      | Some bn =>
          let new_blocknumber := parse_int bn in
          if bool_decide (Some new_blocknumber ≠ blocknumber r)
          then (TxReturned (Some (transaction_id r)),
                set_transactions
                  (fmap (set_row_blocknumber new_blocknumber (transaction_id r))) d,
                sent)
          else (TxReturned (Some (transaction_id r)), d, sent)
      end
  | None =>
      match extract_transfers d tx db_tx to_addr from_addr with
      | None => (TxRaised, d, sent)
      | Some erc20_transfers =>
          if negb (is_interesting d db_tx to_addr from_addr erc20_transfers)
          then (TxReturned None, d, sent)
          else
            let '(d1, id) :=
              match db_tx with
              | Some r => (d, transaction_id r)
              | None => insert_transaction d tx to_addr
              end in
            (TxReturned (Some id),
             store_transfers d1 id erc20_transfers,
             sent ++ [update_transaction id (new_status tx)])
      end
  end.

(** ** One iteration of the block-check loop, [block_check] *)

Fixpoint py_mul (s : string) (n : nat) : string :=
  match n with
  | O => ""
  | S n' => s +:+ py_mul s n'
  end.

Definition EMPTY_BLOOM : string := "0x" +:+ py_mul "0" 512.

(** [tx['logs'] = logs[tx['hash']]] when the hash is a key of [logs]. *)
Definition attach_logs (logs_list : list log) (tx : transaction) : transaction :=
  match filter (λ l, l_transactionHash l = tx_hash tx) logs_list with
  | [] => tx
  | ls =>
      {| tx_hash := tx_hash tx; tx_from := tx_from tx; tx_to := tx_to tx;
         tx_nonce := tx_nonce tx; tx_blockNumber := tx_blockNumber tx;
         tx_input := tx_input tx; tx_value := tx_value tx; tx_gas := tx_gas tx;
         tx_gasPrice := tx_gasPrice tx; tx_logs := Some ls |}
  end.

(** The classifier tasks of one block, run one after the other; the flag
    tells whether one of them raised. *)
Fixpoint process_transactions (d : db) (txs : list transaction) (is_reorg : bool)
  : bool * db * list message :=
  match txs with
  | [] => (false, d, [])
  | tx :: rest =>
      let '(r, d1, sent1) := process_transaction d tx is_reorg in
      let '(raised, d2, sent2) := process_transactions d1 rest is_reorg in
      (match r with TxRaised => true | TxReturned _ => raised end,
       d2, sent1 ++ sent2)
  end.

Definition filter_notifications (d : db) (logs_list : list log) : list message :=
  concat ((λ event,
    concat ((λ tpc,
      (λ f, send_filter_notification (filter_id f) (topic f) (l_data event))
        <$> filter (λ f, fr_contract_address f = l_address event ∧ topic_id f = tpc)
                   (filter_registrations d))
      <$> l_topics event))
    <$> logs_list).

Inductive iteration :=
| IterBreak                          (* [break]: the loop ends *)
| IterGap                            (* [continue] after the gap rewind *)
| IterReorg                          (* [continue] after handle_reorg succeeded *)
| IterPersisted (reorg_failed : bool)  (* the block row was written *)
| IterRaised.                        (* an exception left the coroutine *)

(** Lines 214-276: the block is processed and stored. *)
Definition ingest_block (nd : node) (m : monitor) (blk : block)
    (reorg_failed : bool) (sent : list message)
  : iteration * monitor * list message :=
  let d := database m in
  let is_reorg := bool_decide (is_Some (blocks d !! (last_block_number m + 1))) in
  let fetched :=
    if bool_decide (b_logsBloom blk ≠ EMPTY_BLOOM)
    then eth_getLogs nd (b_number blk)
    else RpcOk [] in
  match fetched with
  | RpcError => (IterBreak, m, sent)
  | RpcOk logs_list =>
      let '(raised, d1, sent1) :=
        process_transactions d (attach_logs logs_list <$> b_transactions blk)
                             is_reorg in
      if raised then (IterRaised, set_database (λ _, d1) m, sent ++ sent1)
      else
        let sent2 := filter_notifications d1 logs_list in
        let block_number := parse_int (b_number blk) in
        let m1 :=
          if bool_decide (last_block_number m < block_number)
          then set_last_block_number block_number m else m in
        let ts :=
          if bool_decide (parse_int (b_timestamp blk) = 0)
          then wall_clock nd else parse_int (b_timestamp blk) in
        let d2 :=
          set_blocks (upsert_block block_number ts (b_hash blk) (b_parentHash blk))
            (set_last_blocknumber (bump_high_water block_number) d1) in
        (IterPersisted reorg_failed, set_database (λ _, d2) m1,
         sent ++ sent1 ++ sent2 ++ [notify_new_block block_number])
  end.

Definition block_check_iter (nd : node) (m : monitor)
  : iteration * monitor * list message :=
  match eth_getBlockByNumber nd (last_block_number m + 1) with
  | RpcError => (IterBreak, m, [])
  | RpcOk None => (IterBreak, m, [])
  | RpcOk (Some blk) =>
      let sent := [update_default_gas_price (last_block_number m + 1)] in
      match blocks (database m) !! last_block_number m with
      | None =>
          match highest_block_below (blocks (database m)) (last_block_number m) with
          | Some n =>
              if bool_decide (n ≠ 0)
              then (IterGap, set_last_block_number n m, sent)
              else ingest_block nd m blk false sent
          | None => ingest_block nd m blk false sent
          end
      | Some last_block_row =>
          if bool_decide (hash last_block_row ≠ b_parentHash blk)
          then
            match handle_reorg nd m with
            | ReorgRaised => (IterRaised, m, sent)
            | ReorgDone true m' => (IterReorg, m', sent)
            | ReorgDone false m' => ingest_block nd m' blk true sent
            end
          else ingest_block nd m blk false sent
      end
  end.

(** ** The pending-transaction processor, [process_unconfirmed_transactions] *)

(** [age >= 60] for [age = loop.time() - int(created)]. *)
Definition expired (now : Q) (created : Z) : bool :=
  Qle_bool 60 (now - inject_Z created).

Inductive entry_result := EntryDone | EntryRaised.

(** The body of the [for tx_hash, created in ...] loop up to the shutdown
    test. *)
Definition process_unconfirmed_entry (now : Q)
    (response : rpc (option transaction)) (h : string) (created : Z)
    (m : monitor) : entry_result * monitor * list message :=
  let tx := match response with RpcError => None | RpcOk t => t end in
  match tx with
  | None =>
      if expired now created
      then (EntryDone, set_unconfirmed_txs (delete h) m, [])
      else (EntryDone, m, [])
  | Some tx =>
      let m1 := set_unconfirmed_txs (delete h) m in
      match tx_blockNumber tx with
      | Some _ => (EntryDone, m1, [])
      | None =>
          let '(r, d, sent) := process_transaction (database m1) tx false in
          (match r with TxRaised => EntryRaised | TxReturned _ => EntryDone end,
           set_database (λ _, d) m1, sent)
      end
  end.

Fixpoint process_unconfirmed_loop (clock : string -> Q) (nd : node)
    (items : list (string * Z)) (m : monitor) : monitor * list message :=
  match items with
  | [] => (m, [])
  | (h, created) :: rest =>
      let '(r, m1, sent1) :=
        process_unconfirmed_entry (clock h) (eth_getTransactionByHash nd h)
                                  h created m in
      match r with
      | EntryRaised => (m1, sent1)
      | EntryDone =>
          if _shutdown m1 then (m1, sent1)
          else
            let '(m2, sent2) := process_unconfirmed_loop clock nd rest m1 in
            (m2, sent1 ++ sent2)
      end
  end.

Definition process_unconfirmed_transactions (clock : string -> Q) (nd : node)
    (m : monitor) : monitor * list message :=
  if _shutdown m then (m, [])
  else process_unconfirmed_loop clock nd (map_to_list (unconfirmed_txs m)) m.

(** ** The token step of [filter_poll] (lines 290-316) *)

(** [range(0, stop, step)] *)
Definition py_range (stop step : nat) : list nat :=
  (λ k, k * step)%nat <$> seq 0 ((stop + step - 1) / step)%nat.

Definition set_ready (t : token_row) : token_row :=
  {| contract_address := contract_address t; ready := true; custom := custom t |}.

Definition filter_poll_tokens (m : monitor) : monitor * list message :=
  if _shutdown m then (m, [])
  else
    let d := database m in
    let rows := filter (λ t, ready t = false ∧ custom t = false) (tokens d) in
    match rows with
    | [] => (m, [])
    | _ =>
        let total_registrations := length (token_registrations d) in
        let limit := 1000%nat in
        let sent :=
          concat ((λ offset,
            let registrations := take limit (drop offset (token_registrations d)) in
            (λ row, update_token_cache (contract_address row) registrations)
              <$> rows)
            <$> py_range total_registrations limit) in
        (set_database
           (set_tokens
              (fmap (λ t, if bool_decide (contract_address t
                                          ∈ contract_address <$> rows)
                          then set_ready t else t)))
           m,
         sent)
    end.

(** ** Properties of the store used in the statements *)

(** Consecutive rows that are not stale are linked by their hashes. *)
Definition chain_consistent (b : gmap Z block_row) : Prop :=
  ∀ n r r', b !! n = Some r → b !! (n + 1) = Some r' →
            stale r = false → stale r' = false → parent_hash r' = hash r.

(** Every row above the high-water mark is stale. *)
Definition stale_above (b : gmap Z block_row) (h : Z) : Prop :=
  ∀ k r, b !! k = Some r → h < k → stale r = true.

(** The node answers [eth_getBlockByNumber(n)] with a block numbered [n]. *)
Definition node_numbers (nd : node) : Prop :=
  ∀ n blk, eth_getBlockByNumber nd n = RpcOk (Some blk) →
           parse_int (b_number blk) = n.

(** The rows of a [(from_address, nonce)] pair whose status is not
    ['error']. *)
Definition non_error_rows (a : string) (n : Z) (d : db) : list transaction_row :=
  filter (λ r, (from_address r = a ∧ nonce r = n) ∧ t_status r ≠ error)
         (transactions d).

(** The key sequence of [transactions] is ahead of every stored key. *)
Definition ids_fresh (d : db) : Prop :=
  ∀ r, r ∈ transactions d → transaction_id r < transactions_seq d.

(** The [update_transaction] messages for one [transaction_id]. *)
Definition is_update_for (id : Z) (msg : message) : bool :=
  match msg with
  | update_transaction id' _ => bool_decide (id' = id)
  | _ => false
  end.

Definition updates_for (id : Z) (sent : list message) : list message :=
  List.filter (is_update_for id) sent.

(** The tokens the filter poll has to announce. *)
Definition unready (t : token_row) : Prop := ready t = false ∧ custom t = false.

End Monitor.

(** * The rest of the monitor *)

Section MonitorExtra.
Context `{Externals}.

(** The node with another answer to [eth_getLogs]. *)
Definition with_getLogs (f : string -> rpc (list log)) (nd : node) : node :=
  {| eth_getBlockByNumber := eth_getBlockByNumber nd;
     bulk_execute := bulk_execute nd;
     eth_getLogs := f;
     eth_getTransactionByHash := eth_getTransactionByHash nd;
     wall_clock := wall_clock nd |}.

Definition is_filter_notification (msg : message) : bool :=
  match msg with
  | send_filter_notification _ _ _ => true
  | _ => false
  end.

(** ** The block-check loop, [block_check] *)

(** The [while not self._shutdown] loop; [fuel] bounds the number of
    iterations, [None] means the bound was reached.  The result lists the
    outcome of every iteration. *)
Fixpoint block_check (fuel : nat) (nd : node) (m : monitor)
  : option (monitor * list message * list iteration) :=
  match fuel with
  | O => None
  | S fuel' =>
      if _shutdown m then Some (m, [], [])
      else
        let '(it, m1, sent1) := block_check_iter nd m in
        match it with
        | IterBreak | IterRaised => Some (m1, sent1, [it])
        | _ =>
            match block_check fuel' nd m1 with
            | None => None
            | Some (m2, sent2, its) => Some (m2, sent1 ++ sent2, it :: its)
            end
        end
  end.

(** The attribute [_last_saw_new_block] after one iteration of the loop
    (line 179): the clock reading [now] when the node returned a block, its
    old value otherwise.  (The loop also keeps the statistics [_lastlog] and
    [_blocktimes] for its log lines; they are not modelled.) *)
Definition _last_saw_new_block (nd : node) (m : monitor)
    (now last_saw_new_block : Q) : Q :=
  match eth_getBlockByNumber nd (last_block_number m + 1) with
  | RpcOk (Some _) => now
  | _ => last_saw_new_block
  end.

(** Two rows that differ at most in [blocknumber]. *)
Definition same_but_blocknumber (r r' : transaction_row) : Prop :=
  transaction_id r' = transaction_id r ∧ t_hash r' = t_hash r
  ∧ from_address r' = from_address r ∧ to_address r' = to_address r
  ∧ nonce r' = nonce r ∧ value r' = value r ∧ gas r' = gas r
  ∧ gas_price r' = gas_price r ∧ data r' = data r
  ∧ t_status r' = t_status r ∧ v r' = v r.

(** The messages of the token step: for every page of addresses, one
    [update_token_cache] per token. *)
Definition token_cache_messages (rows : list token_row)
    (pages : list (list string)) : list message :=
  concat ((λ page,
             (λ row, update_token_cache (contract_address row) page) <$> rows)
          <$> pages).

(** ** Start-up, [_initialise] (lines 88-104) *)

(** [SELECT blocknumber FROM blocks WHERE stale = FALSE
     ORDER BY blocknumber DESC LIMIT 1] *)
Definition pick_non_stale (item : Z * block_row) (acc : option Z) : option Z :=
  if stale item.2 then acc
  else Some (match acc with Some a => Z.max a item.1 | None => item.1 end).

Definition highest_non_stale (b : gmap Z block_row) : option Z :=
  foldr pick_non_stale None (map_to_list b).

(** The high-water mark the monitor starts from: the highest block that
    is not stale, else the first row of [last_blocknumber], else the block
    number of the node, which is then inserted into [last_blocknumber].
    [None] when [eth_blockNumber] is needed and raises.  (The registration of
    the filter and the first poll follow.) *)
Definition _initialise (eth_blockNumber : rpc Z) (m : monitor) : option monitor :=
  let d := database m in
  let row :=
    match highest_non_stale (blocks d) with
    | Some n => Some n
    | None => head (last_blocknumber d)
    end in
  match row with
  | Some n =>
      Some {| last_block_number := n; _shutdown := false;
              unconfirmed_txs := unconfirmed_txs m; database := d |}
  | None =>
      match eth_blockNumber with
      | RpcError => None
      | RpcOk n =>
          Some {| last_block_number := n; _shutdown := false;
                  unconfirmed_txs := unconfirmed_txs m;
                  database := set_last_blocknumber (λ l, l ++ [n]) d |}
      end
  end.

(** ** The pending-transaction filter *)

Record filter_state := {
  _new_pending_transaction_filter_id : option string;
  _last_saw_new_pending_transactions : Q
}.

(** Python's [int(x)] on a clock reading: truncation towards zero. *)
Definition py_int (q : Q) : Z := Z.quot (Qnum q) (Z.pos (Qden q)).

Definition FILTER_TIMEOUT : Z := 120.
Definition NEW_BLOCK_TIMEOUT : Z := 300.
Definition DEFAULT_POLL_DELAY : Q := 1.

(** The retry loop of [register_new_pending_transaction_filter] on the
    successive answers of [eth_newPendingTransactionFilter]: the filter id, if
    one of the listed calls succeeds, and the seconds slept after each
    failure. *)
Fixpoint register_loop (answers : list (rpc string)) (backoff : nat)
  : option string * list nat :=
  match answers with
  | [] => (None, [])
  | RpcOk filter_id :: _ => (Some filter_id, [])
  | RpcError :: rest =>
      let backoff' := Nat.min (backoff + 1) 10 in
      let '(r, sleeps) := register_loop rest backoff' in
      (r, backoff' :: sleeps)
  end.

Definition register_new_pending_transaction_filter (shutdown : bool)
    (answers : list (rpc string)) (now : Q) (fs : filter_state)
  : filter_state * list nat :=
  if shutdown then (fs, [])
  else
    match register_loop answers 0 with
    | (Some filter_id, sleeps) =>
        ({| _new_pending_transaction_filter_id := Some filter_id;
            _last_saw_new_pending_transactions := now |}, sleeps)
    | (None, sleeps) => (fs, sleeps)
    end.

(** [redis.hsetnx(key, tx_hash, value)] *)
Definition hsetnx (h : string) (t : Z) (pm : gmap string Z) : gmap string Z :=
  match pm !! h with
  | Some _ => pm
  | None => <[h := t]> pm
  end.

(** Python's [-] and [+] on two clock readings.  The readings are floats
    (binary64), every float is a rational, and the result of the operation is
    the rounded one: it is what the code compares, and it need not be the
    exact difference or sum. *)
Variable float_sub : Q -> Q -> Q.
Variable float_add : Q -> Q -> Q.

(** The filter step of [filter_poll] (lines 318-345): the filter state,
    the pending map, the seconds slept while registering again, and whether
    the pending-transaction processor is started.  [clock h] is the clock at
    the [hsetnx] of [h], [now] the clock of the later readings and
    [registered_at] the clock after a registration. *)
Definition filter_poll_filter (shutdown : bool) (changes : rpc (list string))
    (clock : string -> Q) (now registered_at : Q) (answers : list (rpc string))
    (fs : filter_state) (pm : gmap string Z)
  : filter_state * gmap string Z * list nat * bool :=
  if shutdown then (fs, pm, [], false)
  else
    match _new_pending_transaction_filter_id fs with
    | None => (fs, pm, [], false)
    | Some _ =>
        let '(new_pending_transactions, pm1) :=
          match changes with
          | RpcOk hashes =>
              (Some hashes, foldl (λ pm h, hsetnx h (py_int (clock h)) pm) pm hashes)
          | RpcError => (None, pm)
          end in
        let '(fs1, sleeps) :=
          match new_pending_transactions with
          | None =>
              register_new_pending_transaction_filter shutdown answers
                                                      registered_at fs
          | Some (_ :: _) =>
              ({| _new_pending_transaction_filter_id :=
                    _new_pending_transaction_filter_id fs;
                  _last_saw_new_pending_transactions := now |}, [])
          | Some [] =>
              if bool_decide
                   (py_int (float_sub now (_last_saw_new_pending_transactions fs))
                    > FILTER_TIMEOUT)
              then register_new_pending_transaction_filter shutdown answers
                                                           registered_at fs
              else (fs, [])
          end in
        (fs1, pm1, sleeps, bool_decide (0 < size pm1)%nat)
    end.

(** ** The watchdog, [sanity_check] *)

(** The filter state, the due time of the poll schedule and whether the
    heartbeat key is written.  [poll_schedule] is the due time [_when] of the
    scheduled poll, [poll_running] tells whether [_filter_poll_process] is
    set; the four clock readings are taken in this order.  A poll scheduled
    with [call_later(delay)] is due at [loop.time() + delay]. *)
Definition sanity_check (shutdown : bool) (answers : list (rpc string))
    (registered_at due_now schedule_now block_now : Q)
    (fs : filter_state) (poll_schedule : option Q) (poll_running : bool)
    (last_saw_new_block : Q)
  : filter_state * option Q * bool :=
  if shutdown then (fs, poll_schedule, false)
  else
    let fs1 :=
      match _new_pending_transaction_filter_id fs with
      | None =>
          (register_new_pending_transaction_filter shutdown answers
                                                   registered_at fs).1
      | Some _ => fs
      end in
    let schedule :=
      match poll_schedule with
      | None => Some (float_add schedule_now DEFAULT_POLL_DELAY)
      | Some when =>
          if poll_running then Some when
          else if negb (Qle_bool due_now when)
               then Some (float_add schedule_now DEFAULT_POLL_DELAY)
               else Some when
      end in
    let ok := negb (bool_decide (py_int (float_sub block_now last_saw_new_block)
                                 > NEW_BLOCK_TIMEOUT)) in
    (fs1, schedule, ok).

End MonitorExtra.

(** * The registration handlers (src/tokeneth/handlers.py) *)

(** Row of [notification_registrations]; the four columns are unique
    together (the conflict target of the inserts).  The monitor reads the
    column [eth_address]. *)
Record registration := {
  token_id : string;
  service : string;
  registration_id : string;
  eth_address : string
}.

#[global] Instance registration_eq_dec : EqDecision registration.
Proof. solve_decision. Defined.

(** The JSON body of the push-notification handlers. *)
Record pn_payload := {
  p_registration_id : option string;
  p_address : option string
}.

Inductive response :=
| NoContent       (* set_status(204) *)
| BadArguments    (* JSONHTTPError *)
| ServerError.    (* an exception of the database leaves the handler *)

(** [INSERT INTO notification_registrations ... ON CONFLICT (token_id,
    service, registration_id, eth_address) DO NOTHING] *)
Definition insert_registration (r : registration) (t : list registration)
  : list registration :=
  if bool_decide (r ∈ t) then t else t ++ [r].

Definition is_legacy (tid : string) (r : registration) : Prop :=
  token_id r = tid ∧ service r = "LEGACY" ∧ registration_id r = "LEGACY".

#[global] Instance is_legacy_dec tid r : Decision (is_legacy tid r).
Proof. unfold is_legacy. apply _. Defined.

Section Handlers.
Variable validate_address : string -> bool.

(** [PNRegistrationHandler.post], after [verify_request] gave [tid]. *)
Definition pn_register (tid svc : string) (payload : pn_payload)
    (t : list registration) : response * list registration :=
  match p_registration_id payload with
  | None => (BadArguments, t)
  | Some regid =>
      let legacy :=
        match p_address payload with
        | None => eth_address <$> filter (is_legacy tid) t
        | Some _ => []
        end in
      match legacy with
      | _ :: _ =>
          let t1 :=
            foldl (λ t a, insert_registration
                            {| token_id := tid; service := svc;
                               registration_id := regid; eth_address := a |} t)
                  t legacy in
          (NoContent, filter (λ r, ¬ is_legacy tid r) t1)
      | [] =>
          let address := default tid (p_address payload) in
          if negb (validate_address address) then (BadArguments, t)
          else
            let t1 :=
              insert_registration
                {| token_id := tid; service := svc;
                   registration_id := regid; eth_address := address |} t in
            if bool_decide (address ≠ tid)
            then (NoContent,
                  filter (λ r, ¬ (token_id r = address ∧ eth_address r = address
                                  ∧ service r = "apn")) t1)
            else (NoContent, t1)
      end
  end.

(** The statement of [PNDeregistrationHandler.post] with an address is the
    text [... AND registration_id = $3AND eth_address = $4], with no blank
    after [$3] (lines 203-204).  [splits_parameter] tells whether the database
    server reads [$3AND] as the parameter [$3] followed by [AND]; a server
    that does not (PostgreSQL 16 for one) answers with a syntax error, which
    leaves the handler as an exception, and the table is untouched. *)
Variable splits_parameter : bool.

(** [PNDeregistrationHandler.post] *)
Definition pn_deregister (tid svc : string) (payload : pn_payload)
    (t : list registration) : response * list registration :=
  match p_registration_id payload with
  | None => (BadArguments, t)
  | Some regid =>
      let address :=
        match p_address payload with
        | Some a => if bool_decide (a = "") then None else Some a
        | None => None
        end in
      match address with
      | Some a =>
          if negb (validate_address a) then (BadArguments, t)
          else if negb splits_parameter then (ServerError, t)
          else (NoContent,
                filter (λ r, ¬ (token_id r = tid ∧ service r = svc
                                ∧ registration_id r = regid
                                ∧ eth_address r = a)) t)
      | None =>
          (NoContent,
           filter (λ r, ¬ (token_id r = tid ∧ service r = svc
                           ∧ registration_id r = regid)) t)
      end
  end.

(** [LegacyRegistrationHandler.post]; [addresses] is the value of the key
    ['addresses'], if present. *)
Definition legacy_register (tid : string) (addresses : option (list string))
    (t : list registration) : response * list registration :=
  match addresses with
  | None | Some [] => (BadArguments, t)
  | Some addrs =>
      if negb (forallb validate_address addrs) then (BadArguments, t)
      else
        let rows :=
          filter (λ r, token_id r = tid ∧ eth_address r = tid ∧ service r ≠ "ws")
                 t in
        let '(regid, svc) :=
          match rows with
          | r0 :: _ => (registration_id r0, service r0)
          | [] => ("LEGACY", "LEGACY")
          end in
        (NoContent,
         foldl (λ t a, insert_registration
                         {| token_id := tid; service := svc;
                            registration_id := regid; eth_address := a |} t)
               t addrs)
  end.

(** [LegacyDeregistrationHandler.post] *)
Definition legacy_deregister (tid : string) (addresses : option (list string))
    (t : list registration) : response * list registration :=
  match addresses with
  | None | Some [] => (BadArguments, t)
  | Some addrs =>
      if negb (forallb validate_address addrs) then (BadArguments, t)
      else
        (NoContent,
         filter (λ r, ¬ (service r ≠ "ws" ∧ token_id r = tid
                         ∧ eth_address r ∈ addrs)) t)
  end.

End Handlers.

(** ** Instances of the imported functions used to run the model *)

Definition strict_int16 (s : string) : option Z :=
  if bool_decide (s ≠ "")
     && forallb (λ c, bool_decide (is_Some (HexString.ascii_to_digit c)))
                (String.list_ascii_of_string s)
  then Some (Z.of_N (HexString.Raw.to_N s 0))
  else None.

(** [hex] and [parse_int] on canonical hexadecimal quantities; [int16] on
    plain strings of hexadecimal digits.  The decoders read the last 40
    characters of a 32-byte word as an address. *)
Definition py_externals : Externals :=
  {| parse_int := HexString.to_Z;
     hex := HexString.of_Z;
     int16 := strict_int16;
     decode_address := λ s, "0x" +:+ String.substring (String.length s - 40) 40 s;
     decode_uint256 := HexString.to_Z;
     decode_transfer_data := λ s,
       ("0x" +:+ String.substring 26 40 s,
        "0x" +:+ String.substring 90 40 s,
        Z.of_N (HexString.Raw.to_N (String.substring 130 64 s) 0));
     get_transaction_log_index := λ l, HexString.to_Z (l_logIndex l);
     TRANSFER_TOPIC :=
       "0xddf252ad1be2c89b69c2b068fc378daa952ba7f163c4a11628f55a4df523b3ef";
     DEPOSIT_TOPIC :=
       "0xe1fffcc4923d04b559f4d29a8bfc6cda04eb5b0d3c460751c2402c5c5cc9109c";
     WITHDRAWAL_TOPIC :=
       "0x7fcf532c15f0a6db0bd6d0e038bea71d30d808c7d98cb3bf7268a95bf5081b65";
     WETH_CONTRACT_ADDRESS := "0xc02aaa39b223fe8d0a0e5c4f27ead9083c756cc2" |}.

(** ** Scenarios *)

Definition empty_db : db :=
  {| blocks := ∅; last_blocknumber := []; transactions := [];
     transactions_seq := 1; token_transactions := ∅;
     notification_registrations := []; token_registrations := [];
     tokens := []; filter_registrations := []; collectibles := [] |}.

Definition plain_block (n : Z) (h p : string) (txs : list transaction) : block :=
  {| b_number := HexString.of_Z n; b_hash := h; b_parentHash := p;
     b_logsBloom := EMPTY_BLOOM; b_timestamp := "0x5"; b_transactions := txs |}.

Definition plain_row (h p : string) : block_row :=
  {| timestamp := 5; hash := h; parent_hash := p; stale := false |}.

Definition quiet_node (blk : Z -> option block) : node :=
  {| eth_getBlockByNumber := λ n, RpcOk (blk n);
     bulk_execute := λ ns, RpcOk (blk <$> ns);
     eth_getLogs := λ _, RpcOk [];
     eth_getTransactionByHash := λ _, RpcOk None;
     wall_clock := 1700000000 |}.

(** Normal ingestion: the high-water mark is 100 and the node has block
    101 on top of the stored block 100, with one transaction of a
    registered sender. *)
Definition ingest_tx : transaction :=
  {| tx_hash := "0x71"; tx_from := "0xf1"; tx_to := Some "0xf2";
     tx_nonce := "0x7"; tx_blockNumber := Some "0x65"; tx_input := "";
     tx_value := "0x1"; tx_gas := "0x5208"; tx_gasPrice := "0x1";
     tx_logs := None |}.

Definition ingest_node : node :=
  quiet_node (λ n, if bool_decide (n = 101)
                   then Some (plain_block 101 "0xa101" "0xa100" [ingest_tx])
                   else None).

Definition ingest_monitor : monitor :=
  {| last_block_number := 100; _shutdown := false; unconfirmed_txs := ∅;
     database :=
       set_blocks (λ _, {[ 100 := plain_row "0xa100" "0xa099" ]})
         {| blocks := ∅; last_blocknumber := [100]; transactions := [];
            transactions_seq := 1; token_transactions := ∅;
            notification_registrations := ["0xf1"]; token_registrations := [];
            tokens := []; filter_registrations := []; collectibles := [] |} |}.

Definition ingest_result : iteration * monitor * list message :=
  block_check_iter (H := py_externals) ingest_node ingest_monitor.

(** A reorg the handler cannot resolve: block 6 does not build on the
    stored block 5 and the node agrees with no stored block. *)
Definition lost_node : node :=
  quiet_node (λ n, if bool_decide (n = 6)
                   then Some (plain_block 6 "0xcc" "0xbb" [])
                   else Some (plain_block n "0xbb" "0xb0" [])).

Definition lost_monitor : monitor :=
  {| last_block_number := 5; _shutdown := false; unconfirmed_txs := ∅;
     database := set_blocks (λ _, {[ 5 := plain_row "0xaa" "0x99" ]}) empty_db |}.

Definition lost_result : iteration * monitor * list message :=
  block_check_iter (H := py_externals) lost_node lost_monitor.

(** A gap: the high-water mark is 5, the store has block 3 only. *)
Definition gap_node : node :=
  quiet_node (λ n, Some (plain_block n "0xcc" "0xbb" [])).

Definition gap_monitor : monitor :=
  {| last_block_number := 5; _shutdown := false; unconfirmed_txs := ∅;
     database := set_blocks (λ _, {[ 3 := plain_row "0xa3" "0xa2" ]}) empty_db |}.

(** The reorg of the specification: the high-water mark is 500, the
    store holds the blocks 490 to 500 and the node agrees with it up to block
    495. *)
Definition old_hash (n : Z) : string :=
  "0xa" +:+ String.substring 2 16 (HexString.of_Z n).
Definition new_hash (n : Z) : string :=
  if bool_decide (n ≤ 495) then old_hash n
  else "0xb" +:+ String.substring 2 16 (HexString.of_Z n).

Definition reorg_node : node :=
  quiet_node (λ n, Some (plain_block n (new_hash n) (new_hash (n - 1)) [])).

Definition reorg_monitor : monitor :=
  {| last_block_number := 500; _shutdown := false; unconfirmed_txs := ∅;
     database :=
       set_collectibles
         (λ _, [ {| c_contract_address := "0xc1"; last_block := 500 |};
                 {| c_contract_address := "0xc2"; last_block := 100 |} ])
         (set_blocks
            (λ _, list_to_map ((λ n, (n, plain_row (old_hash n) (old_hash (n - 1))))
                               <$> seqZ 490 11))
            empty_db) |}.

(** An overwritten nonce: one stored row [(from = 0xf1, nonce = 7,
    hash = 0x0a, unconfirmed)] and a pending transaction of the same sender and
    nonce with hash [0x0b]; the sender is registered in
    [overwrite_db true] and nobody is in [overwrite_db false]. *)
Definition overwrite_old : transaction_row :=
  {| transaction_id := 1; t_hash := "0x0a"; from_address := "0xf1";
     to_address := "0xf2"; nonce := 7; value := "0x1"; gas := "0x5208";
     gas_price := "0x1"; data := ""; blocknumber := None;
     t_status := unconfirmed; v := Some "0x1c" |}.

Definition overwrite_tx : transaction :=
  {| tx_hash := "0x0b"; tx_from := "0xf1"; tx_to := Some "0xf2";
     tx_nonce := "0x7"; tx_blockNumber := None; tx_input := "";
     tx_value := "0x1"; tx_gas := "0x5208"; tx_gasPrice := "0x2";
     tx_logs := None |}.

Definition overwrite_db (registered : bool) : db :=
  {| blocks := ∅; last_blocknumber := []; transactions := [overwrite_old];
     transactions_seq := 2; token_transactions := ∅;
     notification_registrations := if registered then ["0xf1"] else [];
     token_registrations := [];
     tokens := []; filter_registrations := []; collectibles := [] |}.

Definition overwrite_result (registered : bool)
  : tx_result * db * list message :=
  process_transaction (H := py_externals) (overwrite_db registered)
                      overwrite_tx false.

(** An expired pending hash: first seen at 30, looked up at 100. *)
Definition expiry_monitor : monitor :=
  {| last_block_number := 100; _shutdown := false;
     unconfirmed_txs := {[ "0xdead" := 30 ]};
     database := overwrite_db true |}.

(** A pending [transferFrom(0x11.., 0x22.., 5)]. *)
Definition word (tail : string) : string :=
  py_mul "0" (64 - String.length tail) +:+ tail.

Definition transferFrom_input : string :=
  "0x23b872dd" +:+ word (py_mul "1" 40) +:+ word (py_mul "2" 40) +:+ word "5".

Definition transferFrom_tx (input : string) : transaction :=
  {| tx_hash := "0x0c"; tx_from := "0xf1"; tx_to := Some "0x70";
     tx_nonce := "0x8"; tx_blockNumber := None; tx_input := input;
     tx_value := "0x0"; tx_gas := "0x5208"; tx_gasPrice := "0x2";
     tx_logs := None |}.

(** Three tokens, the first one neither ready nor custom, and no token
    registration. *)
Definition tokens_monitor : monitor :=
  {| last_block_number := 100; _shutdown := false; unconfirmed_txs := ∅;
     database :=
       set_tokens
         (λ _, [ {| contract_address := "0x70"; ready := false; custom := false |};
                 {| contract_address := "0x71"; ready := true; custom := false |};
                 {| contract_address := "0x72"; ready := false; custom := true |} ])
         empty_db |}.

(** The monitor after the reorg handler has run on the reorg above. *)
Definition reorg_after : monitor :=
  match handle_reorg (H := py_externals) reorg_node reorg_monitor with
  | ReorgDone _ m' => m'
  | ReorgRaised => reorg_monitor
  end.

(** A run of the block-check loop on the ingestion scenario: block 101
    is stored, block 102 is not there yet. *)
Definition ingest_run : option (monitor * list message * list iteration) :=
  block_check (H := py_externals) 3 ingest_node ingest_monitor.

(** Block 101 again, while its transaction is already confirmed in block
    100. *)
Definition confirmed_row : transaction_row :=
  {| transaction_id := 1; t_hash := "0x71"; from_address := "0xf1";
     to_address := "0xf2"; nonce := 7; value := "0x1"; gas := "0x5208";
     gas_price := "0x1"; data := ""; blocknumber := Some 100;
     t_status := confirmed; v := Some "0x1c" |}.

Definition confirmed_db : db :=
  set_transactions (λ _, [confirmed_row])
    (set_transactions_seq 2 (database ingest_monitor)).

(** The overwritten nonce when the stored row is already in error. *)
Definition error_old : transaction_row :=
  {| transaction_id := 1; t_hash := "0x0a"; from_address := "0xf1";
     to_address := "0xf2"; nonce := 7; value := "0x1"; gas := "0x5208";
     gas_price := "0x1"; data := ""; blocknumber := None;
     t_status := error; v := Some "0x1c" |}.

Definition error_db : db :=
  set_transactions (λ _, [error_old]) (overwrite_db true).

(** A pending contract creation of a registered sender. *)
Definition creation_tx : transaction :=
  {| tx_hash := "0x0d"; tx_from := "0xf1"; tx_to := None;
     tx_nonce := "0x9"; tx_blockNumber := None; tx_input := "0x6060";
     tx_value := "0x0"; tx_gas := "0x5208"; tx_gasPrice := "0x2";
     tx_logs := None |}.

(** Two token transfers of one transaction, the second one between
    addresses nobody registered; the store already has a row for the first. *)
Definition transfer_db : db :=
  {| blocks := ∅; last_blocknumber := []; transactions := [overwrite_old];
     transactions_seq := 2;
     token_transactions :=
       {[ (1, 0) := {| tt_contract_address := "0x70";
                       tt_from_address := "0xf1"; tt_to_address := "0xf3";
                       tt_value := "0x1"; tt_status := unconfirmed |} ]};
     notification_registrations := []; token_registrations := ["0xf1"];
     tokens := []; filter_registrations := []; collectibles := [] |}.

Definition transfer_in : erc20_transfer :=
  {| e_contract_address := "0x71"; e_log_index := 0; e_from_address := "0xf1";
     e_to_address := "0xf2"; e_value := "0x5"; e_status := confirmed |}.

Definition transfer_out : erc20_transfer :=
  {| e_contract_address := "0x70"; e_log_index := 1; e_from_address := "0xe1";
     e_to_address := "0xe2"; e_value := "0x6"; e_status := confirmed |}.

(** The three tokens with two registered addresses. *)
Definition paged_monitor : monitor :=
  {| last_block_number := 100; _shutdown := false; unconfirmed_txs := ∅;
     database :=
       {| blocks := ∅; last_blocknumber := []; transactions := [];
          transactions_seq := 1; token_transactions := ∅;
          notification_registrations := [];
          token_registrations := ["0xf1"; "0xf2"];
          tokens := tokens (database tokens_monitor);
          filter_registrations := []; collectibles := [] |} |}.

(** A registered filter that last saw a pending transaction at 40, and a
    pending map with one hash first seen at 30. *)
Definition quiet_filter : filter_state :=
  {| _new_pending_transaction_filter_id := Some "0xf17e4";
     _last_saw_new_pending_transactions := 40 |}.

(** A registration table with a legacy row and an old [apn] row of the
    client ["0xf1"]. *)
Definition has_0x (a : string) : bool := String.prefix "0x" a.

Definition legacy_table : list registration :=
  [ {| token_id := "0xf1"; service := "LEGACY"; registration_id := "LEGACY";
       eth_address := "0xa1" |};
    {| token_id := "0xa1"; service := "apn"; registration_id := "r0";
       eth_address := "0xa1" |};
    {| token_id := "0xf2"; service := "gcm"; registration_id := "r2";
       eth_address := "0xf2" |} ].

Section Properties.
Context `{Externals}.

(** ** The block store *)

Lemma pick_higher_foldr (n : Z) (l : list Z) :
  match foldr (pick_higher n) None l with
  | Some k => k < n ∧ k ∈ l ∧ ∀ j, j ∈ l → j < n → j ≤ k
  | None => ∀ j, j ∈ l → ¬ j < n
  end.
Proof.
  induction l as [|a l IH]; simpl.
  - intros j Hj. by apply elem_of_nil in Hj.
  - unfold pick_higher at 1. case_bool_decide as Ha.
    + destruct (foldr (pick_higher n) None l) as [k|].
      * destruct IH as (Hk & Hin & Hmax). split; [lia|]. split.
        { destruct (Z.max_spec k a) as [[_ ->]|[_ ->]]; set_solver. }
        intros j Hj Hlt. apply elem_of_cons in Hj as [->|Hj]; [lia|].
        specialize (Hmax j Hj Hlt). lia.
      * split; [done|]. split; [set_solver|].
        intros j Hj Hlt. apply elem_of_cons in Hj as [->|Hj]; [lia|].
        by destruct (IH j Hj).
    + destruct (foldr (pick_higher n) None l) as [k|].
      * destruct IH as (Hk & Hin & Hmax). split; [done|]. split; [set_solver|].
        intros j Hj Hlt. apply elem_of_cons in Hj as [->|Hj]; [done|]. eauto.
      * intros j Hj. apply elem_of_cons in Hj as [->|Hj]; [done|]. eauto.
Qed.

Lemma elem_of_keys (b : gmap Z block_row) (k : Z) :
  k ∈ (map_to_list b).*1 ↔ is_Some (b !! k).
Proof.
  rewrite list_elem_of_fmap. split.
  - intros [[k' r] [-> Hin]]. apply elem_of_map_to_list in Hin. eauto.
  - intros [r Hr]. exists (k, r). split; [done|]. by apply elem_of_map_to_list.
Qed.

Lemma highest_block_below_Some (b : gmap Z block_row) (n k : Z) :
  highest_block_below b n = Some k →
  k < n ∧ is_Some (b !! k) ∧ ∀ j, is_Some (b !! j) → j < n → j ≤ k.
Proof.
  unfold highest_block_below. intros Hh.
  pose proof (pick_higher_foldr n (map_to_list b).*1) as Hspec.
  rewrite Hh in Hspec. destruct Hspec as (Hk & Hin & Hmax).
  split; [done|]. split; [by apply elem_of_keys|].
  intros j Hj. apply Hmax. by apply elem_of_keys.
Qed.

Lemma highest_block_below_None (b : gmap Z block_row) (n : Z) :
  highest_block_below b n = None → ∀ j, is_Some (b !! j) → ¬ j < n.
Proof.
  unfold highest_block_below. intros Hh j Hj.
  pose proof (pick_higher_foldr n (map_to_list b).*1) as Hspec.
  rewrite Hh in Hspec. apply Hspec. by apply elem_of_keys.
Qed.

Lemma select_blocks_desc_elem (b : gmap Z block_row) (limit : nat) (n k : Z)
    (r : block_row) :
  (k, r) ∈ select_blocks_desc b n limit → k ≤ n ∧ b !! k = Some r.
Proof.
  revert n. induction limit as [|limit IH]; intros n; simpl.
  - intros Hin. by apply elem_of_nil in Hin.
  - destruct (highest_block_below b (n + 1)) as [k'|] eqn:Hh;
      [|intros Hin; by apply elem_of_nil in Hin].
    apply highest_block_below_Some in Hh as (Hlt & _ & _).
    destruct (b !! k') as [row|] eqn:Hrow;
      [|intros Hin; by apply elem_of_nil in Hin].
    intros Hin. apply elem_of_cons in Hin as [Heq|Hin].
    + inversion Heq; subst. split; [lia|done].
    + apply IH in Hin as [Hle Hlk]. split; [lia|done].
Qed.

Lemma lookup_mark_stale_above (f k : Z) (b : gmap Z block_row) :
  mark_stale_above f b !! k
  = (λ r, if bool_decide (f < k) then mark_stale r else r) <$> b !! k.
Proof.
  unfold mark_stale_above. rewrite map_lookup_imap.
  by destruct (b !! k).
Qed.

(** ** The reorg handler *)

Lemma skip_out_of_order_elem (number : Z) (db_results : list (Z * block_row))
    (acc : option (Z * block_row)) (rest : list (Z * block_row))
    (r : Z * block_row) :
  skip_out_of_order number db_results acc = (rest, Some r) →
  (acc = Some r ∨ r ∈ db_results) ∧ (∀ x, x ∈ rest → x ∈ db_results).
Proof.
  revert acc. induction db_results as [|a l IH]; intros acc; simpl.
  - intros [= <- ->]. split; [by left|done].
  - case_bool_decide.
    + intros Hs. apply IH in Hs as [Hor Hsub]. split.
      * right. destruct Hor as [[= ->]|Hin]; [apply list_elem_of_here|].
        by apply list_elem_of_further.
      * intros x Hx. apply list_elem_of_further. by apply Hsub.
    + intros [= <- <-]. split; [right; apply list_elem_of_here|done].
Qed.

Lemma compare_batch_fork (node_results : list (option block))
    (db_results : list (Z * block_row)) (f : Z) :
  compare_batch node_results db_results = ScanFork f →
  ∃ r, (f, r) ∈ db_results.
Proof.
  revert db_results.
  induction node_results as [|nb node_rest IH]; intros db_results; simpl; [done|].
  destruct db_results as [|r0 l0] eqn:Hdb; [done|]. rewrite <- Hdb. clear Hdb.
  destruct nb as [nb|]; [|done].
  destruct (skip_out_of_order _ db_results None) as [rest [db_block|]] eqn:Hs;
    [|done].
  apply skip_out_of_order_elem in Hs as [[?|Hin] Hsub]; [done|].
  case_bool_decide.
  - intros [= <-]. exists db_block.2. by destruct db_block.
  - intros Hc. apply IH in Hc as [r Hr]. exists r. apply Hsub.
    destruct rest; [by apply elem_of_nil in Hr|]. simpl in Hr. set_solver.
Qed.

(** A fork point is a stored block at or below the block the search
    started from. *)
Lemma find_fork_found (fuel : nat) (nd : node) (b : gmap Z block_row)
    (last blocknumber f : Z) :
  find_fork fuel nd b last blocknumber = ForkFound f →
  f ≤ blocknumber ∧ is_Some (b !! f).
Proof.
  revert blocknumber. induction fuel as [|fuel IH]; intros blocknumber;
    cbn [find_fork]; [done|].
  destruct (bulk_execute nd _) as [node_results|]; [|done].
  destruct (compare_batch node_results _) as [|f'|] eqn:Hc; [done| |].
  - intros [= ->]. apply compare_batch_fork in Hc as [r Hr].
    apply select_blocks_desc_elem in Hr as [Hle Hlk]. eauto.
  - case_bool_decide; [done|]. intros Hf. apply IH in Hf as [Hle Hs].
    unfold BLOCKS_PER_ITERATION in Hle. split; [lia|done].
Qed.

(** The search stops by itself: [REORG_FUEL] batches are never used up. *)
Lemma find_fork_fuel (fuel : nat) (nd : node) (b : gmap Z block_row)
    (last blocknumber : Z) :
  last - blocknumber ≤ 1000 →
  1010 < last - blocknumber + 10 * Z.of_nat fuel →
  find_fork fuel nd b last blocknumber ≠ ForkOutOfFuel.
Proof.
  revert blocknumber. induction fuel as [|fuel IH]; intros blocknumber Hd Hf;
    cbn [find_fork]; [lia|].
  destruct (bulk_execute nd _) as [node_results|]; [|done].
  destruct (compare_batch node_results _); [done|done|].
  case_bool_decide as Hstop; [done|].
  apply IH; unfold BLOCKS_PER_ITERATION in *; lia.
Qed.

Lemma handle_reorg_terminates (nd : node) (m : monitor) :
  find_fork REORG_FUEL nd (blocks (database m)) (last_block_number m)
            (last_block_number m) ≠ ForkOutOfFuel.
Proof. apply find_fork_fuel; unfold REORG_FUEL; lia. Qed.

Lemma handle_reorg_success (nd : node) (m m' : monitor) :
  handle_reorg nd m = ReorgDone true m' →
  ∃ f, find_fork REORG_FUEL nd (blocks (database m)) (last_block_number m)
                 (last_block_number m) = ForkFound f
       ∧ f ≤ last_block_number m
       ∧ last_block_number m' = f
       ∧ blocks (database m') = mark_stale_above f (blocks (database m)).
Proof.
  unfold handle_reorg.
  destruct (find_fork _ _ _ _ _) as [f| | |] eqn:Hf; try done.
  intros [= <-]. exists f. split; [done|].
  apply find_fork_found in Hf as [Hle _]. done.
Qed.

Lemma handle_reorg_failure (nd : node) (m m' : monitor) :
  handle_reorg nd m = ReorgDone false m' → m' = m.
Proof.
  unfold handle_reorg. destruct (find_fork _ _ _ _ _); try done. by intros [= <-].
Qed.

Lemma clamp_collectible_le (n : Z) (c : collectible_row) :
  last_block (clamp_collectible n c) ≤ n
  ∧ (last_block c ≤ n → clamp_collectible n c = c)
  ∧ (n < last_block c → last_block (clamp_collectible n c) = n)
  ∧ c_contract_address (clamp_collectible n c) = c_contract_address c.
Proof. unfold clamp_collectible. case_bool_decide; simpl; repeat split; lia. Qed.

(** C5. When the reorg handler finds the fork point [f], it returns
    success with the high-water mark [last_block_number] set to [f]; every
    stored block above [f] is stale and keeps its hash, parent hash and
    timestamp, the rows up to [f] are kept as they were and no row is added
    or removed; every collectibles row whose [last_block] exceeded [f - 1]
    has [last_block = f - 1] and its contract address, and the other
    collectibles rows are kept as they were, at their places.  With the
    high-water mark at 500 and the fork at 495 the blocks 496 to 500 are
    stale, every [last_block] above 494 is 494 and the high-water mark is
    495. *)
Theorem handle_reorg_fork (nd : node) (m : monitor) (f : Z) :
  find_fork REORG_FUEL nd (blocks (database m)) (last_block_number m)
            (last_block_number m) = ForkFound f →
  ∃ m', handle_reorg nd m = ReorgDone true m'
    ∧ last_block_number m' = f
    ∧ (∀ k r, blocks (database m) !! k = Some r → f < k →
         blocks (database m') !! k = Some (mark_stale r)
         ∧ stale (mark_stale r) = true
         ∧ hash (mark_stale r) = hash r
         ∧ parent_hash (mark_stale r) = parent_hash r
         ∧ timestamp (mark_stale r) = timestamp r)
    ∧ (∀ k, k ≤ f → blocks (database m') !! k = blocks (database m) !! k)
    ∧ (∀ k, is_Some (blocks (database m') !! k)
            ↔ is_Some (blocks (database m) !! k))
    ∧ collectibles (database m')
      = clamp_collectible (f - 1) <$> collectibles (database m)
    ∧ length (collectibles (database m')) = length (collectibles (database m))
    ∧ (∀ i c, collectibles (database m) !! i = Some c →
         ∃ c', collectibles (database m') !! i = Some c'
           ∧ c_contract_address c' = c_contract_address c
           ∧ (f - 1 < last_block c → last_block c' = f - 1)
           ∧ (last_block c ≤ f - 1 → c' = c))
    ∧ (∀ c, c ∈ collectibles (database m') → last_block c ≤ f - 1)
    ∧ (last_block_number m = 500 → f = 495 →
       last_block_number m' = 495
       ∧ (∀ k r, 496 ≤ k ≤ 500 → blocks (database m') !! k = Some r →
            stale r = true)
       ∧ (∀ c, c ∈ collectibles (database m') → last_block c ≤ 494)
       ∧ (∀ i c, collectibles (database m) !! i = Some c → 494 < last_block c →
            collectibles (database m') !! i
            = Some {| c_contract_address := c_contract_address c;
                      last_block := 494 |})).
Proof.
  intros Hf. unfold handle_reorg. rewrite Hf. eexists. split; [done|]. simpl.
  assert (Hlk : ∀ k, mark_stale_above f (blocks (database m)) !! k
                = (λ r, if bool_decide (f < k) then mark_stale r else r)
                    <$> blocks (database m) !! k)
    by (intros k; apply lookup_mark_stale_above).
  assert (Hcl : ∀ c, c ∈ clamp_collectible (f - 1) <$> collectibles (database m)
                → last_block c ≤ f - 1).
  { intros c Hc. apply list_elem_of_fmap in Hc as [c0 [-> _]].
    apply clamp_collectible_le. }
  assert (Hrow : ∀ i c, collectibles (database m) !! i = Some c →
            ∃ c', (clamp_collectible (f - 1) <$> collectibles (database m)) !! i
                  = Some c'
              ∧ c_contract_address c' = c_contract_address c
              ∧ (f - 1 < last_block c → last_block c' = f - 1)
              ∧ (last_block c ≤ f - 1 → c' = c)).
  { intros i c Hc. exists (clamp_collectible (f - 1) c).
    rewrite list_lookup_fmap, Hc. split; [done|].
    unfold clamp_collectible. case_bool_decide; simpl.
    - split; [done|]. split; [done|]. lia.
    - split; [done|]. split; [lia|done]. }
  split; [done|]. split.
  { intros k r Hr Hk. rewrite Hlk, Hr. simpl. by rewrite bool_decide_eq_true_2. }
  split.
  { intros k Hk. rewrite Hlk. destruct (blocks (database m) !! k); [|done].
    simpl. by rewrite bool_decide_eq_false_2 by lia. }
  split.
  { intros k. rewrite Hlk. by rewrite fmap_is_Some. }
  split; [done|]. split; [apply length_fmap|]. split; [exact Hrow|].
  split; [done|].
  intros Hlast ->. split; [done|]. split; [|split].
  - intros k r Hk. rewrite Hlk.
    destruct (blocks (database m) !! k); [|done]. simpl.
    rewrite bool_decide_eq_true_2 by lia. by intros [= <-].
  - intros c Hc. apply Hcl in Hc. lia.
  - intros i c Hc Hlt. destruct (Hrow i c Hc) as (c' & Hc' & Haddr & Hclamp & _).
    rewrite Hc'. f_equal. destruct c' as [addr' lb'].
    simpl in Haddr, Hclamp. rewrite Haddr, Hclamp by lia. done.
Qed.

(** ** What the classifier leaves untouched *)

Lemma store_transfers_frame (d : db) (id : Z) (ts : list erc20_transfer) :
  blocks (store_transfers d id ts) = blocks d
  ∧ transactions (store_transfers d id ts) = transactions d
  ∧ transactions_seq (store_transfers d id ts) = transactions_seq d.
Proof.
  unfold store_transfers. revert d.
  induction ts as [|e ts IH]; intros d; simpl; [done|].
  destruct (transfer_interest d e); [|apply IH].
  destruct (IH (set_token_transactions (upsert_token_transaction id e) d))
    as (-> & -> & ->). done.
Qed.

Lemma store_transfers_blocks (d : db) (id : Z) (ts : list erc20_transfer) :
  blocks (store_transfers d id ts) = blocks d.
Proof. apply store_transfers_frame. Qed.

Lemma store_transfers_transactions (d : db) (id : Z) (ts : list erc20_transfer) :
  transactions (store_transfers d id ts) = transactions d.
Proof. apply store_transfers_frame. Qed.

Lemma process_transaction_blocks (d d' : db) (tx : transaction) (is_reorg : bool)
    (r : tx_result) (sent : list message) :
  process_transaction d tx is_reorg = (r, d', sent) → blocks d' = blocks d.
Proof.
  unfold process_transaction, insert_transaction. intros Hp.
  repeat case_match; simplify_eq; simpl; try done;
    by rewrite store_transfers_blocks.
Qed.

Lemma process_transactions_blocks (txs : list transaction) (d d' : db)
    (is_reorg raised : bool) (sent : list message) :
  process_transactions d txs is_reorg = (raised, d', sent) → blocks d' = blocks d.
Proof.
  revert d raised sent. induction txs as [|tx txs IH]; intros d raised sent; simpl.
  - by intros [= _ <- _].
  - destruct (process_transaction d tx is_reorg) as [[r d1] sent1] eqn:Hp.
    destruct (process_transactions d1 txs is_reorg) as [[raised2 d2] sent2] eqn:Hps.
    intros [= _ <- _]. apply IH in Hps as ->.
    by apply process_transaction_blocks in Hp.
Qed.

(** ** One iteration of the block-check loop *)

Lemma ingest_block_cases (nd : node) (m m' : monitor) (blk : block)
    (reorg_failed : bool) (sent out : list message) (it : iteration) :
  ingest_block nd m blk reorg_failed sent = (it, m', out) →
  ((it = IterBreak ∨ it = IterRaised)
   ∧ last_block_number m' = last_block_number m
   ∧ blocks (database m') = blocks (database m))
  ∨ (it = IterPersisted reorg_failed
     ∧ last_block_number m'
       = Z.max (last_block_number m) (parse_int (b_number blk))
     ∧ ∃ ts, blocks (database m')
             = upsert_block (parse_int (b_number blk)) ts (b_hash blk)
                            (b_parentHash blk) (blocks (database m))).
Proof.
  unfold ingest_block.
  destruct (if bool_decide (b_logsBloom blk ≠ EMPTY_BLOOM) then _ else _)
    as [logs_list|].
  - destruct (process_transactions _ _ _) as [[raised d1] sent1] eqn:Hp.
    apply process_transactions_blocks in Hp.
    destruct raised.
    + intros [= <- <- _]. left. simpl. split; [by right|]. by split.
    + intros [= <- <- _]. right. split; [done|]. split.
      * destruct (decide (last_block_number m < parse_int (b_number blk)))
          as [Hlt|Hlt].
        -- rewrite (bool_decide_eq_true_2 _ Hlt), Z.max_r by lia. done.
        -- rewrite (bool_decide_eq_false_2 _ Hlt), Z.max_l by lia. done.
      * eexists. simpl. by rewrite Hp.
  - intros [= <- <- _]. left. eauto.
Qed.

Inductive iteration_case (nd : node) (m m' : monitor) : iteration → Prop :=
| case_break (it : iteration) :
    it = IterBreak ∨ it = IterRaised →
    last_block_number m' = last_block_number m →
    blocks (database m') = blocks (database m) →
    iteration_case nd m m' it
| case_gap (n : Z) :
    blocks (database m) !! last_block_number m = None →
    highest_block_below (blocks (database m)) (last_block_number m) = Some n →
    m' = set_last_block_number n m →
    iteration_case nd m m' IterGap
| case_reorg :
    handle_reorg nd m = ReorgDone true m' →
    iteration_case nd m m' IterReorg
| case_persisted (reorg_failed : bool) (blk : block) (ts : Z) :
    eth_getBlockByNumber nd (last_block_number m + 1) = RpcOk (Some blk) →
    last_block_number m'
    = Z.max (last_block_number m) (parse_int (b_number blk)) →
    blocks (database m')
    = upsert_block (parse_int (b_number blk)) ts (b_hash blk) (b_parentHash blk)
                   (blocks (database m)) →
    (if reorg_failed then handle_reorg nd m = ReorgDone false m
     else ∀ r, blocks (database m) !! last_block_number m = Some r →
               hash r = b_parentHash blk) →
    iteration_case nd m m' (IterPersisted reorg_failed).

Lemma block_check_iter_cases (nd : node) (m m' : monitor) (it : iteration)
    (sent : list message) :
  block_check_iter nd m = (it, m', sent) → iteration_case nd m m' it.
Proof.
  unfold block_check_iter.
  destruct (eth_getBlockByNumber nd _) as [[blk|]|] eqn:Hblk;
    try (intros [= <- <- _]; apply case_break; eauto; fail).
  assert (Hingest : ∀ (rf : bool) sent0,
    (if rf then handle_reorg nd m = ReorgDone false m
     else ∀ r, blocks (database m) !! last_block_number m = Some r →
               hash r = b_parentHash blk) →
    ingest_block nd m blk rf sent0 = (it, m', sent) → iteration_case nd m m' it).
  { intros rf sent0 Hrf Hi.
    apply ingest_block_cases in Hi as [(Hit & Hl & Hb)|(-> & Hl & ts & Hb)].
    - by apply case_break.
    - by eapply case_persisted. }
  destruct (blocks (database m) !! last_block_number m) as [row|] eqn:Hrow.
  - case_bool_decide as Hhash.
    + destruct (handle_reorg nd m) as [[|] m1|] eqn:Hr.
      * intros [= <- <- _]. by apply case_reorg.
      * pose proof (handle_reorg_failure _ _ _ Hr) as ->.
        by apply (Hingest true).
      * intros [= <- <- _]. apply case_break; eauto.
    + apply (Hingest false). intros r [= <-].
      destruct (decide (hash row = b_parentHash blk)); [done|by destruct Hhash].
  - destruct (highest_block_below _ _) as [n|] eqn:Hh.
    + case_bool_decide.
      * intros [= <- <- _]. by eapply case_gap.
      * by apply (Hingest false).
    + by apply (Hingest false).
Qed.

(** C3 (amended).  Over one iteration of the block-check loop the
    high-water mark [last_block_number] decreases only in two ways: the
    rewind of the reorg handler, after which it is at most its previous
    value, and the gap rewind of the loop itself (no row is stored at the
    high-water mark and a lower row exists), after which it is strictly
    below.  An iteration that stores the block never lowers it, and an
    iteration that breaks or raises leaves it unchanged. *)
Theorem block_check_iter_high_water (nd : node) (m m' : monitor)
    (it : iteration) (sent : list message) :
  block_check_iter nd m = (it, m', sent) →
  match it with
  | IterPersisted _ => last_block_number m ≤ last_block_number m'
  | IterReorg =>
      handle_reorg nd m = ReorgDone true m'
      ∧ last_block_number m' ≤ last_block_number m
  | IterGap =>
      blocks (database m) !! last_block_number m = None
      ∧ highest_block_below (blocks (database m)) (last_block_number m)
        = Some (last_block_number m')
      ∧ last_block_number m' < last_block_number m
  | IterBreak | IterRaised => last_block_number m' = last_block_number m
  end.
Proof.
  intros Hi. apply block_check_iter_cases in Hi.
  destruct Hi as [it [-> | ->] Hl Hb|n Hrow Hh ->|Hr|rf blk ts Hblk Hl Hb Hrf];
    try done.
  - simpl. split; [done|]. split; [done|].
    by apply highest_block_below_Some in Hh as (? & _).
  - split; [done|].
    apply handle_reorg_success in Hr as (f & _ & Hle & -> & _). done.
  - lia.
Qed.

Lemma upsert_block_lookup (n k ts : Z) (h p : string) (b : gmap Z block_row) :
  upsert_block n ts h p b !! k
  = if bool_decide (k = n)
    then Some {| timestamp := ts; hash := h; parent_hash := p; stale := false |}
    else b !! k.
Proof.
  unfold upsert_block. case_bool_decide as Hk.
  - subst. apply lookup_insert_eq.
  - by apply lookup_insert_ne.
Qed.

(** C1 (amended).  Take a store in which consecutive non-stale rows are
    linked by their hashes and every row above the high-water mark is stale,
    and a node that answers a request for block [n] with a block numbered
    [n].  After every completed iteration of the block-check loop, except
    one in which the reorg handler failed to find the fork point and the
    block was stored all the same, both properties hold again: for any two
    rows [n] and [n + 1] with [stale = false], the [parent_hash] of row
    [n + 1] is the [hash] of row [n]. *)
Theorem block_check_iter_chain (nd : node) (m m' : monitor) (it : iteration)
    (sent : list message) :
  block_check_iter nd m = (it, m', sent) →
  node_numbers nd →
  chain_consistent (blocks (database m)) →
  stale_above (blocks (database m)) (last_block_number m) →
  it ≠ IterPersisted true →
  chain_consistent (blocks (database m'))
  ∧ stale_above (blocks (database m')) (last_block_number m').
Proof.
  intros Hi Hnode Hchain Hstale Hnofail. apply block_check_iter_cases in Hi.
  destruct Hi as [it _ Hl Hb|n Hrow Hh ->|Hr|rf blk ts Hblk Hl Hb Hrf].
  - rewrite Hl, Hb. done.
  - split; [done|]. simpl. intros k r Hk Hlt.
    apply highest_block_below_Some in Hh as (Hn & _ & Hmax).
    destruct (decide (last_block_number m < k)) as [Hgt|Hle].
    + by eapply Hstale.
    + destruct (decide (k = last_block_number m)) as [->|Hne]; [congruence|].
      assert (k ≤ n) by (apply Hmax; [eauto|lia]). lia.
  - apply handle_reorg_success in Hr as (f & _ & Hle & -> & ->). split.
    + intros n r r'. rewrite !lookup_mark_stale_above.
      destruct (blocks (database m) !! n) as [r0|] eqn:H0; [|done].
      destruct (blocks (database m) !! (n + 1)) as [r1|] eqn:H1; [|done].
      simpl. intros [= <-] [= <-].
      repeat case_bool_decide; simpl; try done. by eapply Hchain.
    + intros k r. rewrite lookup_mark_stale_above.
      destruct (blocks (database m) !! k) as [r0|]; [|done]. simpl.
      intros [= <-] Hk. by rewrite bool_decide_eq_true_2.
  - destruct rf; [done|]. apply Hnode in Hblk as Hnum.
    rewrite Hnum in Hl, Hb. rewrite Hl, Hb.
    replace (Z.max (last_block_number m) (last_block_number m + 1))
      with (last_block_number m + 1) by lia.
    split.
    + intros n r r'. rewrite !upsert_block_lookup.
      case_bool_decide as Hn; case_bool_decide as Hn1; try lia.
      * intros _ Hr' _ Hs'.
        assert (stale r' = true) by (eapply Hstale; [done|lia]). congruence.
      * intros Hr [= <-] _ _. simpl. assert (n = last_block_number m) as -> by lia.
        symmetry. by apply Hrf.
      * apply Hchain.
    + intros k r. rewrite upsert_block_lookup. case_bool_decide; [lia|].
      intros Hk Hlt. eapply Hstale; [done|lia].
Qed.

(** ** The pending-transaction processor *)

Lemma expired_spec (now : Q) (created : Z) :
  expired now created = true ↔ (60 <= now - inject_Z created)%Q.
Proof. unfold expired. apply Qle_bool_iff. Qed.

(** C7. When the node returns null for a hash of the pending map, the
    entry is removed if its age is at least 60 seconds and left in place
    otherwise; in both cases the database is unchanged and no message is
    dispatched. *)
Theorem process_unconfirmed_entry_null (now : Q) (h : string) (created : Z)
    (m m' : monitor) (r : entry_result) (sent : list message) :
  process_unconfirmed_entry now (RpcOk None) h created m = (r, m', sent) →
  r = EntryDone ∧ sent = [] ∧ database m' = database m
  ∧ last_block_number m' = last_block_number m
  ∧ ((60 <= now - inject_Z created)%Q →
       unconfirmed_txs m' = delete h (unconfirmed_txs m)
       ∧ unconfirmed_txs m' !! h = None)
  ∧ (¬ (60 <= now - inject_Z created)%Q → m' = m).
Proof.
  unfold process_unconfirmed_entry.
  destruct (expired now created) eqn:He; intros [= <- <- <-];
    (do 4 (split; [done|])); split.
  - intros _. split; [done|]. simpl. apply lookup_delete_eq.
  - intros Hage. apply expired_spec in He. done.
  - intros Hage. apply expired_spec in Hage. congruence.
  - done.
Qed.

(** C10. A transient RPC error of [eth_getTransactionByHash] is handled
    as a null answer: the entry is processed exactly as if the node had
    returned null, so an entry whose age is at least 60 seconds is evicted
    from the pending map although the node was never queried with success. *)
Theorem process_unconfirmed_entry_error (now : Q) (h : string) (created : Z)
    (m : monitor) :
  process_unconfirmed_entry now RpcError h created m
  = process_unconfirmed_entry now (RpcOk None) h created m
  ∧ ((60 <= now - inject_Z created)%Q →
     process_unconfirmed_entry now RpcError h created m
     = (EntryDone, set_unconfirmed_txs (delete h) m, [])
     ∧ unconfirmed_txs (set_unconfirmed_txs (delete h) m) !! h = None).
Proof.
  split; [done|]. intros Hage. apply expired_spec in Hage.
  unfold process_unconfirmed_entry. rewrite Hage. split; [done|].
  simpl. apply lookup_delete_eq.
Qed.

(** ** The token step of the filter poll *)

Lemma py_range_zero (step : nat) : (0 < step)%nat → py_range 0 step = [].
Proof.
  intros Hs. unfold py_range.
  replace ((0 + step - 1) / step)%nat with 0%nat; [done|].
  symmetry. apply Nat.div_small. lia.
Qed.

(** C9. With tokens that are neither ready nor custom and an empty
    [token_registrations] table, the filter poll sends no
    [update_token_cache] message (it sends nothing) and still sets
    [ready = true] on every such token. *)
Theorem filter_poll_tokens_no_registrations (m m' : monitor)
    (sent : list message) :
  _shutdown m = false →
  token_registrations (database m) = [] →
  filter_poll_tokens m = (m', sent) →
  sent = []
  ∧ length (tokens (database m')) = length (tokens (database m))
  ∧ ∀ i t, tokens (database m) !! i = Some t → unready t →
      ∃ t', tokens (database m') !! i = Some t'
            ∧ contract_address t' = contract_address t
            ∧ custom t' = custom t
            ∧ ready t' = true.
Proof.
  intros Hsh Hreg. unfold filter_poll_tokens. rewrite Hsh, Hreg.
  destruct (filter _ (tokens (database m))) as [|t0 rows] eqn:Hrows.
  - intros [= <- <-]. split; [done|]. split; [done|].
    intros i t Hi Hun. exfalso.
    assert (Hin : t ∈ filter (λ t, ready t = false ∧ custom t = false)
                         (tokens (database m))).
    { apply list_elem_of_filter. split; [done|]. by eapply list_elem_of_lookup_2. }
    rewrite Hrows in Hin. by apply elem_of_nil in Hin.
  - rewrite <- Hrows. clear Hrows. simpl length.
    rewrite py_range_zero by lia. intros [= <- <-].
    split; [done|]. simpl. split; [by rewrite length_fmap|].
    intros i t Hi Hun. rewrite list_lookup_fmap, Hi. simpl.
    rewrite bool_decide_eq_true_2.
    + by eexists.
    + apply list_elem_of_fmap. exists t. split; [done|].
      apply list_elem_of_filter. split; [done|]. by eapply list_elem_of_lookup_2.
Qed.

(** ** The guess from the input of a pending transaction *)

Lemma startswith_transferFrom (data : string) :
  startswith data "0x23b872dd" = true →
  data ≠ ""
  ∧ startswith data "0xa9059cbb" = false
  ∧ data ≠ "0xd0e30db0"
  ∧ startswith data "0x2e1a7d4d" = false.
Proof.
  unfold startswith. intros Hp.
  destruct data as [|c0 data]; [discriminate Hp|]. cbn [String.prefix] in Hp.
  destruct (Ascii.ascii_dec _ c0) as [<-|]; [|discriminate Hp].
  destruct data as [|c1 data]; [discriminate Hp|]. cbn [String.prefix] in Hp.
  destruct (Ascii.ascii_dec _ c1) as [<-|]; [|discriminate Hp].
  destruct data as [|c2 data]; [discriminate Hp|]. cbn [String.prefix] in Hp.
  destruct (Ascii.ascii_dec _ c2) as [<-|]; [|discriminate Hp].
  destruct data as [|c3 data]; [discriminate Hp|]. cbn [String.prefix] in Hp.
  destruct (Ascii.ascii_dec _ c3) as [<-|]; [|discriminate Hp].
  split; [discriminate|]. split; [reflexivity|]. split; [discriminate|reflexivity].
Qed.

(** C8. The input of a pending transaction is read as an ERC-20
    [transferFrom] only when it starts with [0x23b872dd] and is exactly 202
    characters long: the one entry then has [from = 0x + input[34:74]],
    [to = 0x + input[98:138]], the value [hex(int(input[-64:], 16))], log
    index 0 and status [unconfirmed].  An input with that prefix and any
    other length, in particular a shorter one, gives no token-transfer
    entry; an input of 202 characters without the prefix gives none either;
    and every entry that comes from an input without the prefix is the
    reading of a [transfer] of 138 characters (sender of the transaction,
    [to = 0x + input[34:74]]), of the WETH deposit [0xd0e30db0] or of a WETH
    withdrawal of 74 characters. *)
Theorem pending_transfers_transferFrom (tx : transaction)
    (to_addr from_addr : string) :
  (startswith (tx_input tx) "0x23b872dd" = true →
   String.length (tx_input tx) = 202%nat →
   pending_transfers tx to_addr from_addr
   = match int16 (last_chars (tx_input tx) 64) with
     | None => None
     | Some n =>
         Some [ {| e_contract_address := to_addr;
                   e_log_index := 0;
                   e_from_address := "0x" +:+ slice (tx_input tx) 34 74;
                   e_to_address := "0x" +:+ slice (tx_input tx) 98 138;
                   e_value := hex n;
                   e_status := unconfirmed |} ]
     end)
  ∧ (startswith (tx_input tx) "0x23b872dd" = true →
     String.length (tx_input tx) ≠ 202%nat →
     pending_transfers tx to_addr from_addr = Some [])
  ∧ (startswith (tx_input tx) "0x23b872dd" = false →
     String.length (tx_input tx) = 202%nat →
     pending_transfers tx to_addr from_addr = Some [])
  ∧ (startswith (tx_input tx) "0x23b872dd" = false →
     ∀ ts e, pending_transfers tx to_addr from_addr = Some ts → e ∈ ts →
       (startswith (tx_input tx) "0xa9059cbb" = true
        ∧ String.length (tx_input tx) = 138%nat
        ∧ e_contract_address e = to_addr
        ∧ e_from_address e = from_addr
        ∧ e_to_address e = "0x" +:+ slice (tx_input tx) 34 74)
       ∨ (tx_input tx = "0xd0e30db0"
          ∧ e_contract_address e = WETH_CONTRACT_ADDRESS
          ∧ e_from_address e = ZERO_ADDRESS
          ∧ e_to_address e = tx_from tx)
       ∨ (startswith (tx_input tx) "0x2e1a7d4d" = true
          ∧ String.length (tx_input tx) = 74%nat
          ∧ e_contract_address e = WETH_CONTRACT_ADDRESS
          ∧ e_from_address e = tx_from tx
          ∧ e_to_address e = ZERO_ADDRESS)).
Proof.
  assert (Hwith : startswith (tx_input tx) "0x23b872dd" = true →
            pending_transfers tx to_addr from_addr
            = if bool_decide (String.length (tx_input tx) = 202%nat)
              then match int16 (last_chars (tx_input tx) 64) with
                   | None => None
                   | Some n =>
                       Some [ {| e_contract_address := to_addr;
                                 e_log_index := 0;
                                 e_from_address :=
                                   "0x" +:+ slice (tx_input tx) 34 74;
                                 e_to_address :=
                                   "0x" +:+ slice (tx_input tx) 98 138;
                                 e_value := hex n;
                                 e_status := unconfirmed |} ]
                   end
              else Some []).
  { intros Hp.
    pose proof (startswith_transferFrom _ Hp) as (Hne & Ha9 & Hd0 & H2e).
    unfold pending_transfers.
    rewrite (bool_decide_eq_false_2 _ Hne), Ha9, Hp, H2e.
    rewrite (bool_decide_eq_false_2 _ Hd0). simpl. by case_bool_decide. }
  split; [|split; [|split]].
  - intros Hp Hlen. by rewrite (Hwith Hp), (bool_decide_eq_true_2 _ Hlen).
  - intros Hp Hlen. by rewrite (Hwith Hp), (bool_decide_eq_false_2 _ Hlen).
  - intros Hp Hlen. unfold pending_transfers. rewrite Hp, Hlen. simpl.
    destruct (bool_decide (tx_input tx = "")); [done|].
    rewrite !andb_false_r. simpl.
    destruct (decide (tx_input tx = "0xd0e30db0")) as [Hdep|Hdep].
    + rewrite Hdep in Hlen. discriminate Hlen.
    + by rewrite (bool_decide_eq_false_2 _ Hdep).
  - intros Hp ts e. unfold pending_transfers. rewrite Hp. cbn [andb orb].
    rewrite orb_false_r.
    destruct (decide (tx_input tx = "")) as [Hempty|Hempty];
      rewrite ?(bool_decide_eq_true_2 _ Hempty),
              ?(bool_decide_eq_false_2 _ Hempty).
    { intros [= <-] Hin. by apply elem_of_nil in Hin. }
    destruct (startswith (tx_input tx) "0xa9059cbb") eqn:Ha9;
      destruct (decide (String.length (tx_input tx) = 138%nat)) as [H138|H138];
      rewrite ?(bool_decide_eq_true_2 _ H138), ?(bool_decide_eq_false_2 _ H138);
      cbn [andb].
    1: { destruct (int16 _) as [n|]; [|done].
         intros [= <-] Hin. apply list_elem_of_singleton in Hin as ->.
         by left. }
    all: destruct (decide (tx_input tx = "0xd0e30db0")) as [Hdep|Hdep];
      rewrite ?(bool_decide_eq_true_2 _ Hdep), ?(bool_decide_eq_false_2 _ Hdep);
      destruct (decide (tx_to tx = Some WETH_CONTRACT_ADDRESS)) as [Hw|Hw];
      rewrite ?(bool_decide_eq_true_2 _ Hw), ?(bool_decide_eq_false_2 _ Hw);
      destruct (startswith (tx_input tx) "0x2e1a7d4d") eqn:H2e;
      destruct (decide (String.length (tx_input tx) = 74%nat)) as [H74|H74];
      rewrite ?(bool_decide_eq_true_2 _ H74), ?(bool_decide_eq_false_2 _ H74);
      cbn [andb];
      try (intros [= <-] Hin; by apply elem_of_nil in Hin);
      try (destruct (int16 _) as [n|]; [|done]);
      intros [= <-] Hin; apply list_elem_of_singleton in Hin as ->;
      first [by right; left|by right; right].
Qed.

(** ** The transaction classifier *)

Lemma store_transfers_seq (d : db) (id : Z) (ts : list erc20_transfer) :
  transactions_seq (store_transfers d id ts) = transactions_seq d.
Proof. apply store_transfers_frame. Qed.

Lemma find_db_tx_elem (d : db) (tx : transaction) (r : transaction_row) :
  find_db_tx d tx = Some r → r ∈ transactions d ∧ same_from_nonce tx r.
Proof.
  unfold find_db_tx. cbv zeta.
  assert (Hsub : ∀ x, x ∈ filter (same_from_nonce tx) (transactions d) →
                      x ∈ transactions d ∧ same_from_nonce tx x).
  { intros x Hx. apply list_elem_of_filter in Hx. tauto. }
  generalize dependent (filter (same_from_nonce tx) (transactions d)).
  intros [|r1 [|r2 l]] Hsub.
  - done.
  - intros [= <-]. apply Hsub. apply list_elem_of_here.
  - destruct (head _) as [r0|] eqn:Hh.
    + intros [= <-]. apply head_Some in Hh as [l' Hl']. apply Hsub.
      assert (Hin : r0 ∈ r0 :: l') by apply list_elem_of_here.
      rewrite <- Hl' in Hin. by apply list_elem_of_filter in Hin as [_ Hin].
    + clear Hh.
      destruct (filter _ _) as [|r0 [|? ?]] eqn:Hf; [done| |done].
      intros [= <-]. apply Hsub.
      assert (Hin : r0 ∈ [r0]) by apply list_elem_of_here.
      rewrite <- Hf in Hin. by apply list_elem_of_filter in Hin as [_ Hin].
Qed.

(** How an invocation ends: without the final message (an early return
    or an exception), with the final message for the record found, or with
    the final message for a row it inserts. *)
Inductive tx_case (d : db) (tx : transaction) (d' : db)
  : option transaction_row → tx_result → list message → Prop :=
| tx_quiet (db_tx : option transaction_row) (r : tx_result) :
    (transactions d' = transactions d
     ∨ ∃ n id, transactions d' = set_row_blocknumber n id <$> transactions d) →
    transactions_seq d' = transactions_seq d →
    tx_case d tx d' db_tx r []
| tx_known (row : transaction_row) :
    transactions d' = transactions d →
    transactions_seq d' = transactions_seq d →
    tx_case d tx d' (Some row) (TxReturned (Some (transaction_id row)))
            [update_transaction (transaction_id row) (new_status tx)]
| tx_inserted :
    transactions d'
    = transactions d
      ++ [new_transaction_row (transactions_seq d) tx (default "0x" (tx_to tx))] →
    transactions_seq d' = transactions_seq d + 1 →
    tx_case d tx d' None (TxReturned (Some (transactions_seq d)))
            [update_transaction (transactions_seq d) (new_status tx)].

Lemma process_transaction_cases (d d' : db) (tx : transaction) (is_reorg : bool)
    (r : tx_result) (sent : list message) :
  process_transaction d tx is_reorg = (r, d', sent) →
  ∃ last_sent,
    sent = (overwrite_check tx (find_db_tx d tx)).2 ++ last_sent
    ∧ tx_case d tx d' (overwrite_check tx (find_db_tx d tx)).1 r last_sent.
Proof.
  unfold process_transaction, insert_transaction.
  destruct (overwrite_check tx (find_db_tx d tx)) as [db_tx sent0]. simpl.
  intros Hp.
  repeat case_match; simplify_eq;
    first
      [ exists []; split; [by rewrite app_nil_r|];
        apply tx_quiet; simpl; eauto; fail
      | eexists; split; [done|];
        first [apply tx_known|apply tx_inserted];
        by rewrite ?store_transfers_transactions, ?store_transfers_seq ].
Qed.

Lemma overwrite_check_cases (tx : transaction) (o : option transaction_row) :
  overwrite_check tx o = (o, [])
  ∨ ∃ r, o = Some r ∧ t_hash r ≠ tx_hash tx ∧ t_status r ≠ error
         ∧ overwrite_check tx o
           = (None, [update_transaction (transaction_id r) error]).
Proof.
  destruct o as [r|]; simpl; [|by left].
  unfold is_overwritten. case_bool_decide as Ho; [|by left].
  right. exists r. by destruct Ho.
Qed.

(** C6. One invocation of the classifier on one transaction object sends
    at most one [update_transaction] message for any given
    [transaction_id], the key sequence of [transactions] being ahead of the
    stored keys. *)
Theorem process_transaction_update_once (d d' : db) (tx : transaction)
    (is_reorg : bool) (r : tx_result) (sent : list message) (id : Z) :
  ids_fresh d →
  process_transaction d tx is_reorg = (r, d', sent) →
  (length (updates_for id sent) ≤ 1)%nat.
Proof.
  intros Hfresh Hp.
  apply process_transaction_cases in Hp as (last_sent & -> & Hcase).
  destruct (overwrite_check_cases tx (find_db_tx d tx))
    as [Ho|(r0 & Hfind & _ & _ & Ho)]; rewrite Ho in *; simpl in *.
  - unfold updates_for. inversion Hcase; subst; simpl; [lia| |];
      destruct (bool_decide _); simpl; lia.
  - apply find_db_tx_elem in Hfind as [Hin _]. apply Hfresh in Hin.
    unfold updates_for. inversion Hcase; subst; simpl.
    + destruct (bool_decide _); simpl; lia.
    + repeat case_bool_decide; simpl; lia.
Qed.

(** C4 (amended).  The classifier receives a pending transaction
    ([blockNumber] null) whose [(from, nonce)] matches exactly one stored row,
    with a different hash and a status other than ['error'] (whatever its
    [v]).  When the transaction is interesting (an endpoint of the
    transaction, or of the token transfer guessed from its input, is
    registered) and the guess from its input does not raise, it sends
    [update_transaction(old_row.transaction_id, 'error')], inserts a new
    [transactions] row for the incoming hash and sends
    [update_transaction(new_id, 'unconfirmed')]. *)
Theorem process_transaction_overwrite (d : db) (tx : transaction)
    (is_reorg : bool) (old : transaction_row) (ts : list erc20_transfer) :
  tx_blockNumber tx = None →
  filter (same_from_nonce tx) (transactions d) = [old] →
  t_hash old ≠ tx_hash tx →
  t_status old ≠ error →
  pending_transfers tx (default "0x" (tx_to tx)) (tx_from tx) = Some ts →
  is_interesting d None (default "0x" (tx_to tx)) (tx_from tx) ts = true →
  ∃ d',
    process_transaction d tx is_reorg
    = (TxReturned (Some (transactions_seq d)), d',
       [update_transaction (transaction_id old) error;
        update_transaction (transactions_seq d) unconfirmed])
    ∧ transactions d'
      = transactions d
        ++ [new_transaction_row (transactions_seq d) tx (default "0x" (tx_to tx))]
    ∧ t_hash (new_transaction_row (transactions_seq d) tx
                                  (default "0x" (tx_to tx))) = tx_hash tx.
Proof.
  intros Hbn Hrows Hhash Hst Hts Hint.
  unfold process_transaction, find_db_tx. rewrite Hrows. simpl.
  unfold is_overwritten. rewrite bool_decide_eq_true_2 by done.
  unfold extract_transfers, new_status. rewrite Hbn, Hts, Hint. simpl.
  eexists. split; [done|]. split; [|done].
  by rewrite store_transfers_transactions.
Qed.

Lemma filter_ext_in {A} (P Q : A → Prop) `{∀ x, Decision (P x)}
    `{∀ x, Decision (Q x)} (l : list A) :
  (∀ x, x ∈ l → (P x ↔ Q x)) → filter P l = filter Q l.
Proof.
  induction l as [|a l IH]; intros Hext; [done|].
  rewrite !filter_cons.
  assert (Ha : P a ↔ Q a) by (apply Hext; apply list_elem_of_here).
  rewrite IH by (intros x Hx; apply Hext; by apply list_elem_of_further).
  destruct (decide (P a)), (decide (Q a)); tauto.
Qed.

Lemma non_error_rows_filter (tx : transaction) (d : db) :
  non_error_rows (tx_from tx) (parse_int (tx_nonce tx)) d
  = filter (λ r, t_status r ≠ error)
           (filter (same_from_nonce tx) (transactions d)).
Proof.
  unfold non_error_rows. rewrite list_filter_filter.
  apply filter_ext_in. intros x _. unfold same_from_nonce. tauto.
Qed.

(** Without a record for the transaction, its pair does not have exactly
    one row that is not in error. *)
Lemma find_db_tx_None (d : db) (tx : transaction) :
  find_db_tx d tx = None →
  length (non_error_rows (tx_from tx) (parse_int (tx_nonce tx)) d) ≠ 1%nat.
Proof.
  rewrite non_error_rows_filter. unfold find_db_tx. cbv zeta.
  generalize (filter (same_from_nonce tx) (transactions d)).
  intros [|r1 [|r2 l]]; [done|done|].
  destruct (head _) as [r0|] eqn:Hh; [done|]. apply head_None in Hh.
  intros Hnone.
  rewrite (filter_ext_in (λ r, t_status r ≠ error)
             (λ r, t_hash r ≠ tx_hash tx
                   ∧ (t_status r ≠ error ∨ t_status r = new))).
  - clear Hh. destruct (filter _ _) as [|? [|? ?]]; simpl; [lia|done|lia].
  - intros x Hx. split.
    + intros Hst. split; [|by left]. intros Heq.
      eapply filter_nil_not_elem_of; [exact Hh| |exact Hx].
      simpl. split; [done|by left].
    + intros [_ [Hst| ->]]; done.
Qed.

Lemma non_error_rows_set_blocknumber (a : string) (n k id : Z)
    (l : list transaction_row) :
  length (filter (λ r, (from_address r = a ∧ nonce r = n) ∧ t_status r ≠ error)
                 (set_row_blocknumber k id <$> l))
  = length (filter (λ r, (from_address r = a ∧ nonce r = n) ∧ t_status r ≠ error)
                   l).
Proof.
  induction l as [|x l IH]; [done|].
  rewrite fmap_cons, !filter_cons.
  assert (Hx : from_address (set_row_blocknumber k id x) = from_address x
               ∧ nonce (set_row_blocknumber k id x) = nonce x
               ∧ t_status (set_row_blocknumber k id x) = t_status x).
  { unfold set_row_blocknumber. by case_bool_decide. }
  destruct Hx as (Hf & Hn & Hs).
  repeat case_decide; simpl; rewrite ?IH; try done; exfalso;
    rewrite ?Hf, ?Hn, ?Hs in *; tauto.
Qed.

(** C2 (amended).  The monitor never writes the status of a stored row;
    it only sends [update_transaction] messages.  When a [(from, nonce)] pair
    has at most one row with a status other than ['error'] before an
    invocation of the classifier, then after it either this still holds, or
    the pair had exactly one such row, [update_transaction(id, 'error')] was
    sent for it, and the replacing row was appended: the two rows stay side by
    side until the dispatcher applies the message. *)
Theorem process_transaction_non_error_rows (d d' : db) (tx : transaction)
    (is_reorg : bool) (r : tx_result) (sent : list message)
    (a : string) (n : Z) :
  process_transaction d tx is_reorg = (r, d', sent) →
  (length (non_error_rows a n d) ≤ 1)%nat →
  (length (non_error_rows a n d') ≤ 1)%nat
  ∨ ∃ old,
      non_error_rows a n d = [old]
      ∧ update_transaction (transaction_id old) error ∈ sent
      ∧ transactions d'
        = transactions d
          ++ [new_transaction_row (transactions_seq d) tx
                                  (default "0x" (tx_to tx))].
Proof.
  intros Hp Hone.
  apply process_transaction_cases in Hp as (last_sent & -> & Hcase).
  inversion Hcase as [db_tx r' [Htx|(k & id & Htx)] Hseq|row Htx Hseq|Htx Hseq Hdb];
    subst.
  - left. unfold non_error_rows. by rewrite Htx.
  - left. unfold non_error_rows. rewrite Htx.
    by rewrite non_error_rows_set_blocknumber.
  - left. unfold non_error_rows. by rewrite Htx.
  - unfold non_error_rows at 1. rewrite Htx, filter_app, length_app.
    rewrite filter_cons, filter_nil.
    destruct (decide _) as [[[Ha Hn] _]|]; [|left; simpl; unfold non_error_rows in Hone; lia].
    simpl in Ha, Hn. subst a n.
    destruct (overwrite_check_cases tx (find_db_tx d tx))
      as [Ho|(r0 & Hfind & Hhash & Hst & Ho)]; rewrite Ho in *; simpl in *.
    + symmetry in Hdb. apply find_db_tx_None in Hdb.
      left. fold (non_error_rows (tx_from tx) (parse_int (tx_nonce tx)) d). lia.
    + right. exists r0. split; [|split; [apply list_elem_of_here|done]].
      apply find_db_tx_elem in Hfind as [Hin Hsame].
      assert (Hr0 : r0 ∈ non_error_rows (tx_from tx) (parse_int (tx_nonce tx)) d).
      { apply list_elem_of_filter. done. }
      destruct (non_error_rows _ _ d) as [|x [|y l]]; simpl in Hone; try lia.
      * by apply elem_of_nil in Hr0.
      * apply list_elem_of_singleton in Hr0. by subst.
Qed.

End Properties.

(** ** The theorems on the scenarios *)

Lemma quiet_node_numbers (blk : Z -> option block) :
  (∀ n b, blk n = Some b → b_number b = HexString.of_Z n) →
  node_numbers (H := py_externals) (quiet_node blk).
Proof.
  intros Hblk n b [= Hb]. apply Hblk in Hb. simpl. rewrite Hb.
  apply HexString.to_Z_of_Z.
Qed.

Lemma singleton_chain_consistent (n : Z) (r : block_row) :
  chain_consistent {[ n := r ]}.
Proof.
  intros k r1 r2 H1 H2.
  apply lookup_singleton_Some in H1 as [H1 _], H2 as [H2 _]. lia.
Qed.

Lemma singleton_stale_above (n : Z) (r : block_row) :
  stale_above {[ n := r ]} n.
Proof. intros k r1 H1 Hk. apply lookup_singleton_Some in H1 as [H1 _]. lia. Qed.

(** Block 101 is stored on top of block 100: the chain stays linked. *)
Lemma ingest_chain_witness :
  ingest_result.1.1 = IterPersisted false
  ∧ chain_consistent (blocks (database ingest_result.1.2))
  ∧ stale_above (blocks (database ingest_result.1.2))
                (last_block_number ingest_result.1.2).
Proof.
  split; [vm_compute; reflexivity|].
  apply (block_check_iter_chain (H := py_externals) ingest_node ingest_monitor
           ingest_result.1.2 (IterPersisted false) ingest_result.2).
  - vm_compute. reflexivity.
  - apply quiet_node_numbers. intros n b. case_bool_decide; [|done].
    intros [= <-]. by subst.
  - apply singleton_chain_consistent.
  - apply singleton_stale_above.
  - discriminate.
Defined.

(** C1 fails when the reorg handler finds no fork point: block 6 is
    stored on top of block 5 although its parent hash is not the hash of the
    stored block 5, and both rows are not stale. *)
Lemma lost_reorg_breaks_chain :
  chain_consistent (blocks (database lost_monitor))
  ∧ stale_above (blocks (database lost_monitor)) (last_block_number lost_monitor)
  ∧ node_numbers (H := py_externals) lost_node
  ∧ lost_result.1.1 = IterPersisted true
  ∧ ¬ chain_consistent (blocks (database lost_result.1.2)).
Proof.
  split; [apply singleton_chain_consistent|].
  split; [apply singleton_stale_above|].
  split.
  { apply quiet_node_numbers. intros n b. case_bool_decide; intros [= <-]; by subst. }
  split; [vm_compute; reflexivity|].
  intros Hchain.
  specialize (Hchain 5 (plain_row "0xaa" "0x99")
                (plain_row "0xcc" "0xbb")).
  assert (Hbad : parent_hash (plain_row "0xcc" "0xbb")
                 = hash (plain_row "0xaa" "0x99")).
  { apply Hchain; vm_compute; reflexivity. }
  discriminate Hbad.
Qed.

(** Storing block 101 raises the high-water mark from 100 to 101. *)
Lemma ingest_high_water_witness :
  last_block_number ingest_monitor ≤ last_block_number ingest_result.1.2.
Proof.
  apply (block_check_iter_high_water (H := py_externals) ingest_node
           ingest_monitor ingest_result.1.2 (IterPersisted false)
           ingest_result.2).
  vm_compute. reflexivity.
Defined.

(** C3 fails on a gap: with the high-water mark at 5 and only block 3
    stored, the iteration rewinds the mark to 3 without calling the reorg
    handler. *)
Lemma gap_lowers_high_water :
  block_check_iter (H := py_externals) gap_node gap_monitor
  = (IterGap, set_last_block_number 3 gap_monitor, [update_default_gas_price 6])
  ∧ last_block_number (set_last_block_number 3 gap_monitor)
    < last_block_number gap_monitor.
Proof. split; [vm_compute; reflexivity|simpl; lia]. Qed.

(** The reorg of the specification: fork at 495 below the mark 500; the
    collectibles row at 500 goes to 494, the row at 100 is kept. *)
Lemma reorg_fork_witness :
  find_fork (H := py_externals) REORG_FUEL reorg_node
            (blocks (database reorg_monitor))
            (last_block_number reorg_monitor)
            (last_block_number reorg_monitor) = ForkFound 495
  ∧ ∃ m', handle_reorg (H := py_externals) reorg_node reorg_monitor
          = ReorgDone true m'
      ∧ last_block_number m' = 495
      ∧ (∀ k r, 496 ≤ k ≤ 500 → blocks (database m') !! k = Some r →
           stale r = true)
      ∧ (∀ c, c ∈ collectibles (database m') → last_block c ≤ 494)
      ∧ collectibles (database m') !! 0%nat
        = Some {| c_contract_address := "0xc1"; last_block := 494 |}
      ∧ collectibles (database m') !! 1%nat
        = Some {| c_contract_address := "0xc2"; last_block := 100 |}
      ∧ length (collectibles (database m')) = 2%nat.
Proof.
  assert (Hf : find_fork (H := py_externals) REORG_FUEL reorg_node
                 (blocks (database reorg_monitor))
                 (last_block_number reorg_monitor)
                 (last_block_number reorg_monitor) = ForkFound 495)
    by (vm_compute; reflexivity).
  assert (H0 : collectibles (database reorg_monitor) !! 0%nat
               = Some {| c_contract_address := "0xc1"; last_block := 500 |})
    by reflexivity.
  assert (H1 : collectibles (database reorg_monitor) !! 1%nat
               = Some {| c_contract_address := "0xc2"; last_block := 100 |})
    by reflexivity.
  split; [exact Hf|].
  destruct (handle_reorg_fork (H := py_externals) reorg_node reorg_monitor 495 Hf)
    as (m' & Hr & Hl & _ & _ & _ & _ & Hlen & Hcol & _ & Hs2).
  exists m'. split; [exact Hr|].
  destruct (Hs2 eq_refl eq_refl) as (Hs21 & Hs22 & Hs23 & Hs24).
  split; [exact Hs21|]. split; [exact Hs22|]. split; [exact Hs23|].
  split; [exact (Hs24 _ _ H0 eq_refl)|].
  split; [|exact Hlen].
  destruct (Hcol _ _ H1) as (c' & Hc' & _ & _ & Hsame).
  rewrite Hc'. f_equal. apply Hsame. discriminate.
Defined.

(** The overwritten nonce with a registered sender: the old row is
    reported in error, the new row is inserted and reported unconfirmed. *)
Lemma overwrite_witness :
  ∃ d', overwrite_result true
        = (TxReturned (Some 2), d',
           [update_transaction 1 error; update_transaction 2 unconfirmed])
    ∧ transactions d'
      = [overwrite_old;
         new_transaction_row (H := py_externals) 2 overwrite_tx "0xf2"].
Proof.
  destruct (process_transaction_overwrite (H := py_externals)
              (overwrite_db true) overwrite_tx false overwrite_old [])
    as (d' & Hp & Htx & _).
  - reflexivity.
  - vm_compute. reflexivity.
  - vm_compute. discriminate.
  - vm_compute. discriminate.
  - vm_compute. reflexivity.
  - vm_compute. reflexivity.
  - exists d'. split; [exact Hp|exact Htx].
Defined.

(** C4 fails when nobody is registered for the transaction: the old row
    is reported in error, and the classifier returns without a new row and
    without a second message. *)
Lemma overwrite_not_interesting :
  tx_blockNumber overwrite_tx = None
  ∧ filter (same_from_nonce (H := py_externals) overwrite_tx)
           (transactions (overwrite_db false)) = [overwrite_old]
  ∧ t_hash overwrite_old ≠ tx_hash overwrite_tx
  ∧ t_status overwrite_old ≠ error
  ∧ v overwrite_old ≠ None
  ∧ overwrite_result false
    = (TxReturned None, overwrite_db false, [update_transaction 1 error]).
Proof.
  split; [reflexivity|]. split; [vm_compute; reflexivity|].
  split; [vm_compute; discriminate|]. split; [discriminate|].
  split; [discriminate|]. vm_compute. reflexivity.
Qed.

(** C2 fails right after an overwrite: the pair [(0xf1, 7)] had one row
    that is not in error, and has two after the invocation, the old row still
    [unconfirmed] and the new row. *)
Lemma overwrite_two_non_error_rows :
  (∀ a n, (length (non_error_rows a n (overwrite_db true)) ≤ 1)%nat)
  ∧ non_error_rows "0xf1" 7 (overwrite_result true).1.2
    = [overwrite_old;
       new_transaction_row (H := py_externals) 2 overwrite_tx "0xf2"]
  ∧ length (non_error_rows "0xf1" 7 (overwrite_result true).1.2) = 2%nat.
Proof.
  split.
  - intros a n. unfold non_error_rows. simpl transactions.
    rewrite filter_cons, filter_nil. destruct (decide _); simpl; lia.
  - split; vm_compute; reflexivity.
Qed.

(** On the overwritten nonce the second row comes with the message for
    the first one. *)
Lemma overwrite_rows_witness :
  (length (non_error_rows "0xf1" 7 (overwrite_result true).1.2) ≤ 1)%nat
  ∨ ∃ old,
      non_error_rows "0xf1" 7 (overwrite_db true) = [old]
      ∧ update_transaction (transaction_id old) error ∈ (overwrite_result true).2
      ∧ transactions (overwrite_result true).1.2
        = transactions (overwrite_db true)
          ++ [new_transaction_row (H := py_externals)
                (transactions_seq (overwrite_db true)) overwrite_tx
                (default "0x" (tx_to overwrite_tx))].
Proof.
  apply (process_transaction_non_error_rows (H := py_externals)
           (overwrite_db true) (overwrite_result true).1.2 overwrite_tx false
           (overwrite_result true).1.1 (overwrite_result true).2 "0xf1" 7).
  - vm_compute. reflexivity.
  - vm_compute. lia.
Defined.

(** The two messages of the overwrite carry different ids. *)
Lemma overwrite_update_once_witness :
  ids_fresh (overwrite_db true)
  ∧ (length (updates_for 1 (overwrite_result true).2) ≤ 1)%nat
  ∧ (length (updates_for 2 (overwrite_result true).2) ≤ 1)%nat.
Proof.
  assert (Hfresh : ids_fresh (overwrite_db true)).
  { intros r Hr. apply list_elem_of_singleton in Hr as ->. simpl. lia. }
  split; [exact Hfresh|].
  split;
    apply (process_transaction_update_once (H := py_externals)
             (overwrite_db true) (overwrite_result true).1.2 overwrite_tx false
             (overwrite_result true).1.1 (overwrite_result true).2 _ Hfresh);
    vm_compute; reflexivity.
Defined.

(** The expired hash: seen at 30, null on the node at 100. *)
Lemma expiry_witness :
  (60 <= 100 - inject_Z 30)%Q
  ∧ ∃ m', process_unconfirmed_entry (H := py_externals) 100 (RpcOk None)
            "0xdead" 30 expiry_monitor = (EntryDone, m', [])
      ∧ database m' = database expiry_monitor
      ∧ unconfirmed_txs m' !! "0xdead" = None.
Proof.
  assert (Hage : (60 <= 100 - inject_Z 30)%Q) by (vm_compute; discriminate).
  split; [exact Hage|].
  exists (set_unconfirmed_txs (delete "0xdead") expiry_monitor).
  assert (Hp : process_unconfirmed_entry (H := py_externals) 100 (RpcOk None)
                 "0xdead" 30 expiry_monitor
               = (EntryDone,
                  set_unconfirmed_txs (delete "0xdead") expiry_monitor, []))
    by (vm_compute; reflexivity).
  split; [exact Hp|].
  destruct (process_unconfirmed_entry_null (H := py_externals) 100 "0xdead" 30
              expiry_monitor _ _ _ Hp) as (_ & _ & Hdb & _ & Hold & _).
  split; [exact Hdb|]. apply (Hold Hage).
Defined.

(** The same hash when the lookup fails with an RPC error. *)
Lemma expiry_error_witness :
  process_unconfirmed_entry (H := py_externals) 100 RpcError "0xdead" 30
                            expiry_monitor
  = (EntryDone, set_unconfirmed_txs (delete "0xdead") expiry_monitor, [])
  ∧ unconfirmed_txs (set_unconfirmed_txs (delete "0xdead") expiry_monitor)
    !! "0xdead" = None.
Proof.
  apply (process_unconfirmed_entry_error (H := py_externals) 100 "0xdead" 30
           expiry_monitor).
  vm_compute. discriminate.
Defined.

(** A [transferFrom] input of 202 characters, the same input cut to 138
    characters, and the same 202 characters under the selector of
    [transfer]. *)
Lemma transferFrom_witness :
  String.length transferFrom_input = 202%nat
  ∧ pending_transfers (H := py_externals) (transferFrom_tx transferFrom_input)
                      "0x70" "0xf1"
    = Some [ {| e_contract_address := "0x70";
                e_log_index := 0;
                e_from_address := "0x1111111111111111111111111111111111111111";
                e_to_address := "0x2222222222222222222222222222222222222222";
                e_value := "0x5";
                e_status := unconfirmed |} ]
  ∧ pending_transfers (H := py_externals)
                      (transferFrom_tx (slice transferFrom_input 0 138))
                      "0x70" "0xf1"
    = Some []
  ∧ pending_transfers (H := py_externals)
                      (transferFrom_tx
                         ("0xa9059cbb" +:+ slice transferFrom_input 10 202))
                      "0x70" "0xf1"
    = Some [].
Proof.
  split; [vm_compute; reflexivity|]. split; [|split].
  - destruct (pending_transfers_transferFrom (H := py_externals)
                (transferFrom_tx transferFrom_input) "0x70" "0xf1")
      as (Hfull & _).
    rewrite Hfull by (vm_compute; reflexivity). vm_compute. reflexivity.
  - destruct (pending_transfers_transferFrom (H := py_externals)
                (transferFrom_tx (slice transferFrom_input 0 138)) "0x70" "0xf1")
      as (_ & Hshort & _).
    apply Hshort; [vm_compute; reflexivity|vm_compute; discriminate].
  - destruct (pending_transfers_transferFrom (H := py_externals)
                (transferFrom_tx
                   ("0xa9059cbb" +:+ slice transferFrom_input 10 202))
                "0x70" "0xf1")
      as (_ & _ & Hother & _).
    apply Hother; vm_compute; reflexivity.
Defined.

(** Without token registrations the unready token is marked ready and
    nothing is sent. *)
Lemma tokens_witness :
  (filter_poll_tokens tokens_monitor).2 = []
  ∧ ∃ t', tokens (database (filter_poll_tokens tokens_monitor).1) !! 0%nat
          = Some t'
      ∧ contract_address t' = "0x70" ∧ ready t' = true.
Proof.
  destruct (filter_poll_tokens_no_registrations tokens_monitor
              (filter_poll_tokens tokens_monitor).1
              (filter_poll_tokens tokens_monitor).2)
    as (Hsent & _ & Hready).
  - reflexivity.
  - reflexivity.
  - vm_compute. reflexivity.
  - split; [exact Hsent|].
    destruct (Hready 0%nat
                {| contract_address := "0x70"; ready := false; custom := false |})
      as (t' & Ht' & Hc & _ & Hr).
    + reflexivity.
    + split; reflexivity.
    + exists t'. split; [exact Ht'|]. split; [exact Hc|exact Hr].
Defined.

(** * Further properties of the monitor *)

Section ExtraProperties.
Context `{Externals}.

(** ** The reorg handler *)

Lemma find_fork_more_fuel (fuel : nat) (nd : node) (b : gmap Z block_row)
    (last blocknumber : Z) :
  find_fork fuel nd b last blocknumber ≠ ForkOutOfFuel →
  find_fork (S fuel) nd b last blocknumber = find_fork fuel nd b last blocknumber.
Proof.
  revert blocknumber. induction fuel as [|fuel IH]; intros blocknumber;
    [done|].
  intros Hne. cbn [find_fork] in Hne |- *.
  destruct (bulk_execute nd _) as [node_results|]; [|done].
  destruct (compare_batch node_results _); [done|done|].
  case_bool_decide; [done|]. by apply IH.
Qed.

(** X1. The [while True] search of [handle_reorg] always ends: 102
    batches are never used up, and any larger bound gives the same answer. *)
Theorem find_fork_terminates (nd : node) (m : monitor) (extra : nat) :
  find_fork REORG_FUEL nd (blocks (database m)) (last_block_number m)
            (last_block_number m) ≠ ForkOutOfFuel
  ∧ find_fork (REORG_FUEL + extra) nd (blocks (database m))
              (last_block_number m) (last_block_number m)
    = find_fork REORG_FUEL nd (blocks (database m)) (last_block_number m)
                (last_block_number m).
Proof.
  pose proof (handle_reorg_terminates nd m) as Hne. split; [done|].
  induction extra as [|extra IH]; [by rewrite Nat.add_0_r|].
  rewrite Nat.add_succ_r, find_fork_more_fuel; [done|]. by rewrite IH.
Qed.

Lemma compare_batch_fork_agree (node_results : list (option block))
    (db_results : list (Z * block_row)) (f : Z) :
  compare_batch node_results db_results = ScanFork f →
  ∃ r nb, (f, r) ∈ db_results ∧ Some nb ∈ node_results ∧ b_hash nb = hash r.
Proof.
  revert db_results.
  induction node_results as [|nb node_rest IH]; intros db_results; simpl; [done|].
  destruct db_results as [|r0 l0] eqn:Hdb; [done|]. rewrite <- Hdb. clear Hdb.
  destruct nb as [nb|]; [|done].
  destruct (skip_out_of_order _ db_results None) as [rest [db_block|]] eqn:Hs;
    [|done].
  apply skip_out_of_order_elem in Hs as [[?|Hin] Hsub]; [done|].
  case_bool_decide as Hhash.
  - intros [= <-]. exists db_block.2, nb. split; [by destruct db_block|].
    split; [apply list_elem_of_here|done].
  - intros Hc. apply IH in Hc as (r & nb' & Hr & Hnb & Hh). exists r, nb'.
    split; [|split; [by apply list_elem_of_further|done]].
    apply Hsub. destruct rest; [by apply elem_of_nil in Hr|].
    by apply list_elem_of_further.
Qed.

Lemma find_fork_agree (fuel : nat) (nd : node) (b : gmap Z block_row)
    (last blocknumber f : Z) :
  find_fork fuel nd b last blocknumber = ForkFound f →
  ∃ bn results nb row,
    bn ≤ blocknumber ∧ f ≤ bn
    ∧ bulk_execute nd (bulk_requests bn) = RpcOk results
    ∧ Some nb ∈ results ∧ b !! f = Some row ∧ b_hash nb = hash row.
Proof.
  revert blocknumber. induction fuel as [|fuel IH]; intros blocknumber;
    cbn [find_fork]; [done|].
  destruct (bulk_execute nd _) as [node_results|] eqn:Hbulk; [|done].
  destruct (compare_batch node_results _) as [|f'|] eqn:Hc; [done| |].
  - intros [= ->]. apply compare_batch_fork_agree in Hc as (r & nb & Hr & Hnb & Hh).
    apply select_blocks_desc_elem in Hr as [Hle Hlk].
    exists blocknumber, node_results, nb, r. done.
  - case_bool_decide; [done|]. intros Hf.
    apply IH in Hf as (bn & results & nb & row & Hbn & Hrest).
    exists bn, results, nb, row. unfold BLOCKS_PER_ITERATION in Hbn.
    split; [lia|done].
Qed.

(** X2. When [handle_reorg] succeeds, the new high-water mark is the
    number of a stored block, at or below the old mark, whose stored hash is
    the hash of a block the node returned in one of the batches; the row at
    the mark is left as it was. *)
Theorem handle_reorg_fork_agrees (nd : node) (m m' : monitor) :
  handle_reorg nd m = ReorgDone true m' →
  ∃ bn results nb row,
    last_block_number m' ≤ bn ∧ bn ≤ last_block_number m
    ∧ bulk_execute nd (bulk_requests bn) = RpcOk results
    ∧ Some nb ∈ results
    ∧ blocks (database m) !! last_block_number m' = Some row
    ∧ blocks (database m') !! last_block_number m' = Some row
    ∧ b_hash nb = hash row.
Proof.
  intros Hr. apply handle_reorg_success in Hr as (f & Hf & _ & -> & ->).
  apply find_fork_agree in Hf
    as (bn & results & nb & row & Hbn & Hfb & Hbulk & Hnb & Hrow & Hh).
  exists bn, results, nb, row. repeat split; try done.
  rewrite lookup_mark_stale_above, Hrow. simpl.
  by rewrite bool_decide_eq_false_2 by lia.
Qed.

(** X3. Whatever [handle_reorg] returns, it adds and removes no block
    row, changes no hash, parent hash or timestamp and clears no stale flag;
    it leaves the transactions, the token transactions and the
    [last_blocknumber] table alone; and when it returns [False] the monitor is
    unchanged. *)
Theorem handle_reorg_frame (nd : node) (m : monitor) :
  match handle_reorg nd m with
  | ReorgRaised => True
  | ReorgDone success m' =>
      (∀ k, match blocks (database m) !! k, blocks (database m') !! k with
            | Some r, Some r' =>
                hash r' = hash r ∧ parent_hash r' = parent_hash r
                ∧ timestamp r' = timestamp r
                ∧ (stale r = true → stale r' = true)
            | None, None => True
            | _, _ => False
            end)
      ∧ transactions (database m') = transactions (database m)
      ∧ transactions_seq (database m') = transactions_seq (database m)
      ∧ token_transactions (database m') = token_transactions (database m)
      ∧ last_blocknumber (database m') = last_blocknumber (database m)
      ∧ unconfirmed_txs m' = unconfirmed_txs m
      ∧ (success = false → m' = m)
  end.
Proof.
  unfold handle_reorg. destruct (find_fork _ _ _ _ _) as [f| | |]; [| |done|done].
  - simpl. split; [|done]. intros k. rewrite lookup_mark_stale_above.
    destruct (blocks (database m) !! k) as [r|]; [|done]. simpl.
    case_bool_decide; done.
  - split; [|done]. intros k. by destruct (blocks (database m) !! k).
Qed.

(** ** One iteration of the block-check loop *)

Lemma store_transfers_others (d : db) (id : Z) (ts : list erc20_transfer) :
  last_blocknumber (store_transfers d id ts) = last_blocknumber d
  ∧ notification_registrations (store_transfers d id ts)
    = notification_registrations d
  ∧ token_registrations (store_transfers d id ts) = token_registrations d
  ∧ tokens (store_transfers d id ts) = tokens d
  ∧ filter_registrations (store_transfers d id ts) = filter_registrations d
  ∧ collectibles (store_transfers d id ts) = collectibles d.
Proof.
  unfold store_transfers. revert d.
  induction ts as [|e ts IH]; intros d; simpl; [done|].
  destruct (transfer_interest d e); [|apply IH].
  destruct (IH (set_token_transactions (upsert_token_transaction id e) d))
    as (-> & -> & -> & -> & -> & ->). done.
Qed.

Lemma process_transaction_others (d d' : db) (tx : transaction) (is_reorg : bool)
    (r : tx_result) (sent : list message) :
  process_transaction d tx is_reorg = (r, d', sent) →
  last_blocknumber d' = last_blocknumber d
  ∧ notification_registrations d' = notification_registrations d
  ∧ token_registrations d' = token_registrations d
  ∧ tokens d' = tokens d
  ∧ filter_registrations d' = filter_registrations d
  ∧ collectibles d' = collectibles d.
Proof.
  unfold process_transaction, insert_transaction. intros Hp.
  repeat case_match; simplify_eq; simpl; try done;
    match goal with
    | |- context [store_transfers ?d ?id ?l] =>
        by destruct (store_transfers_others d id l) as (-> & -> & -> & -> & -> & ->)
    end.
Qed.

Lemma process_transactions_others (txs : list transaction) (d d' : db)
    (is_reorg raised : bool) (sent : list message) :
  process_transactions d txs is_reorg = (raised, d', sent) →
  last_blocknumber d' = last_blocknumber d
  ∧ collectibles d' = collectibles d
  ∧ Forall (λ msg, ∃ id st, msg = update_transaction id st) sent.
Proof.
  revert d raised sent. induction txs as [|tx txs IH]; intros d raised sent; simpl.
  - by intros [= _ <- <-].
  - destruct (process_transaction d tx is_reorg) as [[r d1] sent1] eqn:Hp.
    destruct (process_transactions d1 txs is_reorg) as [[raised2 d2] sent2] eqn:Hps.
    intros [= _ <- <-]. apply IH in Hps as (-> & -> & Hsent2).
    pose proof (process_transaction_others _ _ _ _ _ _ Hp) as (-> & _ & _ & _ & _ & ->).
    split; [done|]. split; [done|]. apply Forall_app. split; [|done].
    apply process_transaction_cases in Hp as (last_sent & -> & Hcase).
    apply Forall_app. split.
    + destruct (overwrite_check_cases tx (find_db_tx d tx))
        as [->|(r0 & _ & _ & _ & ->)]; simpl; [done|].
      apply Forall_singleton. eauto.
    + inversion Hcase; subst; [done| |]; apply Forall_singleton; eauto.
Qed.

Lemma bump_high_water_le (n : Z) (l : list Z) :
  Forall2 Z.le l (bump_high_water n l).
Proof.
  unfold bump_high_water. induction l as [|x l IH]; [constructor|].
  rewrite fmap_cons. constructor; [|done]. case_bool_decide; lia.
Qed.

Lemma Forall2_le_refl (l : list Z) : Forall2 Z.le l l.
Proof. induction l; constructor; [lia|done]. Qed.

(** What [ingest_block] does, outcome by outcome. *)
Lemma ingest_block_inv (nd : node) (m m' : monitor) (blk : block)
    (reorg_failed : bool) (sent out : list message) (it : iteration) :
  ingest_block nd m blk reorg_failed sent = (it, m', out) →
  let is_reorg :=
    bool_decide (is_Some (blocks (database m) !! (last_block_number m + 1))) in
  (it = IterBreak ∧ m' = m ∧ out = sent
   ∧ b_logsBloom blk ≠ EMPTY_BLOOM ∧ eth_getLogs nd (b_number blk) = RpcError)
  ∨ ∃ logs_list raised d1 sent1,
      (if bool_decide (b_logsBloom blk ≠ EMPTY_BLOOM)
       then eth_getLogs nd (b_number blk) else RpcOk []) = RpcOk logs_list
      ∧ process_transactions (database m)
          (attach_logs logs_list <$> b_transactions blk) is_reorg
        = (raised, d1, sent1)
      ∧ if raised
        then it = IterRaised ∧ m' = set_database (λ _, d1) m
             ∧ out = sent ++ sent1
        else it = IterPersisted reorg_failed
             ∧ last_block_number m'
               = Z.max (last_block_number m) (parse_int (b_number blk))
             ∧ _shutdown m' = _shutdown m
             ∧ unconfirmed_txs m' = unconfirmed_txs m
             ∧ database m'
               = set_blocks
                   (upsert_block (parse_int (b_number blk))
                      (if bool_decide (parse_int (b_timestamp blk) = 0)
                       then wall_clock nd else parse_int (b_timestamp blk))
                      (b_hash blk) (b_parentHash blk))
                   (set_last_blocknumber
                      (bump_high_water (parse_int (b_number blk))) d1)
             ∧ out = sent ++ sent1 ++ filter_notifications d1 logs_list
                     ++ [notify_new_block (parse_int (b_number blk))].
Proof.
  unfold ingest_block. cbv zeta.
  destruct (bool_decide (b_logsBloom blk ≠ EMPTY_BLOOM)) eqn:Hbloom.
  - destruct (eth_getLogs nd (b_number blk)) as [logs_list|] eqn:Hlogs.
    + destruct (process_transactions _ _ _) as [[raised d1] sent1] eqn:Hp.
      intros Hi. right. exists logs_list, raised, d1, sent1.
      split; [done|]. split; [done|].
      destruct raised; simplify_eq; [done|].
      split; [done|]. split.
      { destruct (decide (last_block_number m < parse_int (b_number blk)))
          as [Hlt|Hlt].
        - rewrite (bool_decide_eq_true_2 _ Hlt), Z.max_r by lia. done.
        - rewrite (bool_decide_eq_false_2 _ Hlt), Z.max_l by lia. done. }
      by destruct (bool_decide (last_block_number m < _)).
    + intros [= <- <- <-]. left. apply bool_decide_eq_true in Hbloom. done.
  - destruct (process_transactions _ _ _) as [[raised d1] sent1] eqn:Hp.
    intros Hi. right. exists [], raised, d1, sent1.
    split; [done|]. split; [done|].
    destruct raised; simplify_eq; [done|].
    split; [done|]. split.
    { destruct (decide (last_block_number m < parse_int (b_number blk)))
        as [Hlt|Hlt].
      - rewrite (bool_decide_eq_true_2 _ Hlt), Z.max_r by lia. done.
      - rewrite (bool_decide_eq_false_2 _ Hlt), Z.max_l by lia. done. }
    by destruct (bool_decide (last_block_number m < _)).
Qed.

Lemma block_check_iter_inv (nd : node) (m m' : monitor) (it : iteration)
    (sent : list message) :
  block_check_iter nd m = (it, m', sent) →
  (it = IterBreak ∧ m' = m ∧ sent = []
   ∧ ∀ blk, eth_getBlockByNumber nd (last_block_number m + 1) ≠ RpcOk (Some blk))
  ∨ ∃ blk,
      eth_getBlockByNumber nd (last_block_number m + 1) = RpcOk (Some blk)
      ∧ ((it = IterGap
          ∧ sent = [update_default_gas_price (last_block_number m + 1)]
          ∧ ∃ n, blocks (database m) !! last_block_number m = None
                 ∧ highest_block_below (blocks (database m))
                                       (last_block_number m) = Some n
                 ∧ n ≠ 0 ∧ m' = set_last_block_number n m)
         ∨ (it = IterReorg
            ∧ sent = [update_default_gas_price (last_block_number m + 1)]
            ∧ handle_reorg nd m = ReorgDone true m')
         ∨ (it = IterRaised
            ∧ sent = [update_default_gas_price (last_block_number m + 1)]
            ∧ m' = m ∧ handle_reorg nd m = ReorgRaised)
         ∨ ∃ reorg_failed : bool,
             ingest_block nd m blk reorg_failed
               [update_default_gas_price (last_block_number m + 1)]
             = (it, m', sent)
             ∧ (reorg_failed = true → handle_reorg nd m = ReorgDone false m)).
Proof.
  unfold block_check_iter.
  destruct (eth_getBlockByNumber nd _) as [[blk|]|] eqn:Hblk;
    [|intros [= <- <- <-]; left; done..].
  intros Hi. right. exists blk. split; [done|].
  destruct (blocks (database m) !! last_block_number m) as [row|] eqn:Hrow.
  - case_bool_decide as Hhash.
    + destruct (handle_reorg nd m) as [[|] m1|] eqn:Hr.
      * simplify_eq. right. left. done.
      * pose proof (handle_reorg_failure _ _ _ Hr) as ->.
        right. right. right. exists true. done.
      * simplify_eq. right. right. left. done.
    + right. right. right. exists false. done.
  - destruct (highest_block_below _ _) as [n|] eqn:Hh.
    + case_bool_decide.
      * simplify_eq. left. split; [done|]. split; [done|]. by exists n.
      * right. right. right. exists false. done.
    + right. right. right. exists false. done.
Qed.

(** X4. The gap rewind: when an iteration continues after finding no row
    at the high-water mark, the new mark is the number of a stored block,
    the highest one below the old mark and never block 0 (a lower block 0
    counts as no lower block); the database is left as it was and the only
    message is [update_default_gas_price]. *)
Theorem block_check_iter_gap (nd : node) (m m' : monitor) (sent : list message) :
  block_check_iter nd m = (IterGap, m', sent) →
  database m' = database m
  ∧ unconfirmed_txs m' = unconfirmed_txs m
  ∧ sent = [update_default_gas_price (last_block_number m + 1)]
  ∧ blocks (database m) !! last_block_number m = None
  ∧ is_Some (blocks (database m) !! last_block_number m')
  ∧ last_block_number m' < last_block_number m
  ∧ last_block_number m' ≠ 0
  ∧ ∀ k, last_block_number m' < k ≤ last_block_number m →
         blocks (database m) !! k = None.
Proof.
  intros Hi. apply block_check_iter_inv in Hi as [(? & _)|(blk & _ & Hi)]; [done|].
  destruct Hi as [(_ & -> & n & Hrow & Hh & Hn & ->)|[(? & _)|[(? & _)|(rf & Hi & _)]]];
    try done.
  - apply highest_block_below_Some in Hh as (Hlt & Hsome & Hmax). simpl.
    repeat split; try done.
    intros k [Hk1 Hk2]. destruct (decide (k = last_block_number m)) as [->|Hne];
      [done|].
    destruct (blocks (database m) !! k) as [r|] eqn:Hr; [|done].
    assert (k ≤ n) by (apply Hmax; [eauto|lia]). lia.
  - apply ingest_block_inv in Hi as [(? & _)|(? & [|] & ? & ? & _ & _ & Hi)];
      [done| |]; by destruct Hi.
Qed.

(** X5. An iteration that ends the loop with [break] leaves the
    high-water mark, the shutdown flag, the pending map and the database as
    they were.  Either the node call failed or returned no block: then nothing
    was sent and [_last_saw_new_block] keeps its value.  Or the block was
    there, its bloom filter was not empty and [eth_getLogs] failed: then
    [update_default_gas_price] was sent and [_last_saw_new_block] is the clock
    reading of this iteration. *)
Theorem block_check_iter_break (nd : node) (m m' : monitor) (sent : list message)
    (now last_saw_new_block : Q) :
  block_check_iter nd m = (IterBreak, m', sent) →
  last_block_number m' = last_block_number m
  ∧ _shutdown m' = _shutdown m
  ∧ unconfirmed_txs m' = unconfirmed_txs m
  ∧ database m' = database m
  ∧ ((sent = []
      ∧ (∀ blk, eth_getBlockByNumber nd (last_block_number m + 1)
                ≠ RpcOk (Some blk))
      ∧ _last_saw_new_block nd m now last_saw_new_block = last_saw_new_block)
     ∨ (sent = [update_default_gas_price (last_block_number m + 1)]
        ∧ (∃ blk, eth_getBlockByNumber nd (last_block_number m + 1)
                  = RpcOk (Some blk)
                  ∧ b_logsBloom blk ≠ EMPTY_BLOOM
                  ∧ eth_getLogs nd (b_number blk) = RpcError)
        ∧ _last_saw_new_block nd m now last_saw_new_block = now)).
Proof.
  intros Hi. unfold _last_saw_new_block.
  apply block_check_iter_inv in Hi as [(_ & -> & -> & Hno)|(blk & Hblk & Hi)].
  - do 4 (split; [reflexivity|]). left. split; [reflexivity|].
    split; [exact Hno|].
    destruct (eth_getBlockByNumber nd (last_block_number m + 1)) as [[blk|]|];
      [|reflexivity..].
    exfalso. exact (Hno blk eq_refl).
  - rewrite Hblk.
    destruct Hi as [(Hit & _)|[(Hit & _)|[(Hit & _)|(rf & Hi & _)]]];
      [discriminate Hit..|].
    apply ingest_block_inv in Hi
      as [(_ & -> & -> & Hbloom & Hlogs)|(? & [|] & ? & ? & _ & _ & Hi)].
    + do 4 (split; [reflexivity|]). right. split; [reflexivity|].
      split; [|reflexivity]. exists blk.
      split; [reflexivity|]. split; [exact Hbloom|exact Hlogs].
    + destruct Hi as (Hit & _). discriminate Hit.
    + destruct Hi as (Hit & _). discriminate Hit.
Qed.

(** X6. An iteration that stores the block writes the row of the block
    number the node reported, with the hash and the parent hash of the node's
    block, [stale = false], and the block's timestamp or, when that is 0, the
    wall clock; no other block row changes.  The first message is
    [update_default_gas_price], the last one [notify_new_block].  With a node
    that answers with the block asked for, the high-water mark goes up by
    exactly one. *)
Theorem block_check_iter_persisted (nd : node) (m m' : monitor)
    (reorg_failed : bool) (sent : list message) :
  block_check_iter nd m = (IterPersisted reorg_failed, m', sent) →
  ∃ blk,
    eth_getBlockByNumber nd (last_block_number m + 1) = RpcOk (Some blk)
    ∧ blocks (database m') !! parse_int (b_number blk)
      = Some {| timestamp := if bool_decide (parse_int (b_timestamp blk) = 0)
                             then wall_clock nd
                             else parse_int (b_timestamp blk);
                hash := b_hash blk;
                parent_hash := b_parentHash blk;
                stale := false |}
    ∧ (∀ k, k ≠ parse_int (b_number blk) →
            blocks (database m') !! k = blocks (database m) !! k)
    ∧ head sent = Some (update_default_gas_price (last_block_number m + 1))
    ∧ last sent = Some (notify_new_block (parse_int (b_number blk)))
    ∧ last_block_number m ≤ last_block_number m'
    ∧ (node_numbers nd → last_block_number m' = last_block_number m + 1).
Proof.
  intros Hi. apply block_check_iter_inv in Hi as [(? & _)|(blk & Hblk & Hi)]; [done|].
  exists blk. split; [done|].
  destruct Hi as [(? & _)|[(? & _)|[(? & _)|(rf & Hi & _)]]]; try done.
  apply ingest_block_inv in Hi
    as [(? & _)|(logs & [|] & d1 & sent1 & _ & Hp & Hi)]; [done|by destruct Hi|].
  destruct Hi as (_ & Hl & _ & _ & -> & ->).
  apply process_transactions_blocks in Hp. simpl. rewrite Hp.
  split; [by rewrite upsert_block_lookup, bool_decide_eq_true_2|].
  split; [intros k Hk; by rewrite upsert_block_lookup, bool_decide_eq_false_2|].
  split; [done|]. split.
  { rewrite (app_assoc sent1), app_comm_cons. apply last_snoc. }
  split; [lia|]. intros Hnode. apply Hnode in Hblk. lia.
Qed.

(** X7. The stored [last_blocknumber] table never goes down: whatever an
    iteration of the block-check loop does (a stored block, a gap rewind, a
    reorg, a break or an exception), every row of the table is at least what
    it was, and the table keeps its rows. *)
Theorem block_check_iter_table_monotone (nd : node) (m m' : monitor)
    (it : iteration) (sent : list message) :
  block_check_iter nd m = (it, m', sent) →
  Forall2 Z.le (last_blocknumber (database m)) (last_blocknumber (database m')).
Proof.
  intros Hi. apply block_check_iter_inv in Hi as [(_ & -> & _)|(blk & _ & Hi)];
    [apply Forall2_le_refl|].
  destruct Hi as [(_ & _ & n & _ & _ & _ & ->)|[(_ & _ & Hr)|[(_ & _ & -> & _)|(rf & Hi & _)]]];
    try apply Forall2_le_refl.
  - pose proof (handle_reorg_frame nd m) as Hf. rewrite Hr in Hf.
    destruct Hf as (_ & _ & _ & _ & -> & _). apply Forall2_le_refl.
  - apply ingest_block_inv in Hi
      as [(_ & -> & _)|(logs & raised & d1 & sent1 & _ & Hp & Hi)];
      [apply Forall2_le_refl|].
    apply process_transactions_others in Hp as (Hlb & _ & _).
    destruct raised.
    + destruct Hi as (_ & -> & _). simpl. rewrite Hlb. apply Forall2_le_refl.
    + destruct Hi as (_ & _ & _ & _ & -> & _). simpl. rewrite Hlb.
      apply bump_high_water_le.
Qed.

Lemma find_fork_with_getLogs (f : string → rpc (list log)) (fuel : nat)
    (nd : node) (b : gmap Z block_row) (last blocknumber : Z) :
  find_fork fuel (with_getLogs f nd) b last blocknumber
  = find_fork fuel nd b last blocknumber.
Proof.
  revert blocknumber. induction fuel as [|fuel IH]; intros blocknumber; [done|].
  cbn [find_fork]. change (bulk_execute (with_getLogs f nd)) with (bulk_execute nd).
  destruct (bulk_execute nd _); [|done].
  destruct (compare_batch _ _); [done|done|].
  case_bool_decide; [done|]. apply IH.
Qed.

(** X8. A block whose [logsBloom] is all zero is processed without
    [eth_getLogs]: the iteration is the same whatever that call would answer,
    also if it would fail, and no filter notification is sent. *)
Theorem empty_bloom_skips_logs (nd : node) (m : monitor) (blk : block)
    (f : string → rpc (list log)) :
  eth_getBlockByNumber nd (last_block_number m + 1) = RpcOk (Some blk) →
  b_logsBloom blk = EMPTY_BLOOM →
  block_check_iter (with_getLogs f nd) m = block_check_iter nd m
  ∧ Forall (λ msg, is_filter_notification msg = false) (block_check_iter nd m).2.
Proof.
  intros Hblk Hbloom.
  assert (Hnb : bool_decide (b_logsBloom blk ≠ EMPTY_BLOOM) = false)
    by (apply bool_decide_eq_false_2; tauto).
  clear Hbloom.
  assert (Hingest : ∀ m0 rf sent,
    ingest_block (with_getLogs f nd) m0 blk rf sent = ingest_block nd m0 blk rf sent).
  { intros m0 rf sent. unfold ingest_block. rewrite !Hnb. reflexivity. }
  assert (Hreorg : handle_reorg (with_getLogs f nd) m = handle_reorg nd m).
  { unfold handle_reorg. rewrite find_fork_with_getLogs. reflexivity. }
  split.
  - unfold block_check_iter.
    change (eth_getBlockByNumber (with_getLogs f nd))
      with (eth_getBlockByNumber nd).
    rewrite Hblk, Hreorg.
    destruct (handle_reorg nd m) as [[|] ?|]; rewrite ?Hingest; reflexivity.
  - destruct (block_check_iter nd m) as [[it m'] sent] eqn:Hi. simpl.
    apply block_check_iter_inv in Hi as [(_ & _ & -> & _)|(blk' & Hblk' & Hi)];
      [constructor|].
    rewrite Hblk in Hblk'. injection Hblk' as <-.
    destruct Hi as [(_ & Hs & _)|[(_ & Hs & _)|[(_ & Hs & _)|(rf & Hi & _)]]];
      [subst sent; apply Forall_singleton; reflexivity..|].
    apply ingest_block_inv in Hi
      as [(_ & _ & Hs & _)|(logs & raised & d1 & sent1 & Hlogs & Hp & Hi)];
      [subst sent; apply Forall_singleton; reflexivity|].
    rewrite Hnb in Hlogs. injection Hlogs as <-.
    apply process_transactions_others in Hp as (_ & _ & Hsent1).
    assert (Hs1 : Forall (λ msg, is_filter_notification msg = false) sent1).
    { eapply Forall_impl; [exact Hsent1|]. intros msg (id & st & ->). reflexivity. }
    destruct raised.
    + destruct Hi as (_ & _ & ->). apply Forall_cons. split; [reflexivity|exact Hs1].
    + destruct Hi as (_ & _ & _ & _ & _ & ->).
      apply Forall_cons. split; [reflexivity|].
      apply Forall_app. split; [exact Hs1|].
      apply Forall_singleton. reflexivity.
Qed.

Lemma block_check_iter_shutdown (nd : node) (m m' : monitor) (it : iteration)
    (sent : list message) :
  block_check_iter nd m = (it, m', sent) → _shutdown m' = _shutdown m.
Proof.
  intros Hi. apply block_check_iter_inv in Hi as [(_ & -> & _)|(blk & _ & Hi)];
    [done|].
  destruct Hi as [(_ & _ & n & _ & _ & _ & ->)|[(_ & _ & Hr)|[(_ & _ & -> & _)|(rf & Hi & _)]]];
    try done.
  - unfold handle_reorg in Hr. destruct (find_fork _ _ _ _ _); by simplify_eq.
  - apply ingest_block_inv in Hi
      as [(_ & -> & _)|(logs & [|] & d1 & sent1 & _ & _ & Hi)]; [done| |].
    + by destruct Hi as (_ & -> & _).
    + by destruct Hi as (_ & _ & -> & _).
Qed.

(* One iteration, for the induction on the run. *)
Lemma block_check_iter_linked (nd : node) (m m' : monitor) (it : iteration)
    (sent : list message) :
  block_check_iter nd m = (it, m', sent) →
  node_numbers nd →
  chain_consistent (blocks (database m)) →
  stale_above (blocks (database m)) (last_block_number m) →
  it ≠ IterPersisted true →
  chain_consistent (blocks (database m'))
  ∧ stale_above (blocks (database m')) (last_block_number m').
Proof.
  intros Hi Hnode Hchain Hstale Hnofail. apply block_check_iter_cases in Hi.
  destruct Hi as [it _ Hl Hb|n Hrow Hh ->|Hr|rf blk ts Hblk Hl Hb Hrf].
  - rewrite Hl, Hb. done.
  - split; [done|]. simpl. intros k r Hk Hlt.
    apply highest_block_below_Some in Hh as (Hn & _ & Hmax).
    destruct (decide (last_block_number m < k)) as [Hgt|Hle].
    + by eapply Hstale.
    + destruct (decide (k = last_block_number m)) as [->|Hne]; [congruence|].
      assert (k ≤ n) by (apply Hmax; [eauto|lia]). lia.
  - apply handle_reorg_success in Hr as (f & _ & Hle & -> & ->). split.
    + intros n r r'. rewrite !lookup_mark_stale_above.
      destruct (blocks (database m) !! n) as [r0|] eqn:H0; [|done].
      destruct (blocks (database m) !! (n + 1)) as [r1|] eqn:H1; [|done].
      simpl. intros [= <-] [= <-].
      repeat case_bool_decide; simpl; try done. by eapply Hchain.
    + intros k r. rewrite lookup_mark_stale_above.
      destruct (blocks (database m) !! k) as [r0|]; [|done]. simpl.
      intros [= <-] Hk. by rewrite bool_decide_eq_true_2.
  - destruct rf; [done|]. apply Hnode in Hblk as Hnum.
    rewrite Hnum in Hl, Hb. rewrite Hl, Hb.
    replace (Z.max (last_block_number m) (last_block_number m + 1))
      with (last_block_number m + 1) by lia.
    split.
    + intros n r r'. rewrite !upsert_block_lookup.
      case_bool_decide as Hn; case_bool_decide as Hn1; try lia.
      * intros _ Hr' _ Hs'.
        assert (stale r' = true) by (eapply Hstale; [done|lia]). congruence.
      * intros Hr [= <-] _ _. simpl. assert (n = last_block_number m) as -> by lia.
        symmetry. by apply Hrf.
      * apply Hchain.
    + intros k r. rewrite upsert_block_lookup. case_bool_decide; [lia|].
      intros Hk Hlt. eapply Hstale; [done|lia].
Qed.

(** X9. A whole run of the block-check loop keeps the chain linked: from
    a store whose consecutive non-stale rows are linked by their hashes and
    whose rows above the high-water mark are stale, with a node that answers
    with the block asked for, a run in which no iteration stores a block after
    a failed reorg ends in a store with both properties; and the run never
    flips the shutdown flag. *)
Theorem block_check_chain (fuel : nat) (nd : node) (m m' : monitor)
    (sent : list message) (its : list iteration) :
  block_check fuel nd m = Some (m', sent, its) →
  node_numbers nd →
  chain_consistent (blocks (database m)) →
  stale_above (blocks (database m)) (last_block_number m) →
  IterPersisted true ∉ its →
  chain_consistent (blocks (database m'))
  ∧ stale_above (blocks (database m')) (last_block_number m')
  ∧ _shutdown m' = _shutdown m.
Proof.
  intros Hrun Hnode. revert m sent its Hrun.
  induction fuel as [|fuel IH]; intros m sent its; simpl; [done|].
  destruct (_shutdown m) eqn:Hsh; [by intros [= <- _ _]|].
  destruct (block_check_iter nd m) as [[it m1] sent1] eqn:Hi.
  intros Hrun Hchain Hstale Hits.
  assert (Hstep : it ≠ IterPersisted true →
                  chain_consistent (blocks (database m1))
                  ∧ stale_above (blocks (database m1)) (last_block_number m1)).
  { intros Hit. by eapply block_check_iter_linked. }
  pose proof (block_check_iter_shutdown _ _ _ _ _ Hi) as Hsh1.
  assert (Hloop : ∀ its0 sent2,
            block_check fuel nd m1 = Some (m', sent2, its0) →
            IterPersisted true ∉ it :: its0 →
            chain_consistent (blocks (database m'))
            ∧ stale_above (blocks (database m')) (last_block_number m')
            ∧ _shutdown m' = false).
  { intros its0 sent2 Hrec Hnot.
    apply not_elem_of_cons in Hnot as [Hit Hnot].
    destruct (Hstep ltac:(congruence)) as [Hc1 Hs1].
    destruct (IH _ _ _ Hrec Hc1 Hs1 Hnot) as (? & ? & Hsh2).
    split; [done|]. split; [done|]. congruence. }
  destruct it; simplify_eq;
    try (destruct (block_check fuel nd m1) as [[[m2 sent2] its0]|] eqn:Hrec;
         [|done]; simplify_eq; by eapply Hloop).
  - destruct Hstep as [? ?]; [done|]. split; [done|]. split; [done|]. congruence.
  - destruct Hstep as [? ?]; [done|]. split; [done|]. split; [done|]. congruence.
Qed.

(** ** The transaction classifier *)

Lemma set_row_blocknumber_same (n id : Z) (r : transaction_row) :
  same_but_blocknumber r (set_row_blocknumber n id r).
Proof. unfold set_row_blocknumber, same_but_blocknumber. by case_bool_decide. Qed.

Lemma set_row_blocknumber_ids (n id : Z) (l : list transaction_row) :
  transaction_id <$> (set_row_blocknumber n id <$> l) = transaction_id <$> l.
Proof.
  rewrite <- list_fmap_compose. apply list_fmap_ext. intros i r _. simpl.
  apply set_row_blocknumber_same.
Qed.

(** X10. The classifier keeps the keys of [transactions] in order: when
    they are pairwise different and below the key sequence before an
    invocation, they are so after it, and the sequence never goes back. *)
Theorem process_transaction_ids (d d' : db) (tx : transaction) (is_reorg : bool)
    (r : tx_result) (sent : list message) :
  process_transaction d tx is_reorg = (r, d', sent) →
  ids_fresh d →
  NoDup (transaction_id <$> transactions d) →
  ids_fresh d' ∧ NoDup (transaction_id <$> transactions d')
  ∧ transactions_seq d ≤ transactions_seq d'.
Proof.
  intros Hp Hfresh Hnd.
  assert (Hids : ∀ l, transaction_id <$> l = transaction_id <$> transactions d →
                      ∀ x, x ∈ l → transaction_id x < transactions_seq d).
  { intros l Hl x Hx.
    assert (Hin : transaction_id x ∈ transaction_id <$> transactions d).
    { rewrite <- Hl. apply list_elem_of_fmap. eauto. }
    apply list_elem_of_fmap in Hin as (y & -> & Hy). by apply Hfresh. }
  apply process_transaction_cases in Hp as (last_sent & _ & Hcase).
  inversion Hcase as [db_tx r' [Htx|(k & id & Htx)] Hseq|row Htx Hseq|Htx Hseq Hdb];
    subst; unfold ids_fresh; rewrite Htx, Hseq.
  - done.
  - rewrite set_row_blocknumber_ids. split; [|done].
    apply Hids. apply set_row_blocknumber_ids.
  - done.
  - split; [|split; [|lia]].
    + intros x Hx. apply elem_of_app in Hx as [Hx|Hx].
      * apply Hfresh in Hx. lia.
      * apply list_elem_of_singleton in Hx as ->. simpl. lia.
    + rewrite fmap_app. apply NoDup_app. split; [done|]. split.
      * intros x Hx Hx'. apply list_elem_of_singleton in Hx' as ->.
        apply list_elem_of_fmap in Hx as (y & Hy & Hin). apply Hfresh in Hin.
        simpl in Hy. lia.
      * apply NoDup_singleton.
Qed.

(** X11. The classifier deletes no row of [transactions] and rewrites
    none: after an invocation every stored row is at its place with the same
    key, hash, sender, nonce, status and signature (only its [blocknumber] may
    differ), and at most one row was appended.  In particular the monitor never
    writes a status. *)
Theorem process_transaction_keeps_rows (d : db) (tx : transaction)
    (is_reorg : bool) :
  let d' := (process_transaction d tx is_reorg).1.2 in
  (length (transactions d) ≤ length (transactions d')
   ≤ length (transactions d) + 1)%nat
  ∧ ∀ i row, transactions d !! i = Some row →
      ∃ row', transactions d' !! i = Some row' ∧ same_but_blocknumber row row'.
Proof.
  destruct (process_transaction d tx is_reorg) as [[r d'] sent] eqn:Hp. simpl.
  assert (Hrefl : ∀ row, same_but_blocknumber row row) by done.
  apply process_transaction_cases in Hp as (last_sent & _ & Hcase).
  inversion Hcase as [db_tx r' [Htx|(k & id & Htx)] Hseq|row Htx Hseq|Htx Hseq Hdb];
    subst; rewrite Htx.
  - split; [lia|]. eauto.
  - rewrite length_fmap. split; [lia|]. intros i row Hi.
    rewrite list_lookup_fmap, Hi. simpl. eexists. split; [done|].
    apply set_row_blocknumber_same.
  - split; [lia|]. eauto.
  - rewrite length_app. simpl. split; [lia|]. intros i row Hi.
    exists row. split; [|done]. apply lookup_app_l_Some. done.
Qed.

Lemma no_registrations_no_interest (d : db) (a b : string) :
  notification_registrations d = [] → token_registrations d = [] →
  notification_interest d a b = false ∧ token_interest d a b = false.
Proof.
  intros Hn Ht. unfold notification_interest, token_interest. rewrite Hn, Ht.
  split; apply bool_decide_eq_false_2; intros [Hx|Hx];
    by apply elem_of_nil in Hx.
Qed.

(** X12. With nobody registered ([notification_registrations] and
    [token_registrations] empty) a transaction whose sender and nonce match no
    stored row is ignored: nothing is written and nothing is sent, whether it
    is pending or confirmed and whatever its logs and input. *)
Theorem process_transaction_nobody_registered (d : db) (tx : transaction)
    (is_reorg : bool) :
  notification_registrations d = [] →
  token_registrations d = [] →
  filter (same_from_nonce tx) (transactions d) = [] →
  process_transaction d tx is_reorg = (TxReturned None, d, [])
  ∨ process_transaction d tx is_reorg = (TxRaised, d, []).
Proof.
  intros Hn Ht Hrows. unfold process_transaction, find_db_tx. rewrite Hrows.
  simpl.
  destruct (extract_transfers _ _ _ _ _) as [ts|]; [|by right].
  left. unfold is_interesting.
  destruct (no_registrations_no_interest d (default "0x" (tx_to tx)) (tx_from tx)
              Hn Ht) as [-> _].
  replace (existsb (transfer_interest d) ts) with false; [done|].
  symmetry. induction ts as [|e ts IH]; [done|]. simpl. rewrite IH.
  unfold transfer_interest.
  by destruct (no_registrations_no_interest d (e_to_address e) (e_from_address e)
                 Hn Ht) as [-> ->].
Qed.

(** X13. While a block is processed again ([is_reorg]), a transaction
    whose record has the same hash and is already [confirmed] is only moved to
    its new block: no message is sent, no token row is written, and the only
    column that may change is the [blocknumber] of the rows with that key;
    when the block number is the stored one nothing changes at all. *)
Theorem process_transaction_reorg_confirmed (d : db) (tx : transaction)
    (row : transaction_row) (bn : string) :
  find_db_tx d tx = Some row →
  t_hash row = tx_hash tx →
  t_status row = confirmed →
  tx_blockNumber tx = Some bn →
  ∃ d',
    process_transaction d tx true = (TxReturned (Some (transaction_id row)), d', [])
    ∧ token_transactions d' = token_transactions d
    ∧ transactions_seq d' = transactions_seq d
    ∧ (blocknumber row = Some (parse_int bn) → d' = d)
    ∧ (blocknumber row ≠ Some (parse_int bn) →
       transactions d'
       = set_row_blocknumber (parse_int bn) (transaction_id row) <$> transactions d).
Proof.
  intros Hfind Hhash Hst Hbn. unfold process_transaction. rewrite Hfind. simpl.
  unfold is_overwritten. rewrite bool_decide_eq_false_2 by tauto. simpl.
  rewrite !bool_decide_eq_true_2 by done. simpl. rewrite Hbn.
  case_bool_decide as Hne.
  - eexists. split; [done|]. simpl. repeat split; first [done|congruence].
  - exists d. repeat split; first [done|congruence].
Qed.

(** X14. The guess from the input of a pending transaction gives at most
    one token transfer, always with log index 0 and status [unconfirmed], on
    the contract the transaction is sent to or on the WETH contract. *)
Theorem pending_transfers_shape (tx : transaction) (to_addr from_addr : string) :
  match pending_transfers tx to_addr from_addr with
  | None => True
  | Some ts =>
      (length ts ≤ 1)%nat
      ∧ Forall (λ e, e_log_index e = 0 ∧ e_status e = unconfirmed
                     ∧ (e_contract_address e = to_addr
                        ∨ e_contract_address e = WETH_CONTRACT_ADDRESS)) ts
  end.
Proof.
  unfold pending_transfers.
  assert (Hnil : (length (@nil erc20_transfer) ≤ 1)%nat
                 ∧ Forall (λ e, e_log_index e = 0 ∧ e_status e = unconfirmed
                                ∧ (e_contract_address e = to_addr
                                   ∨ e_contract_address e = WETH_CONTRACT_ADDRESS))
                          []).
  { split; [simpl; lia|constructor]. }
  case_bool_decide; [exact Hnil|].
  destruct (_ || _).
  - destruct (int16 _); [|done].
    destruct (startswith _ "0x23b872dd"); (split; [simpl; lia|]);
      apply Forall_singleton; simpl; tauto.
  - destruct (_ && _).
    + split; [simpl; lia|]. apply Forall_singleton; simpl; tauto.
    + destruct (_ && _); [|exact Hnil].
      destruct (int16 _); [|done].
      split; [simpl; lia|]. apply Forall_singleton; simpl; tauto.
Qed.

Lemma token_interest_comm (d : db) (a b : string) :
  token_interest d a b = token_interest d b a.
Proof. unfold token_interest. apply bool_decide_ext. tauto. Qed.

Ltac no_transfer := split; [simpl; lia|constructor].

Lemma log_transfers_shape (d : db) (_log : log) :
  match log_transfers d _log with
  | None => True
  | Some ts =>
      (length ts ≤ 1)%nat
      ∧ Forall (λ e, e_status e = confirmed
                     ∧ (e_from_address e ∈ token_registrations d
                        ∨ e_to_address e ∈ token_registrations d)
                     ∧ transfer_interest d e = true
                     ∧ e_log_index e = get_transaction_log_index _log
                     ∧ (is_known_token d (e_contract_address e) = true
                        ∨ e_contract_address e = WETH_CONTRACT_ADDRESS)) ts
  end.
Proof.
  unfold log_transfers.
  destruct (l_topics _log) as [|topic0 topics] eqn:Htopics; [no_transfer|].
  case_bool_decide as Htransfer.
  - destruct (is_known_token d (l_address _log)) eqn:Hknown; simpl; [|no_transfer].
    match goal with
    | |- context [match ?x with Some _ => _ | None => Some [] end] =>
        destruct x as [[[f t] val]|]
    end; [|no_transfer].
    destruct (token_interest d f t) eqn:Hint; [|no_transfer].
    split; [simpl; lia|]. apply Forall_singleton. simpl.
    split; [done|]. split.
    { unfold token_interest in Hint. by apply bool_decide_eq_true in Hint. }
    unfold transfer_interest. simpl.
    rewrite token_interest_comm, Hint, orb_true_r. tauto.
  - case_bool_decide as Hweth; [|no_transfer].
    destruct (_ !! 1%nat) as [t1|]; [|done].
    case_bool_decide as Hreg; [|no_transfer].
    destruct (if bool_decide (topic0 = DEPOSIT_TOPIC) then _ else _)
      as [f t] eqn:Hft.
    split; [simpl; lia|]. apply Forall_singleton. simpl.
    assert (Hend : f ∈ token_registrations d ∨ t ∈ token_registrations d).
    { case_bool_decide; simplify_eq; tauto. }
    split; [done|]. split; [exact Hend|]. split; [|by split; [|right]].
    unfold transfer_interest, token_interest. simpl.
    apply orb_true_iff. right. apply bool_decide_eq_true_2. tauto.
Qed.

(** X15. Every token transfer read from the logs of a confirmed
    transaction has status [confirmed], the log index of its log, its sender
    or its recipient in [token_registrations] (so it passes the interest test
    before the upsert), and the contract of a known token or the WETH
    contract; a log gives at most one transfer. *)
Theorem confirmed_transfers_shape (d : db) (logs : list log) :
  match confirmed_transfers d logs with
  | None => True
  | Some ts =>
      (length ts ≤ length logs)%nat
      ∧ Forall (λ e, e_status e = confirmed
                     ∧ (e_from_address e ∈ token_registrations d
                        ∨ e_to_address e ∈ token_registrations d)
                     ∧ transfer_interest d e = true
                     ∧ (∃ l, l ∈ logs
                             ∧ e_log_index e = get_transaction_log_index l)
                     ∧ (is_known_token d (e_contract_address e) = true
                        ∨ e_contract_address e = WETH_CONTRACT_ADDRESS)) ts
  end.
Proof.
  induction logs as [|l logs IH]; simpl; [no_transfer|].
  pose proof (log_transfers_shape d l) as Hl.
  destruct (log_transfers d l) as [ts|]; [|done].
  destruct (confirmed_transfers d logs) as [ts'|]; [|done].
  destruct Hl as [Hlen Hall], IH as [Hlen' Hall'].
  split; [rewrite length_app; lia|]. apply Forall_app. split.
  - eapply Forall_impl; [exact Hall|]. intros e (? & ? & ? & ? & ?).
    repeat split; try done. exists l. split; [apply list_elem_of_here|done].
  - eapply Forall_impl; [exact Hall'|]. intros e (? & ? & ? & (l' & ? & ?) & ?).
    repeat split; try done. exists l'. split; [by apply list_elem_of_further|done].
Qed.

Lemma store_transfers_cons (d : db) (id : Z) (e : erc20_transfer)
    (ts : list erc20_transfer) :
  store_transfers d id (e :: ts)
  = store_transfers
      (if transfer_interest d e
       then set_token_transactions (upsert_token_transaction id e) d else d)
      id ts.
Proof. done. Qed.

Lemma upsert_token_transaction_other (id : Z) (e : erc20_transfer)
    (tt : gmap (Z * Z) token_transaction_row) (key : Z * Z) :
  key ≠ (id, e_log_index e) → upsert_token_transaction id e tt !! key = tt !! key.
Proof.
  intros Hne. unfold upsert_token_transaction.
  destruct (tt !! (id, e_log_index e)); by rewrite lookup_insert_ne.
Qed.

Lemma store_transfers_other_keys (d : db) (id : Z) (ts : list erc20_transfer)
    (key : Z * Z) :
  (∀ e, e ∈ ts → key ≠ (id, e_log_index e)) →
  token_transactions (store_transfers d id ts) !! key = token_transactions d !! key.
Proof.
  revert d. induction ts as [|e ts IH]; intros d Hkey; [done|].
  rewrite store_transfers_cons, IH
    by (intros e' He'; apply Hkey; by apply list_elem_of_further).
  destruct (transfer_interest d e); [|done]. simpl.
  apply upsert_token_transaction_other. apply Hkey. apply list_elem_of_here.
Qed.

(** X16. After the token transfers of a transaction are stored, with
    pairwise different log indexes, each transfer with a registered endpoint
    has its row under [(transaction_id, log index)] with its sender,
    recipient and value.  A row that was there before keeps its contract
    address and its status (the conflict clause updates the three other
    columns only); a new row takes them from the transfer. *)
Theorem store_transfers_lookup (d : db) (id : Z) (ts : list erc20_transfer)
    (e : erc20_transfer) :
  NoDup (e_log_index <$> ts) →
  e ∈ ts →
  transfer_interest d e = true →
  ∃ row,
    token_transactions (store_transfers d id ts) !! (id, e_log_index e) = Some row
    ∧ tt_from_address row = e_from_address e
    ∧ tt_to_address row = e_to_address e
    ∧ tt_value row = e_value e
    ∧ match token_transactions d !! (id, e_log_index e) with
      | Some old =>
          tt_contract_address row = tt_contract_address old
          ∧ tt_status row = tt_status old
      | None =>
          tt_contract_address row = e_contract_address e
          ∧ tt_status row = e_status e
      end.
Proof.
  revert d. induction ts as [|e0 ts IH]; intros d Hnd He Hint.
  { by apply elem_of_nil in He. }
  rewrite fmap_cons in Hnd. apply NoDup_cons in Hnd as [Hnotin Hnd].
  rewrite store_transfers_cons.
  apply elem_of_cons in He as [->|He].
  - rewrite Hint, store_transfers_other_keys.
    + simpl. unfold upsert_token_transaction.
      destruct (token_transactions d !! (id, e_log_index e0)) as [old|];
        rewrite lookup_insert_eq; eexists; by split.
    + intros e' He' [= Heq]. apply Hnotin. rewrite Heq.
      apply list_elem_of_fmap. eauto.
  - assert (Hidx : e_log_index e ≠ e_log_index e0).
    { intros Heq. apply Hnotin. rewrite <- Heq. apply list_elem_of_fmap. eauto. }
    destruct (transfer_interest d e0).
    + destruct (IH (set_token_transactions (upsert_token_transaction id e0) d)
                  Hnd He Hint) as (row & Hrow & Hf & Ht & Hv & Hold).
      exists row. repeat split; try done.
      simpl in Hold. rewrite upsert_token_transaction_other in Hold; [done|].
      intros [= Heq]. done.
    + by apply IH.
Qed.

(** X17. A contract creation ([to] null) that is inserted is stored with
    [to_address = "0x"]: when no stored row has its sender and nonce and the
    classifier returns an id, that id is the next key of [transactions] and
    the last row of the table is the new row, with the hash of the transaction
    and ["0x"] as recipient. *)
Theorem process_transaction_contract_creation (d d' : db) (tx : transaction)
    (is_reorg : bool) (id : Z) (sent : list message) :
  tx_to tx = None →
  find_db_tx d tx = None →
  process_transaction d tx is_reorg = (TxReturned (Some id), d', sent) →
  id = transactions_seq d
  ∧ last (transactions d') = Some (new_transaction_row id tx "0x")
  ∧ to_address (new_transaction_row id tx "0x") = "0x"
  ∧ t_hash (new_transaction_row id tx "0x") = tx_hash tx
  ∧ sent = [update_transaction id (new_status tx)].
Proof.
  intros Hto Hfind. unfold process_transaction, insert_transaction.
  rewrite Hfind, Hto. simpl.
  destruct (extract_transfers _ _ _ _ _) as [ts|]; [|done].
  match goal with
  | |- context [if negb ?b then _ else _] => destruct b
  end; simpl; [|done].
  intros [= <- <- <-]. rewrite store_transfers_transactions. simpl.
  split; [done|]. split; [apply last_snoc|done].
Qed.

(** X18. When the only stored row with the sender and nonce of a
    transaction is in status ['error'], that row is taken as the record of
    the transaction, whatever its hash: no row is inserted, the token
    transfers are stored under the key of the old row and the final
    [update_transaction] carries that key. *)
Theorem process_transaction_error_row (d : db) (tx : transaction)
    (is_reorg : bool) (old : transaction_row) :
  filter (same_from_nonce tx) (transactions d) = [old] →
  t_status old = error →
  match extract_transfers d tx (Some old) (default "0x" (tx_to tx)) (tx_from tx) with
  | None => process_transaction d tx is_reorg = (TxRaised, d, [])
  | Some ts =>
      process_transaction d tx is_reorg
      = (TxReturned (Some (transaction_id old)),
         store_transfers d (transaction_id old) ts,
         [update_transaction (transaction_id old) (new_status tx)])
      ∧ transactions (store_transfers d (transaction_id old) ts) = transactions d
  end.
Proof.
  intros Hrows Hst. unfold process_transaction, find_db_tx. rewrite Hrows. simpl.
  unfold is_overwritten. rewrite bool_decide_eq_false_2 by tauto. simpl.
  rewrite (bool_decide_eq_false_2 (t_status old = confirmed)) by congruence.
  rewrite andb_false_r.
  destruct (extract_transfers _ _ _ _ _) as [ts|]; [|done]. simpl.
  split; [done|]. apply store_transfers_transactions.
Qed.

(** ** The pending-transaction processor *)

Lemma process_unconfirmed_entry_frame (now : Q) (response : rpc (option transaction))
    (h : string) (created : Z) (m m' : monitor) (r : entry_result)
    (sent : list message) :
  process_unconfirmed_entry now response h created m = (r, m', sent) →
  (unconfirmed_txs m' = unconfirmed_txs m
   ∨ unconfirmed_txs m' = delete h (unconfirmed_txs m))
  ∧ _shutdown m' = _shutdown m
  ∧ last_block_number m' = last_block_number m
  ∧ blocks (database m') = blocks (database m).
Proof.
  unfold process_unconfirmed_entry.
  destruct (match response with RpcOk t => t | RpcError => None end) as [tx|].
  - destruct (tx_blockNumber tx).
    + intros [= <- <- <-]. simpl. tauto.
    + destruct (process_transaction _ _ _) as [[r0 d] sent0] eqn:Hp.
      intros [= <- <- <-]. simpl.
      apply process_transaction_blocks in Hp. tauto.
  - destruct (expired now created); intros [= <- <- <-]; simpl; tauto.
Qed.

Lemma process_unconfirmed_loop_frame (clock : string → Q) (nd : node)
    (items : list (string * Z)) (m : monitor) :
  let m' := (process_unconfirmed_loop clock nd items m).1 in
  unconfirmed_txs m' ⊆ unconfirmed_txs m
  ∧ _shutdown m' = _shutdown m
  ∧ last_block_number m' = last_block_number m
  ∧ blocks (database m') = blocks (database m).
Proof.
  revert m. induction items as [|[h created] items IH]; intros m; simpl; [done|].
  destruct (process_unconfirmed_entry _ _ _ _ _) as [[r m1] sent1] eqn:He.
  apply process_unconfirmed_entry_frame in He as (Hpm & Hsh & Hl & Hb).
  assert (Hsub : unconfirmed_txs m1 ⊆ unconfirmed_txs m).
  { destruct Hpm as [-> | ->]; [done|]. apply delete_subseteq. }
  destruct r; [|done].
  destruct (_shutdown m1) eqn:Hs1; [simpl; by rewrite <- Hsh|].
  specialize (IH m1).
  destruct (process_unconfirmed_loop clock nd items m1) as [m2 sent2]. simpl in *.
  destruct IH as (Hsub2 & Hsh2 & Hl2 & Hb2).
  split; [by etrans|]. split; [congruence|]. split; congruence.
Qed.

(** X19. A run of the pending-transaction processor only removes entries
    from the pending map: every hash that is pending afterwards was pending
    before with the same first-seen time.  The run also leaves the
    high-water mark, the shutdown flag and the block rows alone. *)
Theorem process_unconfirmed_transactions_shrinks (clock : string → Q)
    (nd : node) (m : monitor) :
  let m' := (process_unconfirmed_transactions clock nd m).1 in
  (∀ h created, unconfirmed_txs m' !! h = Some created →
                unconfirmed_txs m !! h = Some created)
  ∧ _shutdown m' = _shutdown m
  ∧ last_block_number m' = last_block_number m
  ∧ blocks (database m') = blocks (database m).
Proof.
  unfold process_unconfirmed_transactions.
  destruct (_shutdown m) eqn:Hsh; [done|].
  pose proof (process_unconfirmed_loop_frame clock nd
                (map_to_list (unconfirmed_txs m)) m) as (Hsub & Hs & Hl & Hb).
  split; [|by rewrite Hs].
  intros h created Hh. by eapply lookup_weaken.
Qed.

(** X20. A hash the node knows leaves the pending map at once.  When its
    transaction is already in a block nothing else happens (no database write,
    no message: the block check handles it); when it is pending the database
    and the messages are those of the classifier, called with
    [is_reorg = False]. *)
Theorem process_unconfirmed_entry_found (now : Q) (h : string) (created : Z)
    (tx : transaction) (m : monitor) :
  let '(r, m', sent) :=
    process_unconfirmed_entry now (RpcOk (Some tx)) h created m in
  unconfirmed_txs m' = delete h (unconfirmed_txs m)
  ∧ unconfirmed_txs m' !! h = None
  ∧ match tx_blockNumber tx with
    | Some _ => r = EntryDone ∧ database m' = database m ∧ sent = []
    | None =>
        database m' = (process_transaction (database m) tx false).1.2
        ∧ sent = (process_transaction (database m) tx false).2
    end.
Proof.
  unfold process_unconfirmed_entry.
  destruct (tx_blockNumber tx).
  - simpl. split; [done|]. split; [apply lookup_delete_eq|done].
  - change (database (set_unconfirmed_txs (delete h) m)) with (database m).
    destruct (process_transaction (database m) tx false) as [[r0 d] sent0].
    simpl. split; [done|]. split; [apply lookup_delete_eq|done].
Qed.

Lemma outage_loop (clock : string → Q) (nd : node) (items : list (string * Z))
    (m : monitor) :
  _shutdown m = false →
  (∀ h, eth_getTransactionByHash nd h = RpcError
        ∨ eth_getTransactionByHash nd h = RpcOk None) →
  ∃ m', process_unconfirmed_loop clock nd items m = (m', [])
        ∧ database m' = database m
        ∧ _shutdown m' = false
        ∧ unconfirmed_txs m'
          = foldl (λ pm item, if expired (clock item.1) item.2
                              then delete item.1 pm else pm)
                  (unconfirmed_txs m) items.
Proof.
  intros Hsh Hnode. revert m Hsh.
  induction items as [|[h created] items IH]; intros m Hsh; simpl; [by eexists|].
  assert (He : process_unconfirmed_entry (clock h) (eth_getTransactionByHash nd h)
                 h created m
               = (EntryDone,
                  if expired (clock h) created
                  then set_unconfirmed_txs (delete h) m else m, [])).
  { destruct (Hnode h) as [-> | ->]; unfold process_unconfirmed_entry;
      by destruct (expired (clock h) created). }
  rewrite He.
  destruct (expired (clock h) created); simpl; rewrite Hsh.
  - destruct (IH (set_unconfirmed_txs (delete h) m) Hsh)
      as (m' & -> & Hdb & Hsh' & Hpm).
    exists m'. done.
  - destruct (IH m Hsh) as (m' & -> & Hdb & Hsh' & Hpm). exists m'. done.
Qed.

Lemma foldl_expire_lookup (clock : string → Q) (items : list (string * Z))
    (pm : gmap string Z) (h : string) :
  foldl (λ pm item, if expired (clock item.1) item.2
                    then delete item.1 pm else pm) pm items !! h
  = if existsb (λ item, bool_decide (item.1 = h) && expired (clock item.1) item.2)
               items
    then None else pm !! h.
Proof.
  revert pm. induction items as [|[h0 c0] items IH]; intros pm; simpl; [done|].
  rewrite IH. destruct (existsb _ items); [by rewrite orb_true_r|].
  rewrite orb_false_r. destruct (expired (clock h0) c0); simpl.
  - case_bool_decide as Hh; simpl.
    + subst. apply lookup_delete_eq.
    + by apply lookup_delete_ne.
  - by rewrite andb_false_r.
Qed.

(** X21. While the node answers every lookup with null or with an RPC
    error, a run of the pending-transaction processor writes nothing to the
    database and sends nothing, and the pending map loses exactly the entries
    whose age is at least 60 seconds: the others stay with their first-seen
    time. *)
Theorem process_unconfirmed_transactions_outage (clock : string → Q)
    (nd : node) (m : monitor) :
  _shutdown m = false →
  (∀ h, eth_getTransactionByHash nd h = RpcError
        ∨ eth_getTransactionByHash nd h = RpcOk None) →
  ∃ m', process_unconfirmed_transactions clock nd m = (m', [])
    ∧ database m' = database m
    ∧ ∀ h, unconfirmed_txs m' !! h
           = match unconfirmed_txs m !! h with
             | Some created =>
                 if expired (clock h) created then None else Some created
             | None => None
             end.
Proof.
  intros Hsh Hnode. unfold process_unconfirmed_transactions. rewrite Hsh.
  destruct (outage_loop clock nd (map_to_list (unconfirmed_txs m)) m Hsh Hnode)
    as (m' & Hloop & Hdb & _ & Hpm).
  exists m'. split; [done|]. split; [done|].
  intros h. rewrite Hpm, foldl_expire_lookup.
  destruct (existsb _ _) eqn:Hex.
  - apply existsb_exists in Hex as ([h0 c] & Hin & Hcond).
    apply andb_true_iff in Hcond as [Hh0 Hexp]. simpl in Hh0, Hexp.
    apply bool_decide_eq_true in Hh0 as ->.
    apply list_elem_of_In, elem_of_map_to_list in Hin. by rewrite Hin, Hexp.
  - destruct (unconfirmed_txs m !! h) as [created|] eqn:Hh; [|done].
    destruct (expired (clock h) created) eqn:Hexp; [|done].
    assert (Htrue : existsb (λ item, bool_decide (item.1 = h)
                                     && expired (clock item.1) item.2)
                            (map_to_list (unconfirmed_txs m)) = true).
    { apply existsb_exists. exists (h, created). split.
      - by apply list_elem_of_In, elem_of_map_to_list.
      - simpl. by rewrite bool_decide_eq_true_2, Hexp. }
    congruence.
Qed.

(** ** The token step of the filter poll *)

Lemma pages_concat {A} (s c : nat) (l : list A) :
  (length l ≤ c * s)%nat →
  concat ((λ k, take s (drop (k * s) l)) <$> seq 0 c) = l.
Proof.
  revert l. induction c as [|c IH]; intros l Hlen.
  - simpl in Hlen. destruct l; [done|simpl in Hlen; lia].
  - cbn [seq fmap list_fmap concat]. rewrite <- fmap_S_seq, <- list_fmap_compose.
    change (0 * s)%nat with 0%nat. rewrite drop_0.
    transitivity (take s l ++ drop s l); [|apply take_drop]. f_equal.
    etrans; [|apply (IH (drop s l)); rewrite length_drop; lia].
    f_equal. apply list_fmap_ext. intros i k _. simpl.
    rewrite drop_drop. reflexivity.
Qed.

Lemma page_count (n s : nat) :
  (0 < s)%nat →
  (n ≤ (n + s - 1) / s * s)%nat
  ∧ (∀ k, k < (n + s - 1) / s → k * s < n)%nat.
Proof.
  intros Hs.
  pose proof (Nat.div_mod_eq (n + s - 1) s) as Hdm.
  pose proof (Nat.mod_upper_bound (n + s - 1) s ltac:(lia)) as Hmod.
  split; [nia|]. intros k Hk. nia.
Qed.

(** X22. When the filter poll finds unready tokens, the registered
    addresses go out in pages: the pages are not empty, hold at most 1000
    addresses each and, put end to end, are exactly the table
    [token_registrations]; for every page every unready token gets one
    [update_token_cache] message with that page, and nothing else is sent. *)
Theorem filter_poll_tokens_pages (m : monitor) :
  _shutdown m = false →
  ∃ pages,
    concat pages = token_registrations (database m)
    ∧ Forall (λ page, (0 < length page ≤ 1000)%nat) pages
    ∧ (filter_poll_tokens m).2
      = token_cache_messages (filter unready (tokens (database m))) pages.
Proof.
  intros Hsh.
  set (regs := token_registrations (database m)).
  exists ((λ offset, take 1000 (drop offset regs)) <$> py_range (length regs) 1000).
  destruct (page_count (length regs) 1000 ltac:(lia)) as [Hcover Hpage].
  split; [|split].
  - unfold py_range. rewrite <- list_fmap_compose. by apply pages_concat.
  - unfold py_range. rewrite <- list_fmap_compose. apply Forall_fmap, Forall_forall.
    intros k Hk. apply elem_of_seq in Hk as [_ Hk]. simpl in Hk. apply Hpage in Hk.
    simpl. rewrite length_take, length_drop. lia.
  - unfold filter_poll_tokens, token_cache_messages. rewrite Hsh.
    fold regs. unfold unready.
    destruct (filter _ (tokens (database m))) as [|t0 rows] eqn:Hrows.
    + simpl. induction (py_range _ _) as [|? ? IH]; [done|]. by rewrite fmap_cons.
    + simpl. by rewrite <- list_fmap_compose.
Qed.

(** X23. Whatever the registrations, the token step sets [ready] on
    every token that is neither ready nor custom, changes no other column,
    keeps the number and the order of the rows, and leaves alone every row
    whose contract address is not the address of such a token. *)
Theorem filter_poll_tokens_ready (m : monitor) :
  _shutdown m = false →
  let m' := (filter_poll_tokens m).1 in
  length (tokens (database m')) = length (tokens (database m))
  ∧ ∀ i t, tokens (database m) !! i = Some t →
      ∃ t', tokens (database m') !! i = Some t'
            ∧ contract_address t' = contract_address t
            ∧ custom t' = custom t
            ∧ (unready t → ready t' = true)
            ∧ ((∀ u, u ∈ tokens (database m) → unready u →
                     contract_address u ≠ contract_address t) → t' = t).
Proof.
  intros Hsh. unfold filter_poll_tokens. rewrite Hsh.
  assert (Hin : ∀ t, contract_address t
                     ∈ contract_address
                       <$> filter (λ t, ready t = false ∧ custom t = false)
                                  (tokens (database m))
                     ↔ ∃ u, u ∈ tokens (database m) ∧ unready u
                            ∧ contract_address u = contract_address t).
  { intros t. rewrite list_elem_of_fmap. split.
    - intros (u & Hu & Hf). apply list_elem_of_filter in Hf as [? ?]. eauto.
    - intros (u & Hu & Hun & Hc). exists u. split; [done|].
      by apply list_elem_of_filter. }
  destruct (filter _ (tokens (database m))) as [|t0 rows] eqn:Hrows.
  - simpl. split; [done|]. intros i t Hi. exists t. repeat split; try done.
    intros Hun. exfalso.
    assert (Hx : contract_address t ∈ contract_address <$> @nil token_row).
    { apply Hin. exists t. split; [by eapply list_elem_of_lookup_2|done]. }
    by apply elem_of_nil in Hx.
  - rewrite <- Hrows in *. clear Hrows. simpl.
    split; [by rewrite length_fmap|].
    intros i t Hi. rewrite list_lookup_fmap, Hi. simpl. eexists. split; [done|].
    case_bool_decide as Hc.
    + repeat split; try done. intros Hnone. exfalso.
      apply Hin in Hc as (u & Hu & Hun & Hcu). by eapply Hnone.
    + repeat split; try done. intros Hun. destruct Hc. apply Hin.
      exists t. split; [by eapply list_elem_of_lookup_2|done].
Qed.

(** ** Start-up *)

Lemma pick_non_stale_foldr (l : list (Z * block_row)) :
  match foldr pick_non_stale None l with
  | Some k => (∃ r, (k, r) ∈ l ∧ stale r = false)
              ∧ ∀ j r, (j, r) ∈ l → stale r = false → j ≤ k
  | None => ∀ j r, (j, r) ∈ l → stale r = true
  end.
Proof.
  induction l as [|[k0 r0] l IH]; simpl.
  - intros j r Hj. by apply elem_of_nil in Hj.
  - unfold pick_non_stale at 1. simpl. destruct (stale r0) eqn:Hs0.
    + destruct (foldr pick_non_stale None l) as [k|].
      * destruct IH as [(r & Hin & Hs) Hmax]. split.
        { exists r. split; [by apply list_elem_of_further|done]. }
        intros j r' Hj Hs'. apply elem_of_cons in Hj as [[= -> ->]|Hj];
          [congruence|]. eauto.
      * intros j r Hj. apply elem_of_cons in Hj as [[= -> ->]|Hj]; [done|]. eauto.
    + destruct (foldr pick_non_stale None l) as [k|].
      * destruct IH as [(r & Hin & Hs) Hmax]. split.
        { destruct (Z.max_spec k k0) as [[_ ->]|[_ ->]].
          - exists r0. split; [apply list_elem_of_here|done].
          - exists r. split; [by apply list_elem_of_further|done]. }
        intros j r' Hj Hs'. apply elem_of_cons in Hj as [[= -> ->]|Hj]; [lia|].
        specialize (Hmax j r' Hj Hs'). lia.
      * split.
        { exists r0. split; [apply list_elem_of_here|done]. }
        intros j r' Hj Hs'. apply elem_of_cons in Hj as [[= -> ->]|Hj]; [lia|].
        specialize (IH j r' Hj). congruence.
Qed.

Lemma highest_non_stale_spec (b : gmap Z block_row) :
  match highest_non_stale b with
  | Some k => (∃ r, b !! k = Some r ∧ stale r = false)
              ∧ ∀ j r, b !! j = Some r → stale r = false → j ≤ k
  | None => ∀ j r, b !! j = Some r → stale r = true
  end.
Proof.
  unfold highest_non_stale.
  pose proof (pick_non_stale_foldr (map_to_list b)) as Hspec.
  destruct (foldr pick_non_stale None (map_to_list b)) as [k|].
  - destruct Hspec as [(r & Hin & Hs) Hmax]. split.
    + exists r. split; [by apply elem_of_map_to_list|done].
    + intros j r' Hj. apply Hmax. by apply elem_of_map_to_list.
  - intros j r Hj. apply (Hspec j r). by apply elem_of_map_to_list.
Qed.

(** X24. Whenever start-up returns, every block row above the
    high-water mark it chose is stale and the shutdown flag is down; the block
    rows and the transactions are untouched.  With a block that is not stale
    in the store, the mark is the highest such block; the node is asked for its
    block number only when no block is usable and [last_blocknumber] is empty,
    and the answer is then stored there. *)
Theorem _initialise_high_water (eth_blockNumber : rpc Z) (m : monitor) :
  match _initialise eth_blockNumber m with
  | None =>
      eth_blockNumber = RpcError ∧ last_blocknumber (database m) = []
      ∧ ∀ j r, blocks (database m) !! j = Some r → stale r = true
  | Some m' =>
      stale_above (blocks (database m')) (last_block_number m')
      ∧ _shutdown m' = false
      ∧ blocks (database m') = blocks (database m)
      ∧ transactions (database m') = transactions (database m)
      ∧ unconfirmed_txs m' = unconfirmed_txs m
      ∧ match highest_non_stale (blocks (database m)) with
        | Some n =>
            last_block_number m' = n ∧ database m' = database m
            ∧ ∃ r, blocks (database m) !! n = Some r ∧ stale r = false
        | None =>
            match last_blocknumber (database m) with
            | n :: _ => last_block_number m' = n ∧ database m' = database m
            | [] =>
                eth_blockNumber = RpcOk (last_block_number m')
                ∧ last_blocknumber (database m') = [last_block_number m']
            end
        end
  end.
Proof.
  unfold _initialise.
  pose proof (highest_non_stale_spec (blocks (database m))) as Hspec.
  destruct (highest_non_stale (blocks (database m))) as [n|].
  - destruct Hspec as [Hrow Hmax]. simpl. repeat split; try done.
    intros k r Hk Hlt. destruct (stale r) eqn:Hs; [done|].
    specialize (Hmax k r Hk Hs). lia.
  - destruct (last_blocknumber (database m)) as [|n l] eqn:Htable; simpl.
    + destruct eth_blockNumber as [n|]; [|done]. simpl. rewrite Htable.
      repeat split; try done. intros k r Hk _. by eapply Hspec.
    + repeat split; try done. intros k r Hk _. by eapply Hspec.
Qed.

(** ** The pending-transaction filter *)

Lemma register_loop_failures (n : nat) (filter_id : string)
    (rest : list (rpc string)) (backoff : nat) :
  register_loop (replicate n RpcError ++ RpcOk filter_id :: rest) backoff
  = (Some filter_id, (λ k, Nat.min (backoff + S k) 10) <$> seq 0 n).
Proof.
  revert backoff. induction n as [|n IH]; intros backoff; [done|].
  cbn [replicate app register_loop]. rewrite IH.
  cbn [seq fmap list_fmap]. rewrite <- fmap_S_seq, <- list_fmap_compose.
  f_equal. f_equal. apply list_fmap_ext. intros i k _. simpl. lia.
Qed.

(** X25. Registering the pending-transaction filter retries until a call
    succeeds: after [n] failed calls the filter id is the answer of call
    [n + 1], the monitor has slept [min(k, 10)] seconds after the [k]-th
    failure (1, 2, ..., 10, 10, ...), and the last-seen time is the clock of the
    registration.  With the shutdown flag up no call is made and the filter
    state is unchanged. *)
Theorem register_filter_backoff (n : nat) (filter_id : string)
    (rest : list (rpc string)) (now : Q) (fs : filter_state) :
  register_new_pending_transaction_filter false
    (replicate n RpcError ++ RpcOk filter_id :: rest) now fs
  = ({| _new_pending_transaction_filter_id := Some filter_id;
        _last_saw_new_pending_transactions := now |},
     (λ k, Nat.min (S k) 10) <$> seq 0 n)
  ∧ Forall (λ s, (1 ≤ s ≤ 10)%nat) ((λ k, Nat.min (S k) 10) <$> seq 0 n)
  ∧ register_new_pending_transaction_filter true
      (replicate n RpcError ++ RpcOk filter_id :: rest) now fs = (fs, []).
Proof.
  split; [|split; [|done]].
  - unfold register_new_pending_transaction_filter.
    by rewrite register_loop_failures.
  - apply Forall_fmap, Forall_forall. intros k _. simpl. lia.
Qed.

(** The float subtraction and addition of the clock readings. *)
Variable float_sub : Q → Q → Q.
Variable float_add : Q → Q → Q.

Lemma py_int_gt (q : Q) (n : Z) :
  0 ≤ n → py_int q > n ↔ (inject_Z (n + 1) <= q)%Q.
Proof.
  destruct q as [a b]. unfold Qle, py_int. simpl. rewrite !Z.mul_1_r.
  intros Hn. destruct (decide (0 ≤ a)) as [Ha|Ha].
  - rewrite Z.quot_div_nonneg by lia.
    pose proof (Z.mul_div_le a (Z.pos b) ltac:(lia)) as Hle.
    pose proof (Z.mul_succ_div_gt a (Z.pos b) ltac:(lia)) as Hgt.
    split; intros Hq; nia.
  - pose proof (Z.quot_opp_l a (Z.pos b) ltac:(lia)) as Hopp.
    pose proof (Z.quot_pos (- a) (Z.pos b) ltac:(lia) ltac:(lia)) as Hpos.
    split; intros Hq; nia.
Qed.

Lemma hsetnx_foldl_lookup (f : string → Z) (l : list string)
    (pm : gmap string Z) (h : string) :
  foldl (λ pm h, hsetnx h (f h) pm) pm l !! h
  = match pm !! h with
    | Some t => Some t
    | None => if bool_decide (h ∈ l) then Some (f h) else None
    end.
Proof.
  revert pm. induction l as [|h0 l IH]; intros pm; simpl.
  - by destruct (pm !! h).
  - rewrite IH. unfold hsetnx. destruct (pm !! h0) as [t0|] eqn:Hh0.
    + destruct (pm !! h) as [t|] eqn:Hh; [done|].
      assert (Hne : h ≠ h0) by congruence.
      rewrite (bool_decide_ext (h ∈ h0 :: l) (h ∈ l)); [done|].
      rewrite elem_of_cons. split; [by intros [?|?]|by right].
    + destruct (decide (h = h0)) as [->|Hne].
      * rewrite lookup_insert_eq, Hh0.
        by rewrite bool_decide_eq_true_2 by apply list_elem_of_here.
      * rewrite lookup_insert_ne by done. destruct (pm !! h); [done|].
        rewrite (bool_decide_ext (h ∈ h0 :: l) (h ∈ l)); [done|].
        rewrite elem_of_cons. split; [by intros [?|?]|by right].
Qed.

(** X26. Draining the filter adds the new hashes to the pending map with
    the clock of their arrival and never touches an entry that is already
    there: a hash seen again keeps its first-seen time.  A non-empty answer
    keeps the filter and moves the last-seen time to now.  When
    [eth_getFilterChanges] fails, the pending map is unchanged and the filter
    is registered again. *)
Theorem filter_poll_filter_pending (changes : rpc (list string))
    (clock : string → Q) (now registered_at : Q) (answers : list (rpc string))
    (fs : filter_state) (pm : gmap string Z) (filter_id : string) :
  _new_pending_transaction_filter_id fs = Some filter_id →
  let '(fs', pm', sleeps, run) :=
    filter_poll_filter float_sub false changes clock now registered_at answers
                       fs pm in
  run = bool_decide (0 < size pm')%nat
  ∧ match changes with
    | RpcOk hashes =>
        (∀ h, pm' !! h
              = match pm !! h with
                | Some first_seen => Some first_seen
                | None => if bool_decide (h ∈ hashes)
                          then Some (py_int (clock h)) else None
                end)
        ∧ (hashes ≠ [] →
           fs' = {| _new_pending_transaction_filter_id := Some filter_id;
                    _last_saw_new_pending_transactions := now |}
           ∧ sleeps = [])
    | RpcError =>
        pm' = pm
        ∧ (fs', sleeps)
          = register_new_pending_transaction_filter false answers
                                                    registered_at fs
    end.
Proof.
  intros Hid. unfold filter_poll_filter. rewrite Hid.
  destruct changes as [[|h0 hashes]|].
  - cbn [foldl].
    destruct (bool_decide _);
      [destruct (register_new_pending_transaction_filter false answers
                   registered_at fs)|];
      (split; [done|]); (split; [|done]); intros h; by destruct (pm !! h).
  - split; [done|]. split; [|done]. intros h. apply hsetnx_foldl_lookup.
  - by destruct (register_new_pending_transaction_filter false answers
                   registered_at fs).
Qed.

(** X27. An empty answer of the filter registers it again only when the
    whole seconds of the time since the last pending transaction, as the code
    computes it (the float difference of the two clock readings), exceed 120:
    while the computed difference is below 121 the filter state is kept,
    whatever the node would answer to a registration, and from a computed 121
    on the filter is registered again. *)
Theorem filter_poll_filter_timeout (clock : string → Q)
    (now registered_at : Q) (answers : list (rpc string))
    (fs : filter_state) (pm : gmap string Z) (filter_id : string) :
  _new_pending_transaction_filter_id fs = Some filter_id →
  ((float_sub now (_last_saw_new_pending_transactions fs) < 121)%Q →
   filter_poll_filter float_sub false (RpcOk []) clock now registered_at
                      answers fs pm
   = (fs, pm, [], bool_decide (0 < size pm)%nat))
  ∧ ((121 <= float_sub now (_last_saw_new_pending_transactions fs))%Q →
     filter_poll_filter float_sub false (RpcOk []) clock now registered_at
                        answers fs pm
     = ((register_new_pending_transaction_filter false answers
                                                  registered_at fs).1,
        pm,
        (register_new_pending_transaction_filter false answers
                                                 registered_at fs).2,
        bool_decide (0 < size pm)%nat)).
Proof.
  intros Hid. unfold filter_poll_filter. rewrite Hid. cbn [foldl].
  pose proof (py_int_gt (float_sub now (_last_saw_new_pending_transactions fs))
                120 ltac:(lia)) as Hgt.
  change (inject_Z (120 + 1)) with 121%Q in Hgt. unfold FILTER_TIMEOUT.
  split; intros Hage.
  - rewrite bool_decide_eq_false_2; [done|].
    intros Hn. apply Hgt in Hn. by apply Qle_not_lt in Hn.
  - rewrite bool_decide_eq_true_2 by (by apply Hgt).
    by destruct (register_new_pending_transaction_filter false answers
                   registered_at fs).
Qed.

(** ** The watchdog *)

(** X28. The watchdog writes its heartbeat exactly when the whole
    seconds of the time since the last new block, as the code computes it
    (the float difference of the two clock readings), do not exceed 300, that
    is when the computed difference is below 301, whatever the state of the
    filter and of the poll schedule.  It always leaves a poll scheduled: a
    missing schedule, or one that is overdue while no poll is running, is
    replaced by a poll due at the float sum of the clock and one second; a
    running poll or a schedule that is not overdue is kept. *)
Theorem sanity_check_heartbeat (answers : list (rpc string))
    (registered_at due_now schedule_now block_now : Q) (fs : filter_state)
    (poll_schedule : option Q) (poll_running : bool) (last_saw_new_block : Q) :
  let '(fs', schedule, ok) :=
    sanity_check float_sub float_add false answers registered_at due_now
                 schedule_now block_now fs poll_schedule poll_running
                 last_saw_new_block in
  (ok = true ↔ (float_sub block_now last_saw_new_block < 301)%Q)
  ∧ (is_Some (_new_pending_transaction_filter_id fs) → fs' = fs)
  ∧ match poll_schedule with
    | None => schedule = Some (float_add schedule_now 1)
    | Some when =>
        (poll_running = true ∨ (due_now <= when)%Q → schedule = Some when)
        ∧ (poll_running = false → (when < due_now)%Q →
           schedule = Some (float_add schedule_now 1))
    end.
Proof.
  unfold sanity_check. cbv zeta.
  pose proof (py_int_gt (float_sub block_now last_saw_new_block) 300
                ltac:(lia)) as Hgt.
  change (inject_Z (300 + 1)) with 301%Q in Hgt. unfold NEW_BLOCK_TIMEOUT.
  split; [|split].
  - rewrite negb_true_iff, bool_decide_eq_false, Hgt. split.
    + apply Qnot_le_lt.
    + apply Qlt_not_le.
  - by intros [id ->].
  - destruct poll_schedule as [when|]; [|done]. split.
    + intros [->|Hdue]; [done|]. destruct poll_running; [done|].
      apply Qle_bool_iff in Hdue. by rewrite Hdue.
    + intros -> Hlt. destruct (Qle_bool due_now when) eqn:Hle; [|done].
      apply Qle_bool_iff in Hle. by apply Qle_not_lt in Hle.
Qed.

(** ** The registration handlers *)

Section HandlerProperties.
Variable validate_address : string → bool.

Lemma elem_of_insert_registration (r r' : registration) (t : list registration) :
  r' ∈ insert_registration r t ↔ r' = r ∨ r' ∈ t.
Proof.
  unfold insert_registration. case_bool_decide as Hin.
  - split; [by right|]. by intros [->|?].
  - rewrite elem_of_app, list_elem_of_singleton. tauto.
Qed.

Lemma NoDup_insert_registration (r : registration) (t : list registration) :
  NoDup t → NoDup (insert_registration r t).
Proof.
  intros Hnd. unfold insert_registration. case_bool_decide as Hin; [done|].
  apply NoDup_app. split; [done|]. split; [|apply NoDup_singleton].
  intros x Hx Hx'. apply list_elem_of_singleton in Hx' as ->. done.
Qed.

Lemma insert_registration_present (r : registration) (t : list registration) :
  r ∈ t → insert_registration r t = t.
Proof. intros Hin. unfold insert_registration. by rewrite bool_decide_eq_true_2. Qed.

Lemma filter_twice {A} (P : A → Prop) `{∀ x, Decision (P x)} (l : list A) :
  filter P (filter P l) = filter P l.
Proof.
  induction l as [|x l IH]; [done|]. rewrite filter_cons.
  destruct (decide (P x)); [|done]. by rewrite filter_cons_True, IH.
Qed.

Lemma foldl_insert_registration (mk : string → registration)
    (l : list string) (t : list registration) :
  (∀ r, r ∈ foldl (λ t a, insert_registration (mk a) t) t l
        ↔ r ∈ t ∨ ∃ a, a ∈ l ∧ r = mk a)
  ∧ (NoDup t → NoDup (foldl (λ t a, insert_registration (mk a) t) t l)).
Proof.
  revert t. induction l as [|a l IH]; intros t; simpl.
  - split; [|done]. intros r. split; [by left|].
    intros [?|(a & Ha & _)]; [done|]. by apply elem_of_nil in Ha.
  - destruct (IH (insert_registration (mk a) t)) as [Hin Hnd]. split.
    + intros r. rewrite Hin, elem_of_insert_registration. split.
      * intros [[->|?]|(a' & Ha' & ->)].
        -- right. exists a. split; [apply list_elem_of_here|done].
        -- by left.
        -- right. exists a'. split; [by apply list_elem_of_further|done].
      * intros [?|(a' & Ha' & ->)]; [by left; right|].
        apply elem_of_cons in Ha' as [->|Ha']; [by left; left|].
        right. by exists a'.
    + intros Ht. by apply Hnd, NoDup_insert_registration.
Qed.

(** X29. Registering a valid address for push notifications answers 204
    and leaves the row [(token_id, service, registration_id, address)] in the
    table, without duplicating rows; registering it a second time changes
    nothing.  Deregistering with the registration id alone answers 204 and
    removes the rows of that client, service and registration id, the new row
    among them.  Deregistering with the address sends the statement with
    [$3AND]: a server that rejects this text makes the handler raise and the
    table stays as it is, the row included; a server that reads it as [$3 AND]
    makes it answer 204 and remove exactly that row. *)
Theorem pn_register_deregister (splits_parameter : bool)
    (tid svc regid a : string) (t : list registration) :
  validate_address a = true →
  a ≠ "" →
  let row := {| token_id := tid; service := svc;
                registration_id := regid; eth_address := a |} in
  let payload := {| p_registration_id := Some regid; p_address := Some a |} in
  let by_id := {| p_registration_id := Some regid; p_address := None |} in
  let t1 := (pn_register validate_address tid svc payload t).2 in
  (pn_register validate_address tid svc payload t).1 = NoContent
  ∧ row ∈ t1
  ∧ (NoDup t → NoDup t1)
  ∧ pn_register validate_address tid svc payload t1 = (NoContent, t1)
  ∧ (pn_deregister validate_address splits_parameter tid svc by_id t1).1
    = NoContent
  ∧ (∀ r, r ∈ (pn_deregister validate_address splits_parameter tid svc by_id
                             t1).2
          ↔ r ∈ t1 ∧ ¬ (token_id r = tid ∧ service r = svc
                        ∧ registration_id r = regid))
  ∧ (row ∉ (pn_deregister validate_address splits_parameter tid svc by_id t1).2)
  ∧ (if splits_parameter
     then (pn_deregister validate_address true tid svc payload t1).1 = NoContent
          ∧ ∀ r, r ∈ (pn_deregister validate_address true tid svc payload t1).2
                 ↔ r ∈ t1 ∧ r ≠ row
     else pn_deregister validate_address false tid svc payload t1
          = (ServerError, t1)).
Proof.
  intros Hvalid Hne row payload by_id.
  assert (Hkeep : tid ≠ a →
                  ¬ (token_id row = a ∧ eth_address row = a ∧ service row = "apn")).
  { intros Hta (Htid & _). simpl in Htid. done. }
  assert (Hreg : ∀ t0,
    pn_register validate_address tid svc payload t0
    = (NoContent,
       if bool_decide (a ≠ tid)
       then filter (λ r, ¬ (token_id r = a ∧ eth_address r = a
                            ∧ service r = "apn"))
                   (insert_registration row t0)
       else insert_registration row t0)).
  { intros t0. unfold pn_register. simpl. rewrite Hvalid. simpl.
    by case_bool_decide. }
  assert (Hdereg : ∀ t0,
    pn_deregister validate_address true tid svc payload t0
    = (NoContent,
       filter (λ r, ¬ (token_id r = tid ∧ service r = svc
                       ∧ registration_id r = regid ∧ eth_address r = a)) t0)).
  { intros t0. unfold pn_deregister. simpl.
    rewrite (bool_decide_eq_false_2 (a = "")) by done. by rewrite Hvalid. }
  assert (Hraise : ∀ t0,
    pn_deregister validate_address false tid svc payload t0 = (ServerError, t0)).
  { intros t0. unfold pn_deregister. simpl.
    rewrite (bool_decide_eq_false_2 (a = "")) by done. by rewrite Hvalid. }
  assert (Hby_id : ∀ t0,
    pn_deregister validate_address splits_parameter tid svc by_id t0
    = (NoContent,
       filter (λ r, ¬ (token_id r = tid ∧ service r = svc
                       ∧ registration_id r = regid)) t0)).
  { intros t0. reflexivity. }
  assert (Hrow_eq : ∀ r : registration, r ∈ filter (λ r, ¬ (token_id r = tid ∧ service r = svc
                                     ∧ registration_id r = regid
                                     ∧ eth_address r = a))
                              (pn_register validate_address tid svc payload t).2
                         ↔ r ∈ (pn_register validate_address tid svc payload t).2
                           ∧ r ≠ row).
  { intros r. rewrite list_elem_of_filter. split.
    - intros [H1 H2]. split; [done|]. intros ->. by apply H1.
    - intros [H1 H2]. split; [|done]. intros (? & ? & ? & ?). apply H2.
      by destruct r; simplify_eq/=. }
  cbv zeta. rewrite !Hby_id. cbn [fst snd].
  assert (Hin : row ∈ insert_registration row t).
  { apply elem_of_insert_registration. by left. }
  assert (Hgone : ∀ t0 : list registration, row ∉ filter (λ r, ¬ (token_id r = tid ∧ service r = svc
                                              ∧ registration_id r = regid)) t0).
  { intros t0 Hr. apply list_elem_of_filter in Hr as [Hr _]. by apply Hr. }
  assert (Hmem : ∀ (t0 : list registration) (r : registration), r ∈ filter (λ r, ¬ (token_id r = tid ∧ service r = svc
                                     ∧ registration_id r = regid)) t0
                         ↔ r ∈ t0 ∧ ¬ (token_id r = tid ∧ service r = svc
                                       ∧ registration_id r = regid)).
  { intros t0 r. rewrite list_elem_of_filter. tauto. }
  assert (Hlast : if splits_parameter
    then (pn_deregister validate_address true tid svc payload
            (pn_register validate_address tid svc payload t).2).1 = NoContent
         ∧ ∀ r, r ∈ (pn_deregister validate_address true tid svc payload
                       (pn_register validate_address tid svc payload t).2).2
                ↔ r ∈ (pn_register validate_address tid svc payload t).2
                  ∧ r ≠ row
    else pn_deregister validate_address false tid svc payload
           (pn_register validate_address tid svc payload t).2
         = (ServerError, (pn_register validate_address tid svc payload t).2)).
  { destruct splits_parameter; [|apply Hraise].
    rewrite Hdereg. split; [done|]. exact Hrow_eq. }
  revert Hlast. rewrite !Hreg. cbn [fst snd]. intros Hlast.
  split; [done|].
  case_bool_decide as Hat.
  - assert (Hrow : row ∈ filter (λ r, ¬ (token_id r = a ∧ eth_address r = a
                                         ∧ service r = "apn"))
                                (insert_registration row t)).
    { apply list_elem_of_filter. split; [|done]. apply Hkeep. congruence. }
    split; [done|]. split.
    { intros Hnd. by apply NoDup_filter, NoDup_insert_registration. }
    split.
    { f_equal. rewrite (insert_registration_present _ _ Hrow).
      apply filter_twice. }
    split; [done|]. split; [apply Hmem|]. split; [apply Hgone|exact Hlast].
  - split; [done|]. split; [apply NoDup_insert_registration|].
    split; [by rewrite (insert_registration_present _ _ Hin)|].
    split; [done|]. split; [apply Hmem|]. split; [apply Hgone|exact Hlast].
Qed.

(** X30. A registration without an address by a client that has legacy
    rows migrates them: it answers 204, every legacy address of the client is
    then registered under the service and registration id of the request, no
    legacy row of the client is left, the other rows are untouched, and the
    set of addresses in the table (what the monitor matches transactions
    against) is the same as before. *)
Theorem pn_register_migrates_legacy (tid svc regid : string)
    (t : list registration) :
  ¬ (svc = "LEGACY" ∧ regid = "LEGACY") →
  filter (is_legacy tid) t ≠ [] →
  let migrated a := {| token_id := tid; service := svc;
                       registration_id := regid; eth_address := a |} in
  let payload := {| p_registration_id := Some regid; p_address := None |} in
  let t1 := (pn_register validate_address tid svc payload t).2 in
  (pn_register validate_address tid svc payload t).1 = NoContent
  ∧ (∀ r, r ∈ t1 ↔ (r ∈ t ∧ ¬ is_legacy tid r)
                   ∨ ∃ old, old ∈ t ∧ is_legacy tid old
                            ∧ r = migrated (eth_address old))
  ∧ (∀ a, a ∈ eth_address <$> t1 ↔ a ∈ eth_address <$> t)
  ∧ (NoDup t → NoDup t1).
Proof.
  intros Hsvc Hlegacy migrated payload. cbv zeta. unfold pn_register. simpl.
  destruct (eth_address <$> filter (is_legacy tid) t) as [|a0 legacy] eqn:Hl.
  { apply fmap_nil_inv in Hl. done. }
  rewrite <- Hl. clear Hl. simpl.
  destruct (foldl_insert_registration migrated
              (eth_address <$> filter (is_legacy tid) t) t) as [Hin Hnd].
  assert (Hmig : ∀ a, ¬ is_legacy tid (migrated a)).
  { intros a (_ & ? & ?). simpl in *. by apply Hsvc. }
  assert (Hmem : ∀ r, r ∈ filter (λ r, ¬ is_legacy tid r)
                          (foldl (λ t a, insert_registration (migrated a) t) t
                                 (eth_address <$> filter (is_legacy tid) t))
                      ↔ (r ∈ t ∧ ¬ is_legacy tid r)
                        ∨ ∃ old, old ∈ t ∧ is_legacy tid old
                                 ∧ r = migrated (eth_address old)).
  { intros r. rewrite list_elem_of_filter, Hin. split.
    - intros [Hnl [Hr|(a & Ha & ->)]]; [by left|]. right.
      apply list_elem_of_fmap in Ha as (old & -> & Hold).
      apply list_elem_of_filter in Hold as [? ?]. by exists old.
    - intros [[Hr Hnl]|(old & Hold & Hleg & ->)]; [by split; [|left]|].
      split; [apply Hmig|]. right. exists (eth_address old). split; [|done].
      apply list_elem_of_fmap. exists old. split; [done|].
      by apply list_elem_of_filter. }
  split; [done|]. split; [exact Hmem|]. split.
  - intros a. rewrite !list_elem_of_fmap. split.
    + intros (r & -> & Hr). apply Hmem in Hr as [[Hr _]|(old & Hold & _ & ->)].
      * by exists r.
      * by exists old.
    + intros (r & -> & Hr). destruct (decide (is_legacy tid r)) as [Hleg|Hnl].
      * exists (migrated (eth_address r)). split; [done|]. apply Hmem.
        right. by exists r.
      * exists r. split; [done|]. apply Hmem. by left.
  - intros Ht. by apply NoDup_filter, Hnd.
Qed.

End HandlerProperties.

End ExtraProperties.

(** ** On the scenarios *)

#[local] Existing Instance py_externals.

(** The reorg of the specification: the fork point 495 is a stored block
    whose hash the node returned. *)
Lemma reorg_fork_agrees_witness :
  ∃ bn results nb row,
    last_block_number reorg_after ≤ bn ∧ bn ≤ last_block_number reorg_monitor
    ∧ bulk_execute reorg_node (bulk_requests bn) = RpcOk results
    ∧ Some nb ∈ results
    ∧ blocks (database reorg_monitor) !! last_block_number reorg_after = Some row
    ∧ blocks (database reorg_after) !! last_block_number reorg_after = Some row
    ∧ b_hash nb = hash row.
Proof.
  apply (handle_reorg_fork_agrees reorg_node reorg_monitor reorg_after).
  vm_compute. reflexivity.
Defined.

(** The gap: from the mark 5 down to the stored block 3. *)
Lemma gap_rewind_witness :
  database (set_last_block_number 3 gap_monitor) = database gap_monitor
  ∧ unconfirmed_txs (set_last_block_number 3 gap_monitor)
    = unconfirmed_txs gap_monitor
  ∧ [update_default_gas_price 6]
    = [update_default_gas_price (last_block_number gap_monitor + 1)]
  ∧ blocks (database gap_monitor) !! last_block_number gap_monitor = None
  ∧ is_Some (blocks (database gap_monitor)
             !! last_block_number (set_last_block_number 3 gap_monitor))
  ∧ last_block_number (set_last_block_number 3 gap_monitor)
    < last_block_number gap_monitor
  ∧ last_block_number (set_last_block_number 3 gap_monitor) ≠ 0
  ∧ ∀ k, last_block_number (set_last_block_number 3 gap_monitor) < k
         ≤ last_block_number gap_monitor →
         blocks (database gap_monitor) !! k = None.
Proof.
  apply (block_check_iter_gap gap_node gap_monitor
           (set_last_block_number 3 gap_monitor) [update_default_gas_price 6]).
  vm_compute. reflexivity.
Defined.

(** After block 101 the node has no block 102: the loop breaks and the
    time of the last new block, 100, is kept at the clock reading 200. *)
Lemma break_witness :
  last_block_number (block_check_iter ingest_node ingest_result.1.2).1.2
  = last_block_number ingest_result.1.2
  ∧ _shutdown (block_check_iter ingest_node ingest_result.1.2).1.2
    = _shutdown ingest_result.1.2
  ∧ unconfirmed_txs (block_check_iter ingest_node ingest_result.1.2).1.2
    = unconfirmed_txs ingest_result.1.2
  ∧ database (block_check_iter ingest_node ingest_result.1.2).1.2
    = database ingest_result.1.2
  ∧ (((block_check_iter ingest_node ingest_result.1.2).2 = []
      ∧ (∀ blk, eth_getBlockByNumber ingest_node
                  (last_block_number ingest_result.1.2 + 1)
                ≠ RpcOk (Some blk))
      ∧ _last_saw_new_block ingest_node ingest_result.1.2 200 100 = 100%Q)
     ∨ ((block_check_iter ingest_node ingest_result.1.2).2
        = [update_default_gas_price (last_block_number ingest_result.1.2 + 1)]
        ∧ (∃ blk, eth_getBlockByNumber ingest_node
                    (last_block_number ingest_result.1.2 + 1)
                  = RpcOk (Some blk)
                  ∧ b_logsBloom blk ≠ EMPTY_BLOOM
                  ∧ eth_getLogs ingest_node (b_number blk) = RpcError)
        ∧ _last_saw_new_block ingest_node ingest_result.1.2 200 100 = 200%Q)).
Proof.
  apply (block_check_iter_break ingest_node ingest_result.1.2
           (block_check_iter ingest_node ingest_result.1.2).1.2
           (block_check_iter ingest_node ingest_result.1.2).2 200 100).
  vm_compute. reflexivity.
Defined.

(** Block 101 is stored with the node's hashes and timestamp. *)
Lemma persisted_witness :
  ∃ blk,
    eth_getBlockByNumber ingest_node (last_block_number ingest_monitor + 1)
    = RpcOk (Some blk)
    ∧ blocks (database ingest_result.1.2) !! parse_int (b_number blk)
      = Some {| timestamp := if bool_decide (parse_int (b_timestamp blk) = 0)
                             then wall_clock ingest_node
                             else parse_int (b_timestamp blk);
                hash := b_hash blk;
                parent_hash := b_parentHash blk;
                stale := false |}
    ∧ (∀ k, k ≠ parse_int (b_number blk) →
            blocks (database ingest_result.1.2) !! k
            = blocks (database ingest_monitor) !! k)
    ∧ head ingest_result.2
      = Some (update_default_gas_price (last_block_number ingest_monitor + 1))
    ∧ last ingest_result.2 = Some (notify_new_block (parse_int (b_number blk)))
    ∧ last_block_number ingest_monitor ≤ last_block_number ingest_result.1.2
    ∧ (node_numbers ingest_node →
       last_block_number ingest_result.1.2 = last_block_number ingest_monitor + 1).
Proof.
  apply (block_check_iter_persisted ingest_node ingest_monitor
           ingest_result.1.2 false ingest_result.2).
  vm_compute. reflexivity.
Defined.

(** The [last_blocknumber] table goes from [100] to [101]. *)
Lemma table_monotone_witness :
  Forall2 Z.le (last_blocknumber (database ingest_monitor))
               (last_blocknumber (database ingest_result.1.2)).
Proof.
  apply (block_check_iter_table_monotone ingest_node ingest_monitor
           ingest_result.1.2 (IterPersisted false) ingest_result.2).
  vm_compute. reflexivity.
Defined.

(** Block 101 has an empty bloom filter: a failing [eth_getLogs] changes
    nothing. *)
Lemma empty_bloom_witness :
  block_check_iter (with_getLogs (λ _, RpcError) ingest_node) ingest_monitor
  = block_check_iter ingest_node ingest_monitor
  ∧ Forall (λ msg, is_filter_notification msg = false)
           (block_check_iter ingest_node ingest_monitor).2.
Proof.
  apply (empty_bloom_skips_logs ingest_node ingest_monitor
           (plain_block 101 "0xa101" "0xa100" [ingest_tx])).
  - vm_compute. reflexivity.
  - reflexivity.
Defined.

(** The run that stores block 101 and breaks on block 102. *)
Lemma run_chain_witness :
  chain_consistent (blocks (database ingest_result.1.2))
  ∧ stale_above (blocks (database ingest_result.1.2))
                (last_block_number ingest_result.1.2)
  ∧ _shutdown ingest_result.1.2 = _shutdown ingest_monitor.
Proof.
  apply (block_check_chain 3 ingest_node ingest_monitor ingest_result.1.2
           [update_default_gas_price 101; update_transaction 1 confirmed;
            notify_new_block 101]
           [IterPersisted false; IterBreak]).
  - vm_compute. reflexivity.
  - apply quiet_node_numbers. intros n b. case_bool_decide; [|done].
    intros [= <-]. by subst.
  - apply singleton_chain_consistent.
  - apply singleton_stale_above.
  - rewrite !elem_of_cons, elem_of_nil. intros [?|[?|[]]]; discriminate.
Defined.

(** The overwritten nonce: the keys 1 and 2, the sequence at 3. *)
Lemma overwrite_ids_witness :
  ids_fresh (overwrite_result true).1.2
  ∧ NoDup (transaction_id <$> transactions (overwrite_result true).1.2)
  ∧ transactions_seq (overwrite_db true)
    ≤ transactions_seq (overwrite_result true).1.2.
Proof.
  apply (process_transaction_ids (overwrite_db true) (overwrite_result true).1.2
           overwrite_tx false (overwrite_result true).1.1
           (overwrite_result true).2).
  - vm_compute. reflexivity.
  - intros r Hr. apply list_elem_of_singleton in Hr as ->. reflexivity.
  - apply NoDup_singleton.
Defined.

(** A transaction between addresses nobody registered. *)
Lemma nobody_registered_witness :
  process_transaction empty_db ingest_tx false = (TxReturned None, empty_db, [])
  ∨ process_transaction empty_db ingest_tx false = (TxRaised, empty_db, []).
Proof.
  apply (process_transaction_nobody_registered empty_db ingest_tx false);
    reflexivity.
Defined.

(** The confirmed transaction of block 100 seen again in block 101. *)
Lemma reorg_confirmed_witness :
  ∃ d',
    process_transaction confirmed_db ingest_tx true
    = (TxReturned (Some (transaction_id confirmed_row)), d', [])
    ∧ token_transactions d' = token_transactions confirmed_db
    ∧ transactions_seq d' = transactions_seq confirmed_db
    ∧ (blocknumber confirmed_row = Some (parse_int "0x65") → d' = confirmed_db)
    ∧ (blocknumber confirmed_row ≠ Some (parse_int "0x65") →
       transactions d'
       = set_row_blocknumber (parse_int "0x65") (transaction_id confirmed_row)
         <$> transactions confirmed_db).
Proof.
  apply (process_transaction_reorg_confirmed confirmed_db ingest_tx
           confirmed_row "0x65"); vm_compute; reflexivity.
Defined.

(** A transfer to a row that exists: the parties and the value are
    updated, the contract address and the status are kept. *)
Lemma store_transfers_witness :
  ∃ row,
    token_transactions (store_transfers transfer_db 1 [transfer_in; transfer_out])
    !! (1, e_log_index transfer_in) = Some row
    ∧ tt_from_address row = e_from_address transfer_in
    ∧ tt_to_address row = e_to_address transfer_in
    ∧ tt_value row = e_value transfer_in
    ∧ match token_transactions transfer_db !! (1, e_log_index transfer_in) with
      | Some old =>
          tt_contract_address row = tt_contract_address old
          ∧ tt_status row = tt_status old
      | None =>
          tt_contract_address row = e_contract_address transfer_in
          ∧ tt_status row = e_status transfer_in
      end.
Proof.
  apply (store_transfers_lookup transfer_db 1 [transfer_in; transfer_out]
           transfer_in).
  - apply (bool_decide_unpack _). vm_compute. exact I.
  - apply list_elem_of_here.
  - vm_compute. reflexivity.
Defined.

(** The contract creation of a registered sender. *)
Lemma creation_witness :
  1 = transactions_seq (database ingest_monitor)
  ∧ last (transactions
            (process_transaction (database ingest_monitor) creation_tx false).1.2)
    = Some (new_transaction_row 1 creation_tx "0x")
  ∧ to_address (new_transaction_row 1 creation_tx "0x") = "0x"
  ∧ t_hash (new_transaction_row 1 creation_tx "0x") = tx_hash creation_tx
  ∧ (process_transaction (database ingest_monitor) creation_tx false).2
    = [update_transaction 1 (new_status creation_tx)].
Proof.
  apply (process_transaction_contract_creation (database ingest_monitor)
           (process_transaction (database ingest_monitor) creation_tx false).1.2
           creation_tx false 1
           (process_transaction (database ingest_monitor) creation_tx false).2).
  - reflexivity.
  - vm_compute. reflexivity.
  - vm_compute. reflexivity.
Defined.

(** The overwritten nonce when the stored row is in error. *)
Lemma error_row_witness :
  match extract_transfers error_db overwrite_tx (Some error_old)
                          (default "0x" (tx_to overwrite_tx))
                          (tx_from overwrite_tx) with
  | None => process_transaction error_db overwrite_tx false
            = (TxRaised, error_db, [])
  | Some ts =>
      process_transaction error_db overwrite_tx false
      = (TxReturned (Some (transaction_id error_old)),
         store_transfers error_db (transaction_id error_old) ts,
         [update_transaction (transaction_id error_old)
                             (new_status overwrite_tx)])
      ∧ transactions (store_transfers error_db (transaction_id error_old) ts)
        = transactions error_db
  end.
Proof.
  apply (process_transaction_error_row error_db overwrite_tx false error_old);
    vm_compute; reflexivity.
Defined.

(** The hash first seen at 30 with a node that knows nothing, at 100. *)
Lemma outage_witness :
  ∃ m', process_unconfirmed_transactions (λ _, 100%Q) (quiet_node (λ _, None))
                                         expiry_monitor = (m', [])
    ∧ database m' = database expiry_monitor
    ∧ ∀ h, unconfirmed_txs m' !! h
           = match unconfirmed_txs expiry_monitor !! h with
             | Some created =>
                 if expired 100 created then None else Some created
             | None => None
             end.
Proof.
  apply (process_unconfirmed_transactions_outage (λ _, 100%Q)
           (quiet_node (λ _, None)) expiry_monitor).
  - reflexivity.
  - intros h. right. reflexivity.
Defined.

(** Two registered addresses and one unready token: one page. *)
Lemma pages_witness :
  ∃ pages,
    concat pages = token_registrations (database paged_monitor)
    ∧ Forall (λ page, (0 < length page ≤ 1000)%nat) pages
    ∧ (filter_poll_tokens paged_monitor).2
      = token_cache_messages (filter unready (tokens (database paged_monitor)))
                             pages.
Proof. apply (filter_poll_tokens_pages paged_monitor). reflexivity. Defined.

(** The three tokens: the first becomes ready, the others are kept. *)
Lemma ready_witness :
  let m' := (filter_poll_tokens tokens_monitor).1 in
  length (tokens (database m')) = length (tokens (database tokens_monitor))
  ∧ ∀ i t, tokens (database tokens_monitor) !! i = Some t →
      ∃ t', tokens (database m') !! i = Some t'
            ∧ contract_address t' = contract_address t
            ∧ custom t' = custom t
            ∧ (unready t → ready t' = true)
            ∧ ((∀ u, u ∈ tokens (database tokens_monitor) → unready u →
                     contract_address u ≠ contract_address t) → t' = t).
Proof. apply (filter_poll_tokens_ready tokens_monitor). reflexivity. Defined.

(** Two hashes arrive at 100, one of them pending since 30. *)
Lemma filter_pending_witness :
  let '(fs', pm', sleeps, run) :=
    filter_poll_filter Qminus false (RpcOk ["0xaa"; "0xbb"]) (λ _, 100%Q) 101
                       102 [] quiet_filter
                       ({[ "0xaa" := 30 ]} : gmap string Z) in
  run = bool_decide (0 < size pm')%nat
  ∧ match RpcOk ["0xaa"; "0xbb"] with
    | RpcOk hashes =>
        (∀ h, pm' !! h
              = match ({[ "0xaa" := 30 ]} : gmap string Z) !! h with
                | Some first_seen => Some first_seen
                | None => if bool_decide (h ∈ hashes)
                          then Some (py_int ((λ _, 100%Q) h)) else None
                end)
        ∧ (hashes ≠ [] →
           fs' = {| _new_pending_transaction_filter_id := Some "0xf17e4";
                    _last_saw_new_pending_transactions := 101 |}
           ∧ sleeps = [])
    | RpcError =>
        pm' = ({[ "0xaa" := 30 ]} : gmap string Z)
        ∧ (fs', sleeps)
          = register_new_pending_transaction_filter false [] 102 quiet_filter
    end.
Proof.
  apply (filter_poll_filter_pending Qminus (RpcOk ["0xaa"; "0xbb"])
           (λ _, 100%Q) 101 102 [] quiet_filter {[ "0xaa" := 30 ]} "0xf17e4").
  reflexivity.
Defined.

(** An empty answer 60 seconds after the last pending transaction; on
    the readings 100 and 40 the float subtraction is the exact one. *)
Lemma filter_timeout_witness :
  ((100 - _last_saw_new_pending_transactions quiet_filter < 121)%Q →
   filter_poll_filter Qminus false (RpcOk []) (λ _, 100%Q) 100 102
                      [RpcOk "0xf2"] quiet_filter ∅
   = (quiet_filter, ∅, [], bool_decide (0 < size (∅ : gmap string Z))%nat))
  ∧ ((121 <= 100 - _last_saw_new_pending_transactions quiet_filter)%Q →
     filter_poll_filter Qminus false (RpcOk []) (λ _, 100%Q) 100 102
                        [RpcOk "0xf2"] quiet_filter ∅
     = ((register_new_pending_transaction_filter false [RpcOk "0xf2"] 102
                                                  quiet_filter).1,
        ∅,
        (register_new_pending_transaction_filter false [RpcOk "0xf2"] 102
                                                 quiet_filter).2,
        bool_decide (0 < size (∅ : gmap string Z))%nat)).
Proof.
  apply (filter_poll_filter_timeout Qminus (λ _, 100%Q) 100 102 [RpcOk "0xf2"]
           quiet_filter ∅ "0xf17e4").
  reflexivity.
Defined.

(** The watchdog 50 seconds after the last block, with no poll
    scheduled; on these readings the float operations are the exact ones. *)
Lemma heartbeat_witness :
  let '(fs', schedule, ok) :=
    sanity_check Qminus Qplus false [] 0 10 11 100 quiet_filter None false 50 in
  (ok = true ↔ (100 - 50 < 301)%Q)
  ∧ (is_Some (_new_pending_transaction_filter_id quiet_filter) →
     fs' = quiet_filter)
  ∧ match @None Q with
    | None => schedule = Some (11 + 1)%Q
    | Some when =>
        (false = true ∨ (10 <= when)%Q → schedule = Some when)
        ∧ (false = false → (when < 10)%Q → schedule = Some (11 + 1)%Q)
    end.
Proof.
  apply (sanity_check_heartbeat Qminus Qplus [] 0 10 11 100 quiet_filter None
           false 50).
Defined.

(** A client registers the address 0xa1 for [apn] and deregisters it,
    on a server that rejects [$3AND]. *)
Lemma pn_round_trip_witness :
  let row := {| token_id := "0xf1"; service := "apn";
                registration_id := "r1"; eth_address := "0xa1" |} in
  let payload := {| p_registration_id := Some "r1";
                    p_address := Some "0xa1" |} in
  let by_id := {| p_registration_id := Some "r1"; p_address := None |} in
  let t1 := (pn_register has_0x "0xf1" "apn" payload legacy_table).2 in
  (pn_register has_0x "0xf1" "apn" payload legacy_table).1 = NoContent
  ∧ row ∈ t1
  ∧ (NoDup legacy_table → NoDup t1)
  ∧ pn_register has_0x "0xf1" "apn" payload t1 = (NoContent, t1)
  ∧ (pn_deregister has_0x false "0xf1" "apn" by_id t1).1 = NoContent
  ∧ (∀ r, r ∈ (pn_deregister has_0x false "0xf1" "apn" by_id t1).2
          ↔ r ∈ t1 ∧ ¬ (token_id r = "0xf1" ∧ service r = "apn"
                        ∧ registration_id r = "r1"))
  ∧ (row ∉ (pn_deregister has_0x false "0xf1" "apn" by_id t1).2)
  ∧ pn_deregister has_0x false "0xf1" "apn" payload t1 = (ServerError, t1).
Proof.
  apply (pn_register_deregister has_0x false "0xf1" "apn" "r1" "0xa1"
           legacy_table).
  - reflexivity.
  - discriminate.
Defined.

(** The legacy row of the client 0xf1 moves to [gcm]. *)
Lemma legacy_migration_witness :
  let migrated a := {| token_id := "0xf1"; service := "gcm";
                       registration_id := "r1"; eth_address := a |} in
  let payload := {| p_registration_id := Some "r1"; p_address := None |} in
  let t1 := (pn_register has_0x "0xf1" "gcm" payload legacy_table).2 in
  (pn_register has_0x "0xf1" "gcm" payload legacy_table).1 = NoContent
  ∧ (∀ r, r ∈ t1 ↔ (r ∈ legacy_table ∧ ¬ is_legacy "0xf1" r)
                   ∨ ∃ old, old ∈ legacy_table ∧ is_legacy "0xf1" old
                            ∧ r = migrated (eth_address old))
  ∧ (∀ a, a ∈ eth_address <$> t1 ↔ a ∈ eth_address <$> legacy_table)
  ∧ (NoDup legacy_table → NoDup t1).
Proof.
  apply (pn_register_migrates_legacy has_0x "0xf1" "gcm" "r1" legacy_table).
  - intros [Hs _]. discriminate Hs.
  - intros Hf. vm_compute in Hf. discriminate Hf.
Defined.
